(** * follow-up-bot: the lead orchestrator and the project step flow

    A shallow embedding of the turn orchestrator [runLeadOrchestrator] (the
    version of [leadOrchestrator.ts] with the quote dependency gate and the
    missing-field resolver; [src/lib/leadOrchestrator.ts] is an earlier
    version with the same detectors and the same ladder of rules) and of
    [src/lib/projectConversation.ts], with the properties stated about
    them.  Around these two the file models what calls them and what they
    hand their results to: the intent endpoint and the test page, the sample
    quote generator, the Telegram webhook with the text of a voice message,
    the analyze endpoint with its phone detector, the earlier orchestrator
    with the analyze endpoint that served it, and the column names of the
    sheet recorder.

    JavaScript strings are sequences of UTF-16 code units; they are modelled
    as [list N].  The per-chat store of the step flow is a [gmap]. *)

From Stdlib Require Import ZArith NArith List String Ascii Bool Lia Sorted.
From stdpp Require Import base gmap list.
Import ListNotations.

Open Scope N_scope.

(** The three outcomes of a confirmation: both flows branch on a yes test
    and a no test of the user's answer. *)
Inductive Confirmation := YES | NO | AMBIGUOUS.

(** ** JavaScript string primitives *)

Module JS.

Abbreviation jsstring := (list N).

(** *** Literals

    The word lists of the source are written here as UTF-8 literals and
    decoded to UTF-16 code units, so that they read as in the source. *)

Definition cont (b : N) : N := N.land b 0x3F.

Definition surrogates (cp : N) : list N :=
  if cp <? 0x10000 then [cp]
  else let v := cp - 0x10000 in
       [0xD800 + N.shiftr v 10; 0xDC00 + N.land v 0x3FF].

Fixpoint utf8_decode (bs : list N) : list N :=
  match bs with
  | [] => []
  | b0 :: t0 =>
    if b0 <? 0x80 then b0 :: utf8_decode t0
    else if b0 <? 0xE0 then
      match t0 with
      | b1 :: t1 =>
        (N.shiftl (N.land b0 0x1F) 6 + cont b1) :: utf8_decode t1
      | _ => [0xFFFD]
      end
    else if b0 <? 0xF0 then
      match t0 with
      | b1 :: b2 :: t2 =>
        (N.shiftl (N.land b0 0x0F) 12 + N.shiftl (cont b1) 6 + cont b2)
          :: utf8_decode t2
      | _ => [0xFFFD]
      end
    else
      match t0 with
      | b1 :: b2 :: b3 :: t3 =>
        surrogates (N.shiftl (N.land b0 0x07) 18 + N.shiftl (cont b1) 12
                    + N.shiftl (cont b2) 6 + cont b3) ++ utf8_decode t3
      | _ => [0xFFFD]
      end
  end.

Definition lit (s : string) : jsstring :=
  utf8_decode (List.map N_of_ascii (list_ascii_of_string s)).

(** *** Equality, prefix, containment *)

Fixpoint streq (a b : jsstring) : bool :=
  match a, b with
  | [], [] => true
  | x :: a', y :: b' => (x =? y) && streq a' b'
  | _, _ => false
  end.

(** [s.startsWith(p)] *)
Fixpoint startsWith (s p : jsstring) : bool :=
  match p, s with
  | [], _ => true
  | x :: p', y :: s' => (x =? y) && startsWith s' p'
  | _ :: _, [] => false
  end.

(** [s.includes(sub)] *)
Fixpoint includes (s sub : jsstring) : bool :=
  startsWith s sub ||
  match s with
  | [] => false
  | _ :: s' => includes s' sub
  end.

(** [a.includes(x)] on an array of strings *)
Definition arrayIncludes (a : list jsstring) (x : jsstring) : bool :=
  existsb (streq x) a.

(** [parts.join(sep)] *)
Fixpoint join (sep : jsstring) (parts : list jsstring) : jsstring :=
  match parts with
  | [] => []
  | [p] => p
  | p :: rest => p ++ sep ++ join sep rest
  end.

(** Truthiness of an optional string: [undefined], [null] and the empty
    string are falsy. *)
Definition truthy (o : option jsstring) : bool :=
  match o with
  | Some (_ :: _) => true
  | _ => false
  end.

(** *** White space, trimming, case *)

(** ECMAScript WhiteSpace and LineTerminator code units: the set removed by
    [trim()] and matched by [\s]. *)
Definition isWhiteSpace (c : N) : bool :=
  ((0x09 <=? c) && (c <=? 0x0D)) || (c =? 0x20) || (c =? 0xA0)
  || (c =? 0x1680) || ((0x2000 <=? c) && (c <=? 0x200A))
  || (c =? 0x2028) || (c =? 0x2029) || (c =? 0x202F) || (c =? 0x205F)
  || (c =? 0x3000) || (c =? 0xFEFF).

Fixpoint dropWhile (p : N -> bool) (s : jsstring) : jsstring :=
  match s with
  | [] => []
  | c :: s' => if p c then dropWhile p s' else s
  end.

Definition dropWhileEnd (p : N -> bool) (s : jsstring) : jsstring :=
  rev (dropWhile p (rev s)).

Definition trim (s : jsstring) : jsstring :=
  dropWhileEnd isWhiteSpace (dropWhile isWhiteSpace s).

(** [toLowerCase()].  The scripts of the word lists (Devanagari, Gujarati,
    Kannada) have no case; the model maps the letters A-Z and leaves every
    other code unit as it is, which is what JavaScript does on ASCII and on
    the Indic blocks.  Outside them JavaScript lower-cases more (U+212A to
    [k], U+0130 to two code units): where a hypothesis on an arbitrary
    message is decided through its lower-cased text, the statement is kept
    to texts of ASCII and Indic code units ([plainCased] below). *)
Definition lowerUnit (c : N) : N :=
  if (0x41 <=? c) && (c <=? 0x5A) then c + 0x20 else c.

Definition toLowerCase (s : jsstring) : jsstring := List.map lowerUnit s.

(** The character class [[.\s।,]] of the confirmation detectors. *)
Definition isEdgePunct (c : N) : bool :=
  (c =? 0x2E) || isWhiteSpace c || (c =? 0x964) || (c =? 0x2C).

(** [s.replace(/^[.\s।,]+|[.\s।,]+$/g, '')]: the first alternative removes
    the longest run of class characters at the start, the second the
    longest run that reaches the end. *)
Definition stripEdges (s : jsstring) : jsstring :=
  dropWhileEnd isEdgePunct (dropWhile isEdgePunct s).

(** *** Decimal digits *)

Definition isDigit (c : N) : bool := (0x30 <=? c) && (c <=? 0x39).

(** [parseInt(ds, 10)] on a string of decimal digits.  The result is kept
    exact, as JavaScript numbers are up to 2^53, so for every string of at
    most fifteen digits; the statements on any number read from a text
    bound its length so. *)
Definition parseInt (ds : jsstring) : N :=
  fold_left (fun acc c => 10 * acc + (c - 0x30)) ds 0.

End JS.

(** ** Regular expressions of the quote parameter extractor

    A backtracking matcher for the fragment the source uses: literals
    (with or without the [i] flag), greedy [+] and [*] on a character
    class, [?], alternation, sequence and one capturing group. *)

Module Regex.
Import JS.

Inductive regex : Type :=
| Lit (ci : bool) (l : jsstring)
| Plus (cls : N -> bool)
| Star (cls : N -> bool)
| Opt (r : regex)
| Alt (r1 r2 : regex)
| Seq (r1 r2 : regex)
| Group (r : regex).

(** Canonicalisation of the [i] flag, for a pattern of ASCII letters: only
    the ASCII case variants of the letter match it. *)
Definition upperUnit (c : N) : N :=
  if (0x61 <=? c) && (c <=? 0x7A) then c - 0x20 else c.

Definition unitMatches (ci : bool) (p c : N) : bool :=
  if ci then upperUnit p =? upperUnit c else p =? c.

Fixpoint matchLit (ci : bool) (l s : jsstring) : option jsstring :=
  match l, s with
  | [], _ => Some s
  | p :: l', c :: s' => if unitMatches ci p c then matchLit ci l' s' else None
  | _ :: _, [] => None
  end.

Section Matcher.
Context {R : Type}.

(** Greedy [cls*]: the longest run first, then shorter ones. *)
Fixpoint matchStar (cls : N -> bool) (s : jsstring)
         (k : jsstring -> option R) : option R :=
  match s with
  | c :: s' =>
    if cls c then
      match matchStar cls s' k with
      | Some x => Some x
      | None => k s
      end
    else k s
  | [] => k s
  end.

Definition matchPlus (cls : N -> bool) (s : jsstring)
           (k : jsstring -> option R) : option R :=
  match s with
  | c :: s' => if cls c then matchStar cls s' k else None
  | [] => None
  end.

(** [rmatch r s cap k]: match [r] at the start of [s], then continue with
    [k] on the rest and the capture; [None] means backtrack. *)
Fixpoint rmatch (r : regex) (s : jsstring) (cap : option jsstring)
         (k : jsstring -> option jsstring -> option R) : option R :=
  match r with
  | Lit ci l =>
    match matchLit ci l s with
    | Some s' => k s' cap
    | None => None
    end
  | Plus cls => matchPlus cls s (fun s' => k s' cap)
  | Star cls => matchStar cls s (fun s' => k s' cap)
  | Opt r1 =>
    match rmatch r1 s cap k with
    | Some x => Some x
    | None => k s cap
    end
  | Alt r1 r2 =>
    match rmatch r1 s cap k with
    | Some x => Some x
    | None => rmatch r2 s cap k
    end
  | Seq r1 r2 => rmatch r1 s cap (fun s' cap' => rmatch r2 s' cap' k)
  | Group r1 =>
    rmatch r1 s cap
           (fun s' _ => k s' (Some (firstn (length s - length s') s)))
  end.
End Matcher.

(** [s.match(r)] without the [g] flag: the leftmost match; the result is
    [None] for [null], else the text of capturing group 1. *)
Fixpoint exec (r : regex) (s : jsstring) : option (option jsstring) :=
  match rmatch r s None (fun _ cap => Some cap) with
  | Some cap => Some cap
  | None =>
    match s with
    | [] => None
    | _ :: s' => exec r s'
    end
  end.

End Regex.

(** ** [src/lib/leadAnalysis.ts] and [src/lib/leadIntent.ts]: the records
    the orchestrator reads *)

Module LeadAnalysis.
Import JS.

Inductive JobType := painting | plumbing | electrical | civil | job_unknown.

Inductive Urgency :=
  today | tomorrow | this_week | next_week | flexible | urgency_unknown.

Inductive PreferredLanguage := hi | en | mixed | language_unknown.

Record Customer := { name : option jsstring; phone : option jsstring }.

Record ScopeHint := { interior : option bool; exterior : option bool }.

Record LeadAnalysis := {
  contractor_id : option jsstring;
  raw_utterance : jsstring;
  customer : Customer;
  location_text : option jsstring;
  job_type : JobType;
  scope_hint : ScopeHint;
  urgency : Urgency;
  preferred_language : PreferredLanguage
}.

(** The string value of the enumerations, as interpolated in templates. *)
Definition jobTypeString (j : JobType) : jsstring :=
  match j with
  | painting => lit "painting"
  | plumbing => lit "plumbing"
  | electrical => lit "electrical"
  | civil => lit "civil"
  | job_unknown => lit "unknown"
  end.

Definition urgencyString (u : Urgency) : jsstring :=
  match u with
  | today => lit "today"
  | tomorrow => lit "tomorrow"
  | this_week => lit "this_week"
  | next_week => lit "next_week"
  | flexible => lit "flexible"
  | urgency_unknown => lit "unknown"
  end.

End LeadAnalysis.

Module LeadIntent.
Import JS.

Inductive HighLevelIntent :=
| GREETING
| NEW_LEAD
| GENERATE_QUOTE_OPTIONS
| UPDATE_EXISTING_LEAD
| LOG_MEASUREMENT
| GENERAL_QUESTION
| OTHER.

Record LeadIntentResult := {
  intent : HighLevelIntent;
  lead_hint : option jsstring;
  topic : option jsstring
}.

Definition intent_eqb (a b : HighLevelIntent) : bool :=
  match a, b with
  | GREETING, GREETING
  | NEW_LEAD, NEW_LEAD
  | GENERATE_QUOTE_OPTIONS, GENERATE_QUOTE_OPTIONS
  | UPDATE_EXISTING_LEAD, UPDATE_EXISTING_LEAD
  | LOG_MEASUREMENT, LOG_MEASUREMENT
  | GENERAL_QUESTION, GENERAL_QUESTION
  | OTHER, OTHER => true
  | _, _ => false
  end.

End LeadIntent.

(** ** [src/lib/leadOrchestrator.ts] *)

Module LeadOrchestrator.
Import JS Regex LeadAnalysis LeadIntent.

Inductive LeadStatus := LS_NEW | LS_LEAD_CAPTURED.

Inductive ConversationIntent :=
| CI_GREETING
| CI_NEW
| CI_LEAD_CAPTURED
| CI_LEAD_MODIFICATION
| CI_SCHEDULE_SITE_VISIT.

Record ConversationState := {
  leadStatus : LeadStatus;
  lastIntent : option ConversationIntent;
  leadId : option jsstring
}.

Record LeadAnalyzeLikeResponse := {
  success : bool;
  data : option LeadAnalysis;
  error : option jsstring
}.

(** A JavaScript number, as far as the orchestrator reads it: it is only
    tested against [null] and for truthiness ([0] and [NaN] are falsy). *)
Inductive number := NaN | Num (z : Z).

Record MeasurementData := {
  bhk : option number;
  sqft : option number;
  paintable_area : option number;
  ceilings : option bool;
  coats : option number;
  putty_level : option jsstring;
  dampness : option bool;
  brand_preference : option jsstring
}.

Record OrchestratorInput := {
  text : jsstring;
  state : ConversationState;
  analysis : LeadAnalyzeLikeResponse;
  intent : option LeadIntentResult;
  measurements : option MeasurementData
}.

Record QuoteRequirements := {
  options : N;
  timeline : option jsstring;
  advance : option N;
  labour_and_material : bool
}.

(** The [arguments] object of the [generate_quote_options] tool call. *)
Record QuoteArguments := {
  arg_leadId : option jsstring;
  jobType : option JobType;
  location : option jsstring;
  requirements : QuoteRequirements
}.

Record ToolCall := { name : jsstring; arguments : QuoteArguments }.

Inductive DependencyType :=
| PROJECT_REQUIRED
| MEASUREMENT_REQUIRED
| BHK_REQUIRED
| SQFT_REQUIRED
| PAINTABLE_AREA_REQUIRED.

Record Dependency := {
  type : DependencyType;
  message : jsstring;
  action : option jsstring
}.

(** [missing] is a JavaScript object used as a map; its keys are kept in
    insertion order. *)
Record OrchestratorOutput := {
  reply : jsstring;
  newState : ConversationState;
  toolCall : option ToolCall;
  dependencies : option (list Dependency);
  missing : option (list (jsstring * bool))
}.

Definition status_eqb (a b : LeadStatus) : bool :=
  match a, b with
  | LS_NEW, LS_NEW | LS_LEAD_CAPTURED, LS_LEAD_CAPTURED => true
  | _, _ => false
  end.

Definition lastIntentIs (s : ConversationState) (i : ConversationIntent) : bool :=
  match lastIntent s, i with
  | Some CI_GREETING, CI_GREETING
  | Some CI_NEW, CI_NEW
  | Some CI_LEAD_CAPTURED, CI_LEAD_CAPTURED
  | Some CI_LEAD_MODIFICATION, CI_LEAD_MODIFICATION
  | Some CI_SCHEDULE_SITE_VISIT, CI_SCHEDULE_SITE_VISIT => true
  | _, _ => false
  end.

Definition numTruthy (o : option number) : bool :=
  match o with
  | Some (Num z) => negb (z =? 0)%Z
  | _ => false
  end.

Definition notNull {A} (o : option A) : bool :=
  match o with Some _ => true | None => false end.

(** [{ ...state, lastIntent: i }] *)
Definition withLastIntent (s : ConversationState) (i : ConversationIntent)
  : ConversationState :=
  {| leadStatus := leadStatus s; lastIntent := Some i; leadId := leadId s |}.

(** An output with a reply and a state only. *)
Definition say (r : jsstring) (s : ConversationState) : OrchestratorOutput :=
  {| reply := r; newState := s; toolCall := None; dependencies := None;
     missing := None |}.

Definition greetings : list jsstring :=
  [ lit "hi"; lit "hello"; lit "hey"; lit "namaste"; lit "namaskar";
    lit "good morning"; lit "good evening"; lit "good afternoon";
    lit "राम राम"; lit "jai shree krishna"; lit "जय श्री कृष्ण" ].

Definition detectGreeting (text : jsstring) : bool :=
  let normalized := toLowerCase (trim text) in
  match normalized with
  | [] => false
  | _ =>
    existsb (fun g => streq normalized g || startsWith normalized (g ++ lit " "))
            greetings
  end.

Definition yesWords : list jsstring :=
  [ lit "haan"; lit "ha"; lit "haa"; lit "yes"; lit "y"; lit "जी"; lit "हाँ";
    lit "हां"; lit "कर दो"; lit "करदो"; lit "कर दीजिए" ].

Definition detectYes (text : jsstring) : bool :=
  let raw := trim text in
  let cleaned := toLowerCase (trim (stripEdges raw)) in
  existsb (fun y => streq cleaned y || includes raw y) yesWords.

Definition noWords : list jsstring :=
  [ lit "nahi"; lit "nahin"; lit "na"; lit "no"; lit "n"; lit "मत";
    lit "मत करो"; lit "मत कर"; lit "नहीं" ].

Definition detectNo (text : jsstring) : bool :=
  let raw := trim text in
  let cleaned := toLowerCase (trim (stripEdges raw)) in
  existsb (fun n => streq cleaned n || includes raw n) noWords.

(** *** The missing-field resolver *)

Definition q_name : jsstring := lit "Customer ka naam kya hai?".
Definition q_phone : jsstring :=
  lit "Customer ka mobile number share karoge? (+91 se start ho sakta hai)".
Definition q_location : jsstring :=
  lit "Site ka exact location batao (area + street / landmark).".
Definition q_job_type : jsstring :=
  lit "Painting ka exact kaam batao – kis area mein (room / poora ghar / office / exterior), kaunsi surface (wall, ceiling, door/window, metal, wood) aur purana paint ki condition kaisi hai?".
Definition q_urgency : jsstring :=
  lit "Ye kaam kab tak karwana hai? (aaj, kal, iss hafte, next week, etc.)".

Definition isQuoteIntent (i : option LeadIntentResult) : bool :=
  match i with
  | Some r => intent_eqb (LeadIntent.intent r) GENERATE_QUOTE_OPTIONS
  | None => false
  end.

(** [if (cond) { missing[key] = true; questions.push(q); }] *)
Definition flag (cond : bool) (key q : jsstring)
           (acc : list (jsstring * bool) * list jsstring)
  : list (jsstring * bool) * list jsstring :=
  if cond then (fst acc ++ [(key, true)], snd acc ++ [q]) else acc.

Definition generateFollowupQuestions (a : LeadAnalysis)
           (i : option LeadIntentResult)
  : list (jsstring * bool) * list jsstring :=
  let acc := ([], []) in
  let acc :=
    if negb (isQuoteIntent i) then
      let acc := flag (negb (truthy (LeadAnalysis.name (customer a))))
                      (lit "customer_name") q_name acc in
      let acc := flag (negb (truthy (phone (customer a))))
                      (lit "customer_phone") q_phone acc in
      flag (negb (truthy (location_text a)))
           (lit "location_text") q_location acc
    else acc in
  let acc :=
    if negb (isQuoteIntent i) then
      flag (match job_type a with job_unknown => true | _ => false end)
           (lit "job_type") q_job_type acc
    else acc in
  let acc :=
    if negb (isQuoteIntent i) then
      flag (match urgency a with urgency_unknown => true | _ => false end)
           (lit "urgency") q_urgency acc
    else acc in
  acc.

(** *** The confirmation recap *)

Definition orEmpty (o : option jsstring) : jsstring :=
  match o with Some s => s | None => [] end.

Definition confirmationOpening : jsstring :=
  lit "Mere hisaab se painting ka kaam samajh aa gaya hai aur saari important details mil gayi hain.".

Definition generateConfirmation (a : LeadAnalysis) : option jsstring :=
  let parts : list jsstring := [] in
  let parts :=
    if truthy (LeadAnalysis.name (customer a))
    then parts ++ [lit "Customer: " ++ orEmpty (LeadAnalysis.name (customer a))]
    else parts in
  let parts :=
    if truthy (location_text a)
    then parts ++ [lit "Location: " ++ orEmpty (location_text a)]
    else parts in
  let parts :=
    match job_type a with
    | job_unknown => parts
    | j => parts ++ [lit "Job: " ++ jobTypeString j]
    end in
  let parts :=
    match urgency a with
    | urgency_unknown => parts
    | u => parts ++ [lit "Urgency: " ++ urgencyString u]
    end in
  let recap :=
    match parts with
    | [] => []
    | _ => lit " Quick recap – " ++ join (lit ", ") parts ++ lit "."
    end in
  Some (confirmationOpening ++ recap ++ lit " Kya yeh sahi hai?").

(** *** The quote dependency gate and the parameter extraction
    (the [GENERATE_QUOTE_OPTIONS] branch of [runLeadOrchestrator]) *)

Definition dep_project : Dependency :=
  {| type := PROJECT_REQUIRED;
     message := lit "Quote generate karne ke liye pehle project select karna hoga.";
     action := Some (lit "SELECT_PROJECT") |}.

Definition dep_measurement : Dependency :=
  {| type := MEASUREMENT_REQUIRED;
     message := lit "Quote generate karne ke liye measurement details chahiye (BHK, sqft, ya paintable area).";
     action := Some (lit "LOG_MEASUREMENT") |}.

Definition dep_sqft : Dependency :=
  {| type := SQFT_REQUIRED;
     message := lit "Quote generate karne ke liye sqft ya paintable area chahiye.";
     action := Some (lit "LOG_MEASUREMENT") |}.

Definition hasBasicMeasurement (m : option MeasurementData) : bool :=
  match m with
  | Some m => notNull (bhk m) || notNull (sqft m) || notNull (paintable_area m)
  | None => false
  end.

(** The list [dependencies] as it stands when its length is tested. *)
Definition quoteDependencies (s : ConversationState)
           (m : option MeasurementData) : list Dependency :=
  let deps : list Dependency := [] in
  let deps := if negb (truthy (leadId s)) then deps ++ [dep_project] else deps in
  if negb (hasBasicMeasurement m) then deps ++ [dep_measurement]
  else
    if negb (numTruthy (m ≫= sqft)) && negb (numTruthy (m ≫= paintable_area))
    then deps ++ [dep_sqft]
    else deps.

Definition unitWord (ci : bool) (w : string) : regex :=
  Seq (Lit ci (lit w)) (Opt (Lit ci (lit "s"))).

(** [\d+\s*(?:days?|weeks?|months?)] *)
Definition durationRe (ci : bool) : regex :=
  Seq (Plus isDigit)
      (Seq (Star isWhiteSpace)
           (Alt (unitWord ci "day") (Alt (unitWord ci "week") (unitWord ci "month")))).

(** [/(\d+)\s*options?/] *)
Definition optionsRe : regex :=
  Seq (Group (Plus isDigit))
      (Seq (Star isWhiteSpace) (unitWord false "option")).

(** [/timeline\s*(\d+\s*(?:days?|weeks?|months?))/i] *)
Definition timelineRe : regex :=
  Seq (Lit true (lit "timeline"))
      (Seq (Star isWhiteSpace) (Group (durationRe true))).

(** [/(\d+\s*(?:days?|weeks?|months?))/] *)
Definition bareDurationRe : regex := Group (durationRe false).

(** [(?:advance|advance\s*payment)] under the [i] flag *)
Definition advanceWordRe : regex :=
  Alt (Lit true (lit "advance"))
      (Seq (Lit true (lit "advance"))
           (Seq (Star isWhiteSpace) (Lit true (lit "payment")))).

(** [/(?:advance|advance\s*payment)\s*(\d+)\s*%/i] *)
Definition advanceBeforeRe : regex :=
  Seq advanceWordRe
      (Seq (Star isWhiteSpace)
           (Seq (Group (Plus isDigit))
                (Seq (Star isWhiteSpace) (Lit true (lit "%"))))).

(** [/(\d+)\s*%\s*(?:advance|advance\s*payment)/i] *)
Definition advanceAfterRe : regex :=
  Seq (Group (Plus isDigit))
      (Seq (Star isWhiteSpace)
           (Seq (Lit true (lit "%"))
                (Seq (Star isWhiteSpace) advanceWordRe))).

(** [a || b] on two match results *)
Definition orMatch {A} (a b : option A) : option A :=
  match a with Some _ => a | None => b end.

Definition extractRequirements (text : jsstring) : QuoteRequirements :=
  let normalizedText := toLowerCase text in
  let optionsMatch := exec optionsRe normalizedText in
  let numOptions :=
    match optionsMatch with
    | Some g => parseInt (orEmpty g)
    | None => 3
    end in
  let timelineMatch :=
    orMatch (exec timelineRe normalizedText)
            (exec bareDurationRe normalizedText) in
  let timeline := timelineMatch ≫= id in
  let advanceMatch :=
    orMatch (exec advanceBeforeRe normalizedText)
            (exec advanceAfterRe normalizedText) in
  let advance :=
    match advanceMatch with
    | Some g => Some (parseInt (orEmpty g))
    | None => None
    end in
  let labourAndMaterial :=
    includes normalizedText (lit "labour") &&
    (includes normalizedText (lit "material")
     || includes normalizedText (lit "material")) in
  {| options := numOptions; timeline := timeline; advance := advance;
     labour_and_material := labourAndMaterial |}.

Definition quoteBranch (text : jsstring) (s : ConversationState)
           (a : LeadAnalyzeLikeResponse) (m : option MeasurementData)
  : OrchestratorOutput :=
  let dependencies := quoteDependencies s m in
  match dependencies with
  | _ :: _ =>
    let dependencyMessages := join (lit " ") (List.map message dependencies) in
    {| reply := lit "Quote generate karne ke liye kuch details chahiye: "
                ++ dependencyMessages
                ++ lit " Kripya pehle ye details provide karein.";
       newState := withLastIntent s CI_NEW;
       toolCall := None;
       dependencies := Some dependencies;
       missing := None |}
  | [] =>
    {| reply := lit "Theek hai, main aapke liye quote options generate kar raha hoon. Thoda wait karein...";
       newState := withLastIntent s CI_NEW;
       toolCall :=
         Some {| name := lit "generate_quote_options";
                 arguments :=
                   {| arg_leadId := leadId s;
                      jobType := job_type <$> data a;
                      location :=
                        if truthy (data a ≫= location_text)
                        then data a ≫= location_text else None;
                      requirements := extractRequirements text |} |};
       dependencies := None;
       missing := None |}
  end.

(** *** [runLeadOrchestrator]

    The function is a ladder of guarded early returns.  Each block that
    may return is a function to [option OrchestratorOutput], [None] meaning
    that control falls through to the next block. *)

Definition dquote : jsstring := [0x22].

Definition greetingReply : jsstring :=
  lit "Namaste! Main aapka painting assistant hoon. " ++
  lit "Aap bata sakte ho kis type ka painting ka kaam chahiye (ghar, office, interior, exterior) aur location kaha hai?".

Definition generalQuestionReply : jsstring :=
  lit "Ye ek general sawaal lag raha hai. Agar yeh kisi specific project ke baare mein hai, " ++
  lit "to please customer ka naam aur area (jaise HSR, Whitefield, JP Nagar) batao taaki sahi project pe baat ho sake.".

Definition whichProjectReply (i : LeadIntentResult) : jsstring :=
  let hintPart :=
    if truthy (lead_hint i)
    then lit "Aap shayad " ++ dquote ++ orEmpty (lead_hint i) ++ dquote
         ++ lit " wale kaam ki baat kar rahe ho. "
    else [] in
  let actionLabel :=
    if intent_eqb (LeadIntent.intent i) LOG_MEASUREMENT
    then lit "measurement" else lit "update" in
  hintPart ++
  (lit "Ye " ++ actionLabel ++ lit " kisi purane project ke liye lag raha hai. ") ++
  lit "Please batao kis project ke liye – customer ka naam, area (HSR / Whitefield / JP Nagar) " ++
  lit "ya approximate date (jaise kal ka site visit) taaki main sahi project choose kar saku.".

Definition measurementNotedReply : jsstring :=
  lit "Theek hai, maine measurement note kar liya hai. Agar kuch aur detail (colour, coats, area breakup) add karna ho to batao, ya phir estimate ke baare mein puch sakte ho.".

Definition siteVisitReply : jsstring :=
  lit "Theek hai, lead confirm ho gaya hai. Ab site visit schedule karte hain – " ++
  lit "aapko kaunse din aur kis time convenient hoga customer location par?".

Definition modificationReply : jsstring :=
  lit "Theek hai, batao kya change karna hai – location, area, customer detail ya painting ka scope?".

Definition analysisFailedReply : jsstring :=
  lit "Lead analyze karte waqt kuch problem aayi. Thodi der baad phir se try karoge?".

Definition moreDetailReply : jsstring :=
  lit "Thoda aur detail share karo – customer ka naam, phone, location aur painting ka scope batao.".

Definition visitDetailsReply : jsstring :=
  lit "Site visit ke liye ek clear date aur time batao (jaise: kal dupahar 3 baje, Sunday morning 10 baje).".

Definition fallbackReply : jsstring :=
  lit "Mujhe painting ka kaam samajh aa gaya hai. Agar kuch aur specific chahiye " ++
  lit "to batao, warna hum site visit schedule kar sakte hain.".

(** 0) the classified intent, when there is one *)
Definition intentRule (input : OrchestratorInput) : option OrchestratorOutput :=
  match intent input with
  | None => None
  | Some i =>
    if intent_eqb (LeadIntent.intent i) GREETING then
      Some (say greetingReply (withLastIntent (state input) CI_GREETING))
    else if intent_eqb (LeadIntent.intent i) GENERAL_QUESTION then
      Some (say generalQuestionReply (withLastIntent (state input) CI_GREETING))
    else if intent_eqb (LeadIntent.intent i) GENERATE_QUOTE_OPTIONS then
      Some (quoteBranch (text input) (state input) (analysis input)
                        (measurements input))
    else
      let needsLeadContext :=
        intent_eqb (LeadIntent.intent i) UPDATE_EXISTING_LEAD
        || intent_eqb (LeadIntent.intent i) LOG_MEASUREMENT in
      if needsLeadContext && negb (truthy (leadId (state input))) then
        Some (say (whichProjectReply i) (withLastIntent (state input) CI_NEW))
      else if intent_eqb (LeadIntent.intent i) LOG_MEASUREMENT
              && truthy (leadId (state input)) then
        Some (say measurementNotedReply (withLastIntent (state input) CI_NEW))
      else None
  end.

(** 1) the greeting heuristic *)
Definition greetingRule (input : OrchestratorInput) : option OrchestratorOutput :=
  if detectGreeting (trim (text input))
  then Some (say greetingReply (withLastIntent (state input) CI_GREETING))
  else None.

(** 2) yes or no after a confirmation message *)
Definition confirmationRule (input : OrchestratorInput)
  : option OrchestratorOutput :=
  let s := state input in
  if lastIntentIs s CI_LEAD_CAPTURED && status_eqb (leadStatus s) LS_NEW then
    if detectYes (trim (text input)) then
      Some (say siteVisitReply
                {| leadStatus := LS_LEAD_CAPTURED;
                   lastIntent := Some CI_SCHEDULE_SITE_VISIT;
                   leadId := leadId s |})
    else if detectNo (trim (text input)) then
      Some (say modificationReply (withLastIntent s CI_LEAD_MODIFICATION))
    else None
  else None.

(** 3) a failed analysis *)
Definition analysisFailedRule (input : OrchestratorInput)
  : option OrchestratorOutput :=
  if negb (success (analysis input)) then
    Some (say (match error (analysis input) with
               | Some e => e
               | None => analysisFailedReply
               end)
              (state input))
  else None.

(** 4) and 5) follow-up questions, or the recap that asks for a yes or no *)
Definition analysisRule (input : OrchestratorInput)
  : option OrchestratorOutput :=
  let s := state input in
  match success (analysis input), data (analysis input) with
  | true, Some d =>
    let '(missing, questions) := generateFollowupQuestions d (intent input) in
    match missing with
    | _ :: _ =>
      let questionText :=
        match questions with
        | _ :: _ => join [0x0A] questions
        | [] => moreDetailReply
        end in
      Some {| reply := questionText;
              newState := {| leadStatus := LS_NEW; lastIntent := Some CI_NEW;
                             leadId := leadId s |};
              toolCall := None;
              dependencies := None;
              missing := Some missing |}
    | [] =>
      if status_eqb (leadStatus s) LS_NEW then
        let confirmation := generateConfirmation d in
        if truthy confirmation
        then Some (say (orEmpty confirmation) (withLastIntent s CI_LEAD_CAPTURED))
        else None
      else None
    end
  | _, _ => None
  end.

(** 6) and 7) *)
Definition closingRules (input : OrchestratorInput) : OrchestratorOutput :=
  let s := state input in
  if lastIntentIs s CI_SCHEDULE_SITE_VISIT
     && status_eqb (leadStatus s) LS_LEAD_CAPTURED
  then say visitDetailsReply s
  else say fallbackReply s.

Definition orElse {A} (o : option A) (d : A) : A :=
  match o with Some a => a | None => d end.

(** What the function returns once block 2 has fallen through. *)
Definition afterConfirmation (input : OrchestratorInput) : OrchestratorOutput :=
  orElse (analysisFailedRule input)
  (orElse (analysisRule input)
  (closingRules input)).

Definition runLeadOrchestrator (input : OrchestratorInput) : OrchestratorOutput :=
  orElse (intentRule input)
  (orElse (greetingRule input)
  (orElse (confirmationRule input)
  (afterConfirmation input))).

(** The way block 2 reads the two detectors: the yes test is made first. *)
Definition confirmationOf (isYes isNo : bool) : Confirmation :=
  if isYes then YES else if isNo then NO else AMBIGUOUS.

Definition resolveConfirmation (text : jsstring) : Confirmation :=
  confirmationOf (detectYes (trim text)) (detectNo (trim text)).

End LeadOrchestrator.

(** ** [src/lib/projectConversation.ts] *)

Module ProjectConversation.
Import JS.

Inductive ProjectQuestionKey := work_location | rooms_count.

Definition PROJECT_FLOW : list (ProjectQuestionKey * jsstring) :=
  [ (work_location,
     lit "कृपया बताइए कि पेंटिंग का काम कहाँ हो रहा है? (जैसे: दो बी एच के फ्लैट, बंगला, ऑफिस, सोसाइटी का विंग आदि)");
    (rooms_count,
     lit "कितने कमरे पेंट करने हैं? (जैसे: दो कमरे, तीन कमरे, एक हॉल और दो बेडरूम आदि)") ].

(** [Partial<Record<ProjectQuestionKey, string>>] *)
Record Answers := {
  ans_work_location : option jsstring;
  ans_rooms_count : option jsstring
}.

Definition noAnswers : Answers :=
  {| ans_work_location := None; ans_rooms_count := None |}.

(** [answers[key] = text] *)
Definition setAnswer (a : Answers) (k : ProjectQuestionKey) (t : jsstring)
  : Answers :=
  match k with
  | work_location =>
    {| ans_work_location := Some t; ans_rooms_count := ans_rooms_count a |}
  | rooms_count =>
    {| ans_work_location := ans_work_location a; ans_rooms_count := Some t |}
  end.

Record ConversationState := {
  step : nat;
  answers : Answers;
  waitingForAssignConfirm : bool
}.

Record ProjectConversationSavePayload := {
  save_work_location : option jsstring;
  save_rooms_count : option jsstring;
  assign_resources : bool
}.

Record ProjectConversationResult := {
  replyText : option jsstring;
  savePayload : option ProjectConversationSavePayload
}.

(** The module-level [conversationState] map, keyed by chat id. *)
Abbreviation Store := (gmap Z ConversationState).

Definition initialState : ConversationState :=
  {| step := 0; answers := noAnswers; waitingForAssignConfirm := false |}.

Definition yesValues : list jsstring :=
  [ lit "कर दो"; lit "करदो"; lit "कर दीजिए"; lit "हाँ कर दो"; lit "haan kar do";
    lit "हाँ"; lit "हां"; lit "हा"; lit "जी"; lit "हाँ जी";
    lit "હા"; lit "હાં"; lit "હા જી"; lit "જી";
    lit "ಹಾ"; lit "ಹಾಂ";
    lit "haan"; lit "ha"; lit "haa"; lit "han"; lit "haana"; lit "hān";
    lit "yes"; lit "y"; lit "ye"; lit "ji" ].

Definition noValues : list jsstring :=
  [ lit "मत करो"; lit "मत कर"; lit "मत कीजिए";
    lit "रद्द"; lit "रद"; lit "rad"; lit "cancel"; lit "कैंसल";
    lit "नहीं"; lit "नहि"; lit "मत";
    lit "ના"; lit "નહીં"; lit "નહિ";
    lit "nahin"; lit "nahi"; lit "na"; lit "no"; lit "n"; lit "mat" ].

(** [isYes] of the confirmation gate, on the trimmed message text *)
Definition isYes (text : jsstring) : bool :=
  let raw := trim text in
  let cleaned := trim (stripEdges raw) in
  let normalized := toLowerCase cleaned in
  arrayIncludes yesValues normalized
  || arrayIncludes yesValues cleaned
  || arrayIncludes yesValues raw
  || ((length raw <=? 15)%nat && includes raw (lit "હા")).

(** [isNo] of the confirmation gate, on the trimmed message text *)
Definition isNo (text : jsstring) : bool :=
  let raw := trim text in
  let cleaned := trim (stripEdges raw) in
  let normalized := toLowerCase cleaned in
  arrayIncludes noValues normalized
  || arrayIncludes noValues cleaned
  || arrayIncludes noValues raw
  || ((length raw <=? 15)%nat
      && (includes raw (lit "ना") || includes raw (lit "नहीं")
          || includes raw (lit "ના") || includes raw (lit "નહીં"))).

Definition assignedReply : jsstring :=
  lit "ठीक है, मैंने 2 रिसोर्स इस काम के लिए असाइन कर दिए हैं।".

Definition notAssignedReply : jsstring :=
  lit "ठीक है, मैं अभी कोई रिसोर्स असाइन नहीं कर रहा हूँ।".

Definition dquote : jsstring := [0x22].

Definition repromptReply : jsstring :=
  lit "कृपया सिर्फ " ++ dquote ++ lit "कर दो" ++ dquote ++ lit " या "
  ++ dquote ++ lit "मत करो" ++ dquote
  ++ lit " में जवाब दें। क्या मैं 2 रिसोर्स इस काम के लिए असाइन कर दूँ?".

Definition assignQuestion (rooms : jsstring) : jsstring :=
  (lit "ठीक है, आपने बताया कि यहाँ " ++ rooms ++ lit " पेंट करने हैं। ") ++
  lit "हमारे पास 2 पेंटिंग रिसोर्स उपलब्ध हैं, क्या मैं इन्हें इस काम के लिए असाइन कर दूँ? " ++
  (lit "कृपया जवाब में सिर्फ " ++ dquote ++ lit "कर दो" ++ dquote ++ lit " या "
   ++ dquote ++ lit "मत करो" ++ dquote ++ lit " बोलें।").

Definition replyOnly (r : option jsstring) : ProjectConversationResult :=
  {| replyText := r; savePayload := None |}.

Definition payloadOf (s : ConversationState) (assign : bool)
  : ProjectConversationSavePayload :=
  {| save_work_location := ans_work_location (answers s);
     save_rooms_count := ans_rooms_count (answers s);
     assign_resources := assign |}.

(** One call of [handleProjectConversation]: the store before the call, the
    chat id and the raw text give the store after the call and the result
    the promise resolves to. *)
Definition handleProjectConversation (store : Store) (chatId : Z)
           (rawText : option jsstring) : Store * ProjectConversationResult :=
  let text := trim (default [] rawText) in
  match text with
  | [] => (store, replyOnly None)
  | _ =>
    if streq text (lit "/project") then
      (<[chatId := initialState]> store,
       replyOnly (snd <$> PROJECT_FLOW !! 0%nat))
    else
      match store !! chatId with
      | None => (store, replyOnly None)
      | Some state =>
        if waitingForAssignConfirm state then
          if isYes text then
            (delete chatId store,
             {| replyText := Some assignedReply;
                savePayload := Some (payloadOf state true) |})
          else if isNo text then
            (delete chatId store,
             {| replyText := Some notAssignedReply;
                savePayload := Some (payloadOf state false) |})
          else (store, replyOnly (Some repromptReply))
        else
          match PROJECT_FLOW !! step state with
          | None => (delete chatId store, replyOnly None)
          | Some currentQuestion =>
            let answers' := setAnswer (answers state) (fst currentQuestion) text in
            let step' := S (step state) in
            if (step' <? length PROJECT_FLOW)%nat then
              (<[chatId := {| step := step'; answers := answers';
                              waitingForAssignConfirm :=
                                waitingForAssignConfirm state |}]> store,
               replyOnly (snd <$> PROJECT_FLOW !! step'))
            else
              let rooms :=
                if truthy (ans_rooms_count answers')
                then default [] (ans_rooms_count answers')
                else lit "कमरे" in
              (<[chatId := {| step := step'; answers := answers';
                              waitingForAssignConfirm := true |}]> store,
               replyOnly (Some (assignQuestion rooms)))
          end
      end
  end.

(** The outcome of the confirmation gate: the yes branch is tested first. *)
Definition resolveConfirmation (text : jsstring) : Confirmation :=
  if isYes (trim text) then YES
  else if isNo (trim text) then NO
  else AMBIGUOUS.

End ProjectConversation.

(** ** [src/app/api/lead/intent/route.ts]: the local intent heuristics *)

Module IntentRoute.
Import JS LeadIntent.

Definition greetings : list jsstring :=
  [ lit "hi"; lit "hello"; lit "hey"; lit "namaste"; lit "namaskar";
    lit "good morning"; lit "good evening"; lit "good afternoon";
    lit "gm"; lit "gn"; lit "good night"; lit "ram ram";
    lit "jai shree krishna" ].

Definition shortNonLead : list jsstring :=
  [ lit "ok"; lit "okay"; lit "thanks"; lit "thank you"; lit "bye"; lit "tc" ].

Definition detectLocalIntent (text : jsstring) : option LeadIntentResult :=
  let normalized := toLowerCase (trim text) in
  match normalized with
  | [] => None
  | _ =>
    if existsb (fun g => streq normalized g
                         || startsWith normalized (g ++ lit " ")) greetings
    then Some {| intent := GREETING; lead_hint := None; topic := None |}
    else if (length normalized <=? 20)%nat
            && existsb (fun w => streq normalized w
                                 || startsWith normalized (w ++ lit " "))
                       shortNonLead
    then Some {| intent := OTHER; lead_hint := None; topic := None |}
    else None
  end.

(** The JSON body of the response, with its HTTP status. *)
Inductive LeadIntentResponse :=
| IntentSuccess (i : LeadIntentResult)
| IntentFailure (error : jsstring).

(** [POST]: [bodyText] is the [text] field of the request body, when there
    is one; [detectLeadIntent], the call to the language model, is a
    parameter, [None] standing for a call that throws. *)
Definition POST (detectLeadIntent : jsstring -> option LeadIntentResult)
           (bodyText : option jsstring) : LeadIntentResponse * N :=
  let text := trim <$> bodyText in
  if negb (truthy text) then
    (IntentFailure (lit "Send JSON with non-empty " ++ [0x22] ++ lit "text"
                    ++ [0x22] ++ lit " field."), 400)
  else
    match detectLocalIntent (default [] text) with
    | Some localIntent => (IntentSuccess localIntent, 200)
    | None =>
      match detectLeadIntent (default [] text) with
      | Some i => (IntentSuccess i, 200)
      | None => (IntentFailure (lit "Could not detect intent for this message."), 500)
      end
    end.

End IntentRoute.

(** ** [src/app/page.tsx]: the orchestrator call of the test page *)

Module LeadTestPage.
Import JS LeadIntent LeadOrchestrator.

(** The state the page starts with: [{ leadStatus: 'NEW' }]. *)
Definition initialState : ConversationState :=
  {| leadStatus := LS_NEW; lastIntent := None; leadId := None |}.

Definition needsAnalyze (i : option LeadIntentResult) : bool :=
  match i with
  | Some r =>
    intent_eqb (LeadIntent.intent r) NEW_LEAD
    || intent_eqb (LeadIntent.intent r) GENERATE_QUOTE_OPTIONS
    || intent_eqb (LeadIntent.intent r) UPDATE_EXISTING_LEAD
  | None => false
  end.

(** The part of [handleSubmit] between the two fetches and [setOrchestratorState]:
    [intentJson] is the body the intent endpoint answered with, [analyzeJson]
    the body the analyze endpoint answers with when it is called. *)
Definition orchestrate (text : jsstring) (orchestratorState : ConversationState)
           (intentJson : IntentRoute.LeadIntentResponse)
           (analyzeJson : LeadAnalyzeLikeResponse) : OrchestratorOutput :=
  let i :=
    match intentJson with
    | IntentRoute.IntentSuccess r => Some r
    | IntentRoute.IntentFailure _ => None
    end in
  let json :=
    if needsAnalyze i then analyzeJson
    else {| success := true; data := None; error := None |} in
  runLeadOrchestrator
    {| text := text; state := orchestratorState; analysis := json;
       intent := i; measurements := None |}.

(** A conversation on the page: each turn stores the returned state. *)
Fixpoint conversation (s : ConversationState)
         (turns : list (jsstring * IntentRoute.LeadIntentResponse
                        * LeadAnalyzeLikeResponse)) : ConversationState :=
  match turns with
  | [] => s
  | (t, ij, aj) :: rest => conversation (newState (orchestrate t s ij aj)) rest
  end.

End LeadTestPage.

(** ** [src/lib/quoteGenerator.ts]: the sample quote generator *)

Module QuoteGenerator.
Import JS LeadOrchestrator.

Inductive Tier := basic | standard | premium.

Record QuoteOption := {
  tier : Tier;
  price : Z;
  description : jsstring;
  timeline : jsstring;
  advance_percentage : number;
  includes : list jsstring
}.

(** The counts and percentages are whole numbers, as [parseInt] gives
    them to the orchestrator. *)
Record Requirements := {
  options : option number;
  req_timeline : option jsstring;
  advance : option number;
  labour_and_material : option bool
}.

Record QuoteRequest := {
  leadId : jsstring;
  jobType : option jsstring;
  location : option jsstring;
  requirements : option Requirements
}.

Record QuoteResponse := {
  success : bool;
  quoteOptions : option (list QuoteOption);
  error : option jsstring
}.

(** [x || d] on an optional number: [undefined], [0] and [NaN] give [d]. *)
Definition numberOr (x : option number) (d : number) : number :=
  if numTruthy x then default d x else d.

(** [n >= k] on numbers; a comparison with [NaN] is false. *)
Definition geN (n : number) (k : Z) : bool :=
  match n with
  | Num z => (k <=? z)%Z
  | NaN => false
  end.

Definition generateQuoteOptions (request : QuoteRequest) : QuoteResponse :=
  let numOptions := numberOr (requirements request ≫= options) (Num 3) in
  let timeline :=
    if truthy (requirements request ≫= req_timeline)
    then default [] (requirements request ≫= req_timeline)
    else lit "5 days" in
  let advance := numberOr (requirements request ≫= advance) (Num 30) in
  let opts : list QuoteOption := [] in
  let opts :=
    if geN numOptions 1 then
      opts ++ [{| tier := basic; price := 50000;
                  description := lit "Basic painting with standard quality paint, single coat";
                  timeline := timeline; advance_percentage := advance;
                  includes := [lit "Labour"; lit "Material (standard paint)";
                               lit "Basic preparation"] |}]
    else opts in
  let opts :=
    if geN numOptions 2 then
      opts ++ [{| tier := standard; price := 75000;
                  description := lit "Standard painting with premium quality paint, double coat";
                  timeline := timeline; advance_percentage := advance;
                  includes := [lit "Labour"; lit "Material (premium paint)";
                               lit "Full preparation"; lit "Primer"] |}]
    else opts in
  let opts :=
    if geN numOptions 3 then
      opts ++ [{| tier := premium; price := 100000;
                  description := lit "Premium painting with luxury paint, double coat, putty work";
                  timeline := timeline; advance_percentage := advance;
                  includes := [lit "Labour"; lit "Material (luxury paint)";
                               lit "Full preparation"; lit "Putty work";
                               lit "Primer"; lit "Damp proofing"] |}]
    else opts in
  {| success := true; quoteOptions := Some opts; error := None |}.

End QuoteGenerator.

(** ** [src/lib/telegramVoice.ts] and the Telegram webhook route *)

Module TelegramWebhook.
Import JS.

(** The text [processVoiceMessage] returns, from the results of its four
    calls: the file path, whether the download gave a buffer, the S3 URL
    and the transcript. *)
Definition processVoiceMessage (filePath : option jsstring) (downloaded : bool)
           (s3Url transcript : option jsstring) : jsstring :=
  if negb (truthy filePath) then lit "[Voice message – getFile failed]"
  else if negb downloaded then lit "[Voice message – download failed]"
  else if truthy s3Url then
    if truthy transcript
    then default [] transcript ++ [0x0A] ++ lit "Audio: " ++ default [] s3Url
    else lit "[Transcription unavailable]" ++ [0x0A] ++ lit "Audio: "
         ++ default [] s3Url
  else if truthy transcript
  then default [] transcript ++ [0x0A] ++ lit "[Audio: S3 upload failed]"
  else lit "[Voice message – S3 upload failed]".

(** [s.split(sep)[0]]: the part of [s] before the first [sep], all of [s]
    when there is none ([sep] is not empty here). *)
Fixpoint beforeFirst (sep s : jsstring) : jsstring :=
  if startsWith s sep then []
  else match s with
       | [] => []
       | c :: s' => c :: beforeFirst sep s'
       end.

Definition audioMark : jsstring := [0x0A] ++ lit "Audio:".

(** [rawTextForConversation] of the [POST] handler *)
Definition rawTextForConversation (messageText : jsstring) : jsstring :=
  if includes messageText audioMark
  then trim (beforeFirst audioMark messageText)
  else messageText.

(** The conversation step of the [POST] handler: [text] is
    [update.message?.text], [voiceText] what [processVoiceMessage] returned
    when the update has a voice message. *)
Definition conversationStep (store : gmap Z ProjectConversation.ConversationState)
           (chatId : option Z) (text : option jsstring)
           (voiceText : option jsstring)
  : gmap Z ProjectConversation.ConversationState
    * option ProjectConversation.ProjectConversationResult :=
  let messageText := default (default [] text) voiceText in
  match chatId with
  | Some c =>
    if (c =? 0)%Z then (store, None)
    else
      let '(store', r) :=
        ProjectConversation.handleProjectConversation
          store c (Some (rawTextForConversation messageText)) in
      (store', Some r)
  | None => (store, None)
  end.

(** [finalReplyText] of the [POST] handler *)
Definition finalReplyText (replyText : option jsstring) (hasVoice : bool)
           (messageText : jsstring) : option jsstring :=
  match replyText with
  | Some r => Some r
  | None =>
    if hasVoice then Some (lit "Voice message received and stored.")
    else match messageText with
         | _ :: _ => Some (lit "Bot connected successfully.")
         | [] => None
         end
  end.

(** What the [POST] handler sends to the chat, with the store after the
    update: [finalReplyText] when the chat id is truthy, nothing otherwise. *)
Definition POST (store : gmap Z ProjectConversation.ConversationState)
           (chatId : option Z) (text : option jsstring)
           (voiceText : option jsstring)
  : gmap Z ProjectConversation.ConversationState * option jsstring :=
  let messageText := default (default [] text) voiceText in
  match conversationStep store chatId text voiceText with
  | (store', Some r) =>
    let final :=
      finalReplyText (ProjectConversation.replyText r)
                     (bool_decide (is_Some voiceText)) messageText in
    (store', if truthy final then final else None)
  | (store', None) => (store', None)
  end.

End TelegramWebhook.

(** ** The analyze endpoint, [src/app/api/lead/analyze/route.ts] *)

Module LeadAnalyzeRoute.
Import JS Regex LeadAnalysis LeadOrchestrator.

(** A character class, written as the alternation of its code units. *)
Fixpoint oneOf (c : N) (cs : list N) : regex :=
  match cs with
  | [] => Lit false [c]
  | c' :: cs' => Alt (Lit false [c]) (oneOf c' cs')
  end.

(** [r{n}] *)
Fixpoint repeatRe (n : nat) (r : regex) : regex :=
  match n with
  | O => Lit false []
  | S n' => Seq r (repeatRe n' r)
  end.

(** [\d] *)
Definition digitRe : regex :=
  oneOf 0x30 [0x31; 0x32; 0x33; 0x34; 0x35; 0x36; 0x37; 0x38; 0x39].

(** The code units of [\s]. *)
Definition whiteSpaceUnits : list N :=
  [ 0x09; 0x0A; 0x0B; 0x0C; 0x0D; 0x20; 0xA0; 0x1680;
    0x2000; 0x2001; 0x2002; 0x2003; 0x2004; 0x2005; 0x2006; 0x2007; 0x2008;
    0x2009; 0x200A; 0x2028; 0x2029; 0x202F; 0x205F; 0x3000; 0xFEFF ].

(** [[6-9]\d{9}] *)
Definition mobileRe : regex :=
  Seq (oneOf 0x36 [0x37; 0x38; 0x39]) (repeatRe 9 digitRe).

(** [/(\+91[-\s]?)?[6-9]\d{9}/]; the group of the model is the whole
    match, the only part of the result that [detectPhone] reads. *)
Definition phoneRe : regex :=
  Group (Seq (Opt (Seq (Lit false (lit "+91")) (Opt (oneOf 0x2D whiteSpaceUnits))))
             mobileRe).

Definition detectPhone (text : jsstring) : option jsstring :=
  match exec phoneRe text with
  | None => None
  | Some m =>
    let digits := List.filter isDigit (orEmpty m) in
    if (length digits =? 10)%nat then Some (lit "+91" ++ digits)
    else if (length digits =? 12)%nat && startsWith digits (lit "91")
         then Some (lit "+" ++ digits)
         else None
  end.

(** The body [POST] answers with, from the outcome of [analyzeLead]:
    [inl analysis] when it returns, [inr message] when the request is
    refused or the call throws an error with this message. *)
Definition respond (outcome : LeadAnalysis + jsstring)
  : LeadAnalyzeLikeResponse :=
  match outcome with
  | inl analysis => {| success := true; data := Some analysis; error := None |}
  | inr message => {| success := false; data := None; error := Some message |}
  end.

End LeadAnalyzeRoute.

(** ** The earlier version of the turn orchestrator and of the endpoints it
    was served by.  In this version the analyze endpoint works out the
    missing fields, the questions and the recap, and the orchestrator reads
    them from the response. *)

Module EarlierLeadIntent.
Import JS.

Inductive HighLevelIntent :=
| GREETING
| NEW_LEAD
| ESTIMATION_FOR_EXISTING_LEAD
| UPDATE_EXISTING_LEAD
| LOG_MEASUREMENT
| GENERAL_QUESTION
| OTHER.

Record LeadIntentResult := {
  intent : HighLevelIntent;
  lead_hint : option jsstring;
  topic : option jsstring
}.

Definition intent_eqb (a b : HighLevelIntent) : bool :=
  match a, b with
  | GREETING, GREETING
  | NEW_LEAD, NEW_LEAD
  | ESTIMATION_FOR_EXISTING_LEAD, ESTIMATION_FOR_EXISTING_LEAD
  | UPDATE_EXISTING_LEAD, UPDATE_EXISTING_LEAD
  | LOG_MEASUREMENT, LOG_MEASUREMENT
  | GENERAL_QUESTION, GENERAL_QUESTION
  | OTHER, OTHER => true
  | _, _ => false
  end.

End EarlierLeadIntent.

Module EarlierLeadOrchestrator.
Import JS LeadAnalysis EarlierLeadIntent.
Import LeadOrchestrator (LeadStatus, ConversationIntent, ConversationState).

(** The state types, the three detectors and the reply texts other than
    the which-project question are, word for word, those of the later
    version; the definitions of [LeadOrchestrator] are used for them. *)

Record LeadAnalyzeLikeResponse := {
  success : bool;
  data : option LeadAnalysis;
  missing : option (list (jsstring * bool));
  followup_questions : option (list jsstring);
  confirmation : option jsstring;
  error : option jsstring
}.

Record OrchestratorInput := {
  text : jsstring;
  state : ConversationState;
  analysis : LeadAnalyzeLikeResponse;
  intent : option LeadIntentResult
}.

Record OrchestratorOutput := {
  reply : jsstring;
  newState : ConversationState
}.

Definition whichProjectReply (i : LeadIntentResult) : jsstring :=
  let hintPart :=
    if truthy (lead_hint i)
    then lit "Aap shayad " ++ LeadOrchestrator.dquote
         ++ LeadOrchestrator.orEmpty (lead_hint i) ++ LeadOrchestrator.dquote
         ++ lit " wale kaam ki baat kar rahe ho. "
    else [] in
  let actionLabel :=
    if intent_eqb (EarlierLeadIntent.intent i) LOG_MEASUREMENT
    then lit "measurement" else lit "estimate / update" in
  hintPart ++
  (lit "Ye " ++ actionLabel ++ lit " kisi purane project ke liye lag raha hai. ") ++
  lit "Please batao kis project ke liye – customer ka naam, area (HSR / Whitefield / JP Nagar) " ++
  lit "ya approximate date (jaise kal ka site visit) taaki main sahi project choose kar saku.".

(** 0) the classified intent, when there is one *)
Definition intentRule (input : OrchestratorInput) : option OrchestratorOutput :=
  match intent input with
  | None => None
  | Some i =>
    if intent_eqb (EarlierLeadIntent.intent i) GREETING then
      Some {| reply := LeadOrchestrator.greetingReply;
              newState := LeadOrchestrator.withLastIntent
                            (state input) LeadOrchestrator.CI_GREETING |}
    else if intent_eqb (EarlierLeadIntent.intent i) GENERAL_QUESTION then
      Some {| reply := LeadOrchestrator.generalQuestionReply;
              newState := LeadOrchestrator.withLastIntent
                            (state input) LeadOrchestrator.CI_GREETING |}
    else
      let needsLeadContext :=
        intent_eqb (EarlierLeadIntent.intent i) ESTIMATION_FOR_EXISTING_LEAD
        || intent_eqb (EarlierLeadIntent.intent i) UPDATE_EXISTING_LEAD
        || intent_eqb (EarlierLeadIntent.intent i) LOG_MEASUREMENT in
      if needsLeadContext
         && negb (truthy (LeadOrchestrator.leadId (state input))) then
        Some {| reply := whichProjectReply i;
                newState := LeadOrchestrator.withLastIntent
                              (state input) LeadOrchestrator.CI_NEW |}
      else if intent_eqb (EarlierLeadIntent.intent i) LOG_MEASUREMENT
              && truthy (LeadOrchestrator.leadId (state input)) then
        Some {| reply := LeadOrchestrator.measurementNotedReply;
                newState := LeadOrchestrator.withLastIntent
                              (state input) LeadOrchestrator.CI_NEW |}
      else None
  end.

(** 1) the greeting heuristic *)
Definition greetingRule (input : OrchestratorInput) : option OrchestratorOutput :=
  if LeadOrchestrator.detectGreeting (trim (text input))
  then Some {| reply := LeadOrchestrator.greetingReply;
               newState := LeadOrchestrator.withLastIntent
                             (state input) LeadOrchestrator.CI_GREETING |}
  else None.

(** 2) yes or no after a confirmation message *)
Definition confirmationRule (input : OrchestratorInput)
  : option OrchestratorOutput :=
  let s := state input in
  if LeadOrchestrator.lastIntentIs s LeadOrchestrator.CI_LEAD_CAPTURED
     && LeadOrchestrator.status_eqb (LeadOrchestrator.leadStatus s)
                                    LeadOrchestrator.LS_NEW then
    if LeadOrchestrator.detectYes (trim (text input)) then
      Some {| reply := LeadOrchestrator.siteVisitReply;
              newState :=
                {| LeadOrchestrator.leadStatus := LeadOrchestrator.LS_LEAD_CAPTURED;
                   LeadOrchestrator.lastIntent :=
                     Some LeadOrchestrator.CI_SCHEDULE_SITE_VISIT;
                   LeadOrchestrator.leadId := LeadOrchestrator.leadId s |} |}
    else if LeadOrchestrator.detectNo (trim (text input)) then
      Some {| reply := LeadOrchestrator.modificationReply;
              newState := LeadOrchestrator.withLastIntent
                            s LeadOrchestrator.CI_LEAD_MODIFICATION |}
    else None
  else None.

(** 3) a failed analysis *)
Definition analysisFailedRule (input : OrchestratorInput)
  : option OrchestratorOutput :=
  if negb (success (analysis input)) then
    Some {| reply := match error (analysis input) with
                     | Some e => e
                     | None => LeadOrchestrator.analysisFailedReply
                     end;
            newState := state input |}
  else None.

(** 4) the missing fields and the questions of the analyzer *)
Definition missingRule (input : OrchestratorInput) : option OrchestratorOutput :=
  let missingKeys :=
    match missing (analysis input) with
    | Some m => List.map fst m
    | None => []
    end in
  match missingKeys with
  | _ :: _ =>
    let questions :=
      match followup_questions (analysis input) with
      | Some (q :: qs) => join [0x0A] (q :: qs)
      | _ => LeadOrchestrator.moreDetailReply
      end in
    Some {| reply := questions;
            newState :=
              {| LeadOrchestrator.leadStatus := LeadOrchestrator.LS_NEW;
                 LeadOrchestrator.lastIntent := Some LeadOrchestrator.CI_NEW;
                 LeadOrchestrator.leadId :=
                   LeadOrchestrator.leadId (state input) |} |}
  | [] => None
  end.

(** 5) the recap of the analyzer, which asks for a yes or no *)
Definition recapRule (input : OrchestratorInput) : option OrchestratorOutput :=
  if truthy (confirmation (analysis input))
     && LeadOrchestrator.status_eqb
          (LeadOrchestrator.leadStatus (state input)) LeadOrchestrator.LS_NEW
  then Some {| reply := LeadOrchestrator.orEmpty (confirmation (analysis input));
               newState := LeadOrchestrator.withLastIntent
                             (state input) LeadOrchestrator.CI_LEAD_CAPTURED |}
  else None.

(** 6) and 7) *)
Definition closingRules (input : OrchestratorInput) : OrchestratorOutput :=
  let s := state input in
  if LeadOrchestrator.lastIntentIs s LeadOrchestrator.CI_SCHEDULE_SITE_VISIT
     && LeadOrchestrator.status_eqb (LeadOrchestrator.leadStatus s)
                                    LeadOrchestrator.LS_LEAD_CAPTURED
  then {| reply := LeadOrchestrator.visitDetailsReply; newState := s |}
  else {| reply := LeadOrchestrator.fallbackReply; newState := s |}.

Definition runLeadOrchestrator (input : OrchestratorInput) : OrchestratorOutput :=
  LeadOrchestrator.orElse (intentRule input)
  (LeadOrchestrator.orElse (greetingRule input)
  (LeadOrchestrator.orElse (confirmationRule input)
  (LeadOrchestrator.orElse (analysisFailedRule input)
  (LeadOrchestrator.orElse (missingRule input)
  (LeadOrchestrator.orElse (recapRule input)
  (closingRules input)))))).

End EarlierLeadOrchestrator.

Module EarlierLeadAnalyzeRoute.
Import JS LeadAnalysis EarlierLeadOrchestrator.

(** The body [POST] answers with, from the outcome of [analyzeLead]:
    [inl analysis] when it returns, [inr message] when the request is
    refused or the call throws an error with this message. *)
Definition respond (outcome : LeadAnalysis + jsstring)
  : LeadAnalyzeLikeResponse :=
  match outcome with
  | inr message =>
    {| success := false; data := None; missing := None;
       followup_questions := None; confirmation := None;
       error := Some message |}
  | inl analysis =>
    let acc : list (jsstring * bool) * list jsstring := ([], []) in
    let acc := LeadOrchestrator.flag
                 (negb (truthy (LeadAnalysis.name (customer analysis))))
                 (lit "customer_name") LeadOrchestrator.q_name acc in
    let acc := LeadOrchestrator.flag
                 (negb (truthy (phone (customer analysis))))
                 (lit "customer_phone") LeadOrchestrator.q_phone acc in
    let acc := LeadOrchestrator.flag
                 (negb (truthy (location_text analysis)))
                 (lit "location_text") LeadOrchestrator.q_location acc in
    let acc := LeadOrchestrator.flag
                 (match job_type analysis with job_unknown => true | _ => false end)
                 (lit "job_type") LeadOrchestrator.q_job_type acc in
    let acc := LeadOrchestrator.flag
                 (match urgency analysis with urgency_unknown => true | _ => false end)
                 (lit "urgency") LeadOrchestrator.q_urgency acc in
    let hasMissing := match fst acc with [] => false | _ :: _ => true end in
    let confirmation :=
      if negb hasMissing then
        let summaryParts : list jsstring := [] in
        let summaryParts :=
          if truthy (LeadAnalysis.name (customer analysis))
          then summaryParts
               ++ [lit "Customer: "
                   ++ LeadOrchestrator.orEmpty (LeadAnalysis.name (customer analysis))]
          else summaryParts in
        let summaryParts :=
          if truthy (location_text analysis)
          then summaryParts
               ++ [lit "Location: "
                   ++ LeadOrchestrator.orEmpty (location_text analysis)]
          else summaryParts in
        let summaryParts :=
          match job_type analysis with
          | job_unknown => summaryParts
          | j => summaryParts ++ [lit "Job: " ++ jobTypeString j]
          end in
        let summaryParts :=
          match urgency analysis with
          | urgency_unknown => summaryParts
          | u => summaryParts ++ [lit "Urgency: " ++ urgencyString u]
          end in
        let recap :=
          match summaryParts with
          | [] => []
          | _ => lit " Quick recap – " ++ join (lit ", ") summaryParts ++ lit "."
          end in
        Some (lit "Mere hisaab se painting ka kaam samajh aa gaya hai aur saari important details mil gayi hain."
              ++ recap ++ lit " Kya yeh sahi hai?")
      else None in
    {| success := true;
       data := Some analysis;
       missing := if hasMissing then Some (fst acc) else None;
       followup_questions :=
         match snd acc with [] => None | _ :: _ => Some (snd acc) end;
       confirmation := confirmation;
       error := None |}
  end.

End EarlierLeadAnalyzeRoute.

(** ** The sheet recorder: [columnLetter], as it stands in
    [src/lib/sheetRecording.ts] and in the two routes that write to the
    sheet *)

Module SheetRecording.
Import JS.

(** The loop of [columnLetter],
    [while (n >= 0) { letter = String.fromCharCode((n % 26) + 65) + letter;
    n = Math.floor(n / 26) - 1; }], on an integer [n]; [fuel] bounds the
    number of iterations, and [None] is a loop that has not ended within
    it. *)
Fixpoint columnLetterLoop (fuel : nat) (n : Z) (letter : jsstring)
  : option jsstring :=
  if (0 <=? n)%Z then
    match fuel with
    | O => None
    | S fuel' =>
      columnLetterLoop fuel' (n / 26 - 1)%Z
                       (Z.to_N (Z.rem n 26 + 65) :: letter)
    end
  else Some letter.

Definition columnLetter (index : Z) : option jsstring :=
  columnLetterLoop (S (Z.to_nat index)) index [].

End SheetRecording.

(** ** Vocabulary of the statements *)

Import JS Regex LeadAnalysis LeadIntent LeadOrchestrator.

Arguments lit : simpl never.

(** Split the conjunctions of a goal, and nothing else. *)
Ltac conjuncts := repeat match goal with |- _ /\ _ => split end.

(** The code units on which [String.prototype.toLowerCase] acts as
    [lowerUnit] does: those of ASCII, where only A to Z have a lower case,
    and those of the Indic blocks U+0900 to U+0DFF, whose scripts have no
    case.  On a text of such units the lower-casing of the embedding is
    that of JavaScript, unit for unit. *)
Definition caseExact (c : N) : bool :=
  (c <? 0x80) || ((0x900 <=? c) && (c <=? 0xDFF)).

Definition plainCased (t : jsstring) : Prop := forallb caseExact t = true.

(** [ask c q]: the question [q] when the check [c] fires, nothing else. *)
Definition ask {A} (c : bool) (q : A) : list A := if c then [q] else [].

Definition absent (o : option jsstring) : bool := negb (truthy o).

Definition jobUnknown (a : LeadAnalysis) : bool :=
  match job_type a with job_unknown => true | _ => false end.

Definition urgencyUnknown (a : LeadAnalysis) : bool :=
  match urgency a with urgency_unknown => true | _ => false end.

(** Position of a dependency type in the order of the gate's messages. *)
Definition dependencyRank (t : DependencyType) : nat :=
  match t with
  | PROJECT_REQUIRED => 0
  | MEASUREMENT_REQUIRED => 1
  | SQFT_REQUIRED => 2
  | BHK_REQUIRED => 3
  | PAINTABLE_AREA_REQUIRED => 4
  end.

(** [{ bhk: 2 }] and [{ sqft: 800 }] *)
Definition bhkOnly : MeasurementData :=
  {| bhk := Some (Num 2); sqft := None; paintable_area := None;
     ceilings := None; coats := None; putty_level := None; dampness := None;
     brand_preference := None |}.

Definition sqftOnly : MeasurementData :=
  {| bhk := None; sqft := Some (Num 800); paintable_area := None;
     ceilings := None; coats := None; putty_level := None; dampness := None;
     brand_preference := None |}.

(** A conversation bound to the project ["x"]. *)
Definition boundTo (x : jsstring) (st : LeadStatus)
           (li : option ConversationIntent) : ConversationState :=
  {| leadStatus := st; lastIntent := li; leadId := Some x |}.

(** An analysis record with every field filled in, and the same record with
    the customer name as the empty string. *)
Definition fullAnalysis : LeadAnalysis :=
  {| contractor_id := None;
     raw_utterance := lit "Rahil ka HSR mein 2BHK repaint karna hai, kal se";
     customer := {| LeadAnalysis.name := Some (lit "Rahil");
                    phone := Some (lit "+919800000000") |};
     location_text := Some (lit "HSR");
     job_type := painting;
     scope_hint := {| interior := Some true; exterior := None |};
     urgency := tomorrow;
     preferred_language := mixed |}.

Definition emptyNameAnalysis : LeadAnalysis :=
  {| contractor_id := None;
     raw_utterance := lit "Rahil ka HSR mein 2BHK repaint karna hai, kal se";
     customer := {| LeadAnalysis.name := Some []; phone := Some (lit "+919800000000") |};
     location_text := Some (lit "HSR");
     job_type := painting;
     scope_hint := {| interior := Some true; exterior := None |};
     urgency := tomorrow;
     preferred_language := mixed |}.

Definition noNameAnalysis : LeadAnalysis :=
  {| contractor_id := None;
     raw_utterance := lit "ek aur kaam hai Whitefield mein";
     customer := {| LeadAnalysis.name := None; phone := None |};
     location_text := Some (lit "Whitefield");
     job_type := painting;
     scope_hint := {| interior := None; exterior := None |};
     urgency := urgency_unknown;
     preferred_language := mixed |}.

(** A turn on a captured lead whose new message lacks the customer name. *)
Definition capturedThenIncomplete : OrchestratorInput :=
  {| text := lit "ek aur kaam hai Whitefield mein";
     state := {| leadStatus := LS_LEAD_CAPTURED;
                 lastIntent := Some CI_SCHEDULE_SITE_VISIT;
                 leadId := None |};
     analysis := {| success := true; data := Some noNameAnalysis;
                    error := None |};
     intent := None;
     measurements := None |}.

(** An answer in the pending-confirmation state. *)
Definition pendingAnswer (t : jsstring) : OrchestratorInput :=
  {| text := t;
     state := {| leadStatus := LS_NEW; lastIntent := Some CI_LEAD_CAPTURED;
                 leadId := None |};
     analysis := {| success := true; data := None; error := None |};
     intent := None;
     measurements := None |}.

(** A store in which chat 7 has answered the first question. *)
Definition chatInProgress : gmap Z ProjectConversation.ConversationState :=
  {[ 7%Z := {| ProjectConversation.step := 1;
               ProjectConversation.answers :=
                 {| ProjectConversation.ans_work_location := Some (lit "2BHK flat");
                    ProjectConversation.ans_rooms_count := None |};
               ProjectConversation.waitingForAssignConfirm := false |} ]}.

(** The intent of a quote request. *)
Definition quoteIntent : LeadIntentResult :=
  {| LeadIntent.intent := GENERATE_QUOTE_OPTIONS; lead_hint := None;
     topic := None |}.

(** A complete lead description that opens with a greeting word. *)
Definition greetingThenLead : OrchestratorInput :=
  {| text := lit "hello bhai, Rahil ka HSR mein 2BHK repaint karna hai, kal se";
     state := {| leadStatus := LS_NEW; lastIntent := None; leadId := None |};
     analysis := {| success := true; data := Some fullAnalysis; error := None |};
     intent := None;
     measurements := None |}.

(** Block 0 falls through whatever the state: there is no intent, or it is
    one that no branch of the block handles. *)
Definition noShortCircuit (i : option LeadIntentResult) : Prop :=
  match i with
  | None => True
  | Some r => LeadIntent.intent r = NEW_LEAD \/ LeadIntent.intent r = OTHER
  end.

(** The text has a part [digits, white space, "option"]. *)
Definition mentionsOptionCount (s : jsstring) : Prop :=
  exists pre ds ws post,
    s = pre ++ ds ++ ws ++ lit "option" ++ post
    /\ ds <> []
    /\ Forall (fun c => isDigit c = true) ds
    /\ Forall (fun c => isWhiteSpace c = true) ws.

(** *** Vocabulary of the quote parameter extraction *)

(** No decimal digit in the text. *)
Definition noDigit (s : jsstring) : Prop := Forall (fun c => isDigit c = false) s.

(** A run of white space, as [\s*] reads it; it may be empty. *)
Definition blank (s : jsstring) : Prop := Forall (fun c => isWhiteSpace c = true) s.

(** A number as [\d+] reads it: one decimal digit or more. *)
Definition digits (ds : jsstring) : Prop :=
  ds <> [] /\ Forall (fun c => isDigit c = true) ds.

(** The units of time of the duration pattern. *)
Definition unitWords : list jsstring := [lit "day"; lit "week"; lit "month"].

(** The optional [s] after a unit: taken when the text goes on with it. *)
Definition plural (post : jsstring) : jsstring :=
  match post with
  | c :: _ => if c =? 0x73 then [0x73] else []
  | [] => []
  end.

(** The code units A to Z. *)
Definition capital (c : N) : bool := (0x41 <=? c) && (c <=? 0x5A).

(** The two ways of writing the advance keyword,
    [(?:advance|advance\s*payment)]. *)
Definition advanceWord (aw : jsstring) : Prop :=
  aw = lit "advance"
  \/ exists ws0, blank ws0 /\ aw = lit "advance" ++ ws0 ++ lit "payment".

(** The head of a text is outside a class. *)
Definition headOutside (cls : N -> bool) (s : jsstring) : Prop :=
  match s with
  | c :: _ => cls c = false
  | [] => True
  end.

(** [w], placed after [pre], has no occurrence that begins inside
    [pre]. *)
Definition beginsFirst (pre w : jsstring) : Prop :=
  includes (pre ++ removelast w) w = false.

(** The part [\s*(\d+)\s*%] that follows the keyword in [advanceBeforeRe]. *)
Definition percentTailRe : regex :=
  Seq (Star isWhiteSpace)
      (Seq (Group (Plus isDigit))
           (Seq (Star isWhiteSpace) (Lit true (lit "%")))).

(** The cleaned, lower-cased form both flows compare with their word lists. *)
Definition normalizedAnswer (text : jsstring) : jsstring :=
  toLowerCase (trim (stripEdges (trim (trim text)))).

(** *** Vocabulary of the further properties *)

(** A state the step flow can be in: the step is within the questions, and
    the flow waits for the confirmation exactly when all are answered. *)
Definition flowStateOk (st : ProjectConversation.ConversationState) : Prop :=
  (ProjectConversation.step st <= length ProjectConversation.PROJECT_FLOW)%nat
  /\ (ProjectConversation.waitingForAssignConfirm st = true
      <-> ProjectConversation.step st = length ProjectConversation.PROJECT_FLOW).

Definition storeOk (store : gmap Z ProjectConversation.ConversationState) : Prop :=
  forall c st, store !! c = Some st -> flowStateOk st.

(** A message that is neither empty nor the start command. *)
Definition plainText (t : jsstring) : Prop :=
  trim t <> [] /\ trim t <> lit "/project".

(** A plain message that the confirmation gate takes for neither answer. *)
Definition unrecognised (t : jsstring) : Prop :=
  plainText t
  /\ ProjectConversation.isYes (trim t) = false
  /\ ProjectConversation.isNo (trim t) = false.

(** The store after the messages [texts] of one chat, in order. *)
Fixpoint deliver (store : gmap Z ProjectConversation.ConversationState)
         (chatId : Z) (texts : list jsstring)
  : gmap Z ProjectConversation.ConversationState :=
  match texts with
  | [] => store
  | t :: rest =>
    deliver (fst (ProjectConversation.handleProjectConversation
                    store chatId (Some t))) chatId rest
  end.

(** The state of a chat that has answered both questions. *)
Definition awaiting (a1 a2 : jsstring) : ProjectConversation.ConversationState :=
  {| ProjectConversation.step := 2;
     ProjectConversation.answers :=
       {| ProjectConversation.ans_work_location := Some a1;
          ProjectConversation.ans_rooms_count := Some a2 |};
     ProjectConversation.waitingForAssignConfirm := true |}.

(** The first and the last code unit of [h] are outside the class [p]. *)
Definition solidEdges (p : N -> bool) (h : jsstring) : bool :=
  match h with
  | [] => false
  | c :: _ => negb (p c) && negb (p (List.last h 0))
  end.

(** A first message with a complete analysis, and the output of the
    analysis block on it. *)
Definition recapTurn : OrchestratorInput :=
  {| text := lit "Rahil ka HSR mein 2BHK repaint karna hai, kal se";
     state := {| leadStatus := LS_NEW; lastIntent := None; leadId := None |};
     analysis := {| success := true; data := Some fullAnalysis; error := None |};
     intent := None;
     measurements := None |}.

Definition recapOutput : OrchestratorOutput :=
  say (orEmpty (generateConfirmation fullAnalysis))
      {| leadStatus := LS_NEW; lastIntent := Some CI_LEAD_CAPTURED;
         leadId := None |}.

(** The texts [processVoiceMessage] returns in place of a transcript, as
    the step flow receives them. *)
Definition voicePlaceholders : list jsstring :=
  [ lit "[Voice message – getFile failed]";
    lit "[Voice message – download failed]";
    lit "[Transcription unavailable]";
    lit "[Voice message – S3 upload failed]" ].

(** The note that follows the transcript when the upload failed. *)
Definition uploadFailedNote : jsstring := lit "[Audio: S3 upload failed]".

(** The intent kinds that the two versions of the orchestrator share:
    every kind but the quote request of the later version and the
    estimation request of the earlier one. *)
Definition sameKind (k : HighLevelIntent)
           (k' : EarlierLeadIntent.HighLevelIntent) : bool :=
  match k, k' with
  | GREETING, EarlierLeadIntent.GREETING
  | NEW_LEAD, EarlierLeadIntent.NEW_LEAD
  | UPDATE_EXISTING_LEAD, EarlierLeadIntent.UPDATE_EXISTING_LEAD
  | LOG_MEASUREMENT, EarlierLeadIntent.LOG_MEASUREMENT
  | GENERAL_QUESTION, EarlierLeadIntent.GENERAL_QUESTION
  | OTHER, EarlierLeadIntent.OTHER => true
  | _, _ => false
  end.

(** The same classification, or none, given to the two versions. *)
Definition sameIntent (i : option LeadIntentResult)
           (i' : option EarlierLeadIntent.LeadIntentResult) : Prop :=
  match i, i' with
  | None, None => True
  | Some a, Some b =>
    sameKind (LeadIntent.intent a) (EarlierLeadIntent.intent b) = true
    /\ lead_hint a = EarlierLeadIntent.lead_hint b
  | _, _ => False
  end.

(** An update request in a conversation that is not bound to a project. *)
Definition unboundUpdate (i : option LeadIntentResult)
           (s : ConversationState) : bool :=
  match i with
  | Some a =>
    intent_eqb (LeadIntent.intent a) UPDATE_EXISTING_LEAD
    && negb (truthy (leadId s))
  | None => false
  end.

(** One turn of each version on the same message, state and outcome of the
    analyzer. *)
Definition laterTurn (t : jsstring) (s : ConversationState)
           (outcome : LeadAnalysis + jsstring) (i : option LeadIntentResult)
           (m : option MeasurementData) : OrchestratorOutput :=
  runLeadOrchestrator
    {| text := t; state := s; analysis := LeadAnalyzeRoute.respond outcome;
       intent := i; measurements := m |}.

Definition earlierTurn (t : jsstring) (s : ConversationState)
           (outcome : LeadAnalysis + jsstring)
           (i' : option EarlierLeadIntent.LeadIntentResult)
  : EarlierLeadOrchestrator.OrchestratorOutput :=
  EarlierLeadOrchestrator.runLeadOrchestrator
    {| EarlierLeadOrchestrator.text := t;
       EarlierLeadOrchestrator.state := s;
       EarlierLeadOrchestrator.analysis := EarlierLeadAnalyzeRoute.respond outcome;
       EarlierLeadOrchestrator.intent := i' |}.

(** The number a word of capital letters stands for as a column name:
    A is 1, Z is 26, AA is 27. *)
Definition columnNumber (letters : jsstring) : Z :=
  fold_left (fun acc c => acc * 26 + (Z.of_N c - 64))%Z letters 0%Z.

Definition isCapital (c : N) : Prop := (0x41 <= c <= 0x5A)%N.

(** Ten digits of which the first is 6, 7, 8 or 9. *)
Definition mobile (d : jsstring) : bool :=
  (length d =? 10)%nat && forallb isDigit d
  && match d with c :: _ => (0x36 <=? c) | [] => false end.

(** ** Literals *)

Lemma lit_devanagari : lit "हाँ" = [0x939; 0x93E; 0x901].
Proof. vm_compute. reflexivity. Qed.

Lemma lit_latin : lit "hān" = [0x68; 0x101; 0x6E].
Proof. vm_compute. reflexivity. Qed.

Lemma lit_danda : lit "कर दो।" = lit "कर दो" ++ [0x964].
Proof. vm_compute. reflexivity. Qed.

(** ** The quote dependency gate *)

Lemma quoteDependencies_cases (s : ConversationState) (m : option MeasurementData) :
  List.map type (quoteDependencies s m)
  = ask (negb (truthy (leadId s))) PROJECT_REQUIRED
    ++ (if negb (hasBasicMeasurement m) then [MEASUREMENT_REQUIRED]
        else ask (negb (numTruthy (m ≫= sqft))
                  && negb (numTruthy (m ≫= paintable_area))) SQFT_REQUIRED).
Proof.
  unfold quoteDependencies, ask.
  destruct (negb (truthy (leadId s))), (negb (hasBasicMeasurement m)),
    (negb (numTruthy (m ≫= sqft)) && negb (numTruthy (m ≫= paintable_area)));
    reflexivity.
Qed.

Lemma run_quote_intent input i :
  intent input = Some i ->
  LeadIntent.intent i = GENERATE_QUOTE_OPTIONS ->
  runLeadOrchestrator input
  = quoteBranch (text input) (state input) (analysis input)
                (measurements input).
Proof.
  intros Hi Hq. unfold runLeadOrchestrator, intentRule.
  rewrite Hi, Hq. reflexivity.
Qed.

(** C3. With no project and no measurements the gate returns exactly
    [PROJECT_REQUIRED, MEASUREMENT_REQUIRED]; with project ["x"] and
    [{bhk: 2}] exactly [SQFT_REQUIRED]; with project ["x"] and [{sqft: 800}]
    nothing; for every state and measurements the returned types are in the
    order PROJECT_REQUIRED, MEASUREMENT_REQUIRED, SQFT_REQUIRED; and a turn
    with the intent GENERATE_QUOTE_OPTIONS attaches this list to its output
    when it is not empty. *)
Theorem quote_gate_cases_and_order :
  (forall st li,
      List.map type (quoteDependencies
                  {| leadStatus := st; lastIntent := li; leadId := None |} None)
      = [PROJECT_REQUIRED; MEASUREMENT_REQUIRED])
  /\ (forall st li,
         List.map type (quoteDependencies (boundTo (lit "x") st li) (Some bhkOnly))
         = [SQFT_REQUIRED])
  /\ (forall st li,
         quoteDependencies (boundTo (lit "x") st li) (Some sqftOnly) = [])
  /\ (forall s m,
         StronglySorted (fun a b => (dependencyRank a < dependencyRank b)%nat)
                        (List.map type (quoteDependencies s m)))
  /\ (forall t s a m hint top,
         dependencies
           (runLeadOrchestrator
              {| text := t; state := s; analysis := a;
                 intent := Some {| LeadIntent.intent := GENERATE_QUOTE_OPTIONS;
                                   lead_hint := hint; topic := top |};
                 measurements := m |})
         = match quoteDependencies s m with
           | [] => None
           | ds => Some ds
           end).
Proof.
  do 3 (split; [intros; vm_compute; reflexivity|]).
  split.
  - intros s m. rewrite quoteDependencies_cases. unfold ask.
    destruct (negb (truthy (leadId s))), (negb (hasBasicMeasurement m)),
      (negb (numTruthy (m ≫= sqft)) && negb (numTruthy (m ≫= paintable_area)));
      cbn; repeat constructor.
  - intros t s a m hint top.
    match goal with
    | |- context [runLeadOrchestrator ?x] =>
      rewrite (run_quote_intent x _ eq_refl eq_refl)
    end.
    cbn [text state analysis measurements]. unfold quoteBranch.
    destruct (quoteDependencies s m); reflexivity.
Qed.

(** ** The missing-field resolver *)

Lemma in_ask {A} (c : bool) (q x : A) : In x (ask c q) <-> c = true /\ x = q.
Proof.
  destruct c; cbn; intuition (try discriminate; auto).
Qed.

Lemma questions_distinct :
  q_name <> q_phone /\ q_name <> q_location /\ q_name <> q_job_type
  /\ q_name <> q_urgency /\ q_phone <> q_location /\ q_phone <> q_job_type
  /\ q_phone <> q_urgency /\ q_location <> q_job_type
  /\ q_location <> q_urgency /\ q_job_type <> q_urgency.
Proof.
  repeat split; intro H; vm_compute in H; discriminate H.
Qed.

Lemma followups_closed_form (a : LeadAnalysis) (i : option LeadIntentResult) :
  generateFollowupQuestions a i
  = if isQuoteIntent i then ([], [])
    else (ask (absent (LeadAnalysis.name (customer a))) (lit "customer_name", true)
          ++ ask (absent (phone (customer a))) (lit "customer_phone", true)
          ++ ask (absent (location_text a)) (lit "location_text", true)
          ++ ask (jobUnknown a) (lit "job_type", true)
          ++ ask (urgencyUnknown a) (lit "urgency", true),
          ask (absent (LeadAnalysis.name (customer a))) q_name
          ++ ask (absent (phone (customer a))) q_phone
          ++ ask (absent (location_text a)) q_location
          ++ ask (jobUnknown a) q_job_type
          ++ ask (urgencyUnknown a) q_urgency).
Proof.
  unfold generateFollowupQuestions, flag, ask, absent, jobUnknown, urgencyUnknown.
  destruct (isQuoteIntent i); [reflexivity|]. cbn [negb].
  destruct (negb (truthy (LeadAnalysis.name (customer a)))),
    (negb (truthy (phone (customer a)))),
    (negb (truthy (location_text a)));
    destruct (job_type a), (urgency a); reflexivity.
Qed.

Section Asks.
Context {A : Type} (q1 q2 q3 q4 q5 : A).
Hypothesis distinct :
  q1 <> q2 /\ q1 <> q3 /\ q1 <> q4 /\ q1 <> q5 /\ q2 <> q3 /\ q2 <> q4
  /\ q2 <> q5 /\ q3 <> q4 /\ q3 <> q5 /\ q4 <> q5.

(** With five distinct questions, each one is in the list exactly when
    its own check fired. *)
Lemma asks_membership (c1 c2 c3 c4 c5 : bool) :
  let l := ask c1 q1 ++ ask c2 q2 ++ ask c3 q3 ++ ask c4 q4 ++ ask c5 q5 in
  (In q1 l <-> c1 = true) /\ (In q2 l <-> c2 = true)
  /\ (In q3 l <-> c3 = true) /\ (In q4 l <-> c4 = true)
  /\ (In q5 l <-> c5 = true).
Proof.
  destruct distinct as (D1 & D2 & D3 & D4 & D5 & D6 & D7 & D8 & D9 & D10).
  cbv zeta. rewrite !in_app_iff, !in_ask.
  repeat split; intros; intuition congruence.
Qed.
End Asks.

Lemma map_fst_asks {A B} (b : B) c1 (k1 : A) c2 k2 c3 k3 c4 k4 c5 k5 :
  List.map fst (ask c1 (k1, b) ++ ask c2 (k2, b) ++ ask c3 (k3, b)
                ++ ask c4 (k4, b) ++ ask c5 (k5, b))
  = ask c1 k1 ++ ask c2 k2 ++ ask c3 k3 ++ ask c4 k4 ++ ask c5 k5.
Proof.
  destruct c1, c2, c3, c4, c5; reflexivity.
Qed.

(** C5, as the code has it.  For the intent GENERATE_QUOTE_OPTIONS the
    missing map and the questions are empty whatever the analysis holds.
    For any other intent, or none, each check adds its key and its question
    exactly when its field is falsy (null or the empty string, for name,
    phone and location) or ['unknown'] (for job type and urgency), one check
    not depending on another, in the order name, phone, location, job type,
    urgency; when every check passes both results are empty. *)
Theorem followup_questions_by_field (a : LeadAnalysis)
        (i : option LeadIntentResult) :
  let '(missing, questions) := generateFollowupQuestions a i in
  (if isQuoteIntent i then missing = [] /\ questions = []
   else
     questions
     = ask (absent (LeadAnalysis.name (customer a))) q_name
       ++ ask (absent (phone (customer a))) q_phone
       ++ ask (absent (location_text a)) q_location
       ++ ask (jobUnknown a) q_job_type
       ++ ask (urgencyUnknown a) q_urgency
     /\ List.map fst missing
        = ask (absent (LeadAnalysis.name (customer a))) (lit "customer_name")
          ++ ask (absent (phone (customer a))) (lit "customer_phone")
          ++ ask (absent (location_text a)) (lit "location_text")
          ++ ask (jobUnknown a) (lit "job_type")
          ++ ask (urgencyUnknown a) (lit "urgency"))
  /\ (In q_name questions
      <-> isQuoteIntent i = false /\ absent (LeadAnalysis.name (customer a)) = true)
  /\ (In q_phone questions
      <-> isQuoteIntent i = false /\ absent (phone (customer a)) = true)
  /\ (In q_location questions
      <-> isQuoteIntent i = false /\ absent (location_text a) = true)
  /\ (In q_job_type questions
      <-> isQuoteIntent i = false /\ job_type a = job_unknown)
  /\ (In q_urgency questions
      <-> isQuoteIntent i = false /\ urgency a = urgency_unknown)
  /\ (absent (LeadAnalysis.name (customer a))
      || absent (phone (customer a)) || absent (location_text a)
      || jobUnknown a || urgencyUnknown a = false
      -> missing = [] /\ questions = []).
Proof.
  rewrite followups_closed_form.
  assert (Hj : jobUnknown a = true <-> job_type a = job_unknown)
    by (unfold jobUnknown; destruct (job_type a); split; congruence).
  assert (Hu : urgencyUnknown a = true <-> urgency a = urgency_unknown)
    by (unfold urgencyUnknown; destruct (urgency a); split; congruence).
  destruct (isQuoteIntent i); cbv beta iota; rewrite <- Hj, <- Hu; clear Hj Hu.
  - cbn [In].
    split; [auto|].
    repeat (split; [split; [intros [] | intros [E _]; discriminate E]|]).
    auto.
  - rewrite map_fst_asks.
    destruct (asks_membership _ _ _ _ _ questions_distinct
                (absent (LeadAnalysis.name (customer a)))
                (absent (phone (customer a))) (absent (location_text a))
                (jobUnknown a) (urgencyUnknown a)) as (M1 & M2 & M3 & M4 & M5).
    cbv zeta in M1, M2, M3, M4, M5.
    split; [split; reflexivity|].
    split; [rewrite M1; split; [intros E; split; [reflexivity | exact E] | intros [_ E]; exact E]|].
    split; [rewrite M2; split; [intros E; split; [reflexivity | exact E] | intros [_ E]; exact E]|].
    split; [rewrite M3; split; [intros E; split; [reflexivity | exact E] | intros [_ E]; exact E]|].
    split; [rewrite M4; split; [intros E; split; [reflexivity | exact E] | intros [_ E]; exact E]|].
    split; [rewrite M5; split; [intros E; split; [reflexivity | exact E] | intros [_ E]; exact E]|].
    clear. unfold ask.
    destruct (absent (LeadAnalysis.name (customer a))),
      (absent (phone (customer a))), (absent (location_text a)),
      (jobUnknown a), (urgencyUnknown a); cbn [orb];
      intros E; try discriminate E; split; reflexivity.
Qed.

Lemma followup_questions_by_field_witness :
  generateFollowupQuestions fullAnalysis None = ([], []).
Proof.
  pose proof (followup_questions_by_field fullAnalysis None) as H.
  destruct (generateFollowupQuestions fullAnalysis None) as [ms qs].
  destruct H as (_ & _ & _ & _ & _ & _ & H).
  assert (E : absent (LeadAnalysis.name (customer fullAnalysis))
              || absent (phone (customer fullAnalysis))
              || absent (location_text fullAnalysis)
              || jobUnknown fullAnalysis || urgencyUnknown fullAnalysis = false)
    by (vm_compute; reflexivity).
  destruct (H E) as [-> ->]. reflexivity.
Defined.

(** C5 as stated fails: with the customer name the empty string, which is
    not null, the name question is asked. *)
Lemma followup_asks_for_empty_name :
  LeadAnalysis.name (customer emptyNameAnalysis) <> None
  /\ In q_name (snd (generateFollowupQuestions emptyNameAnalysis None))
  /\ generateFollowupQuestions emptyNameAnalysis None
     = ([(lit "customer_name", true)], [q_name]).
Proof.
  split; [discriminate|]. split; [left|]; vm_compute; reflexivity.
Qed.

(** ** What each block of [runLeadOrchestrator] does to the state *)

Lemma quoteBranch_frame text s a m :
  newState (quoteBranch text s a m) = withLastIntent s CI_NEW
  /\ missing (quoteBranch text s a m) = None.
Proof.
  unfold quoteBranch. destruct (quoteDependencies s m); split; reflexivity.
Qed.

Lemma intentRule_frame input o :
  intentRule input = Some o ->
  leadId (newState o) = leadId (state input)
  /\ leadStatus (newState o) = leadStatus (state input)
  /\ missing o = None.
Proof.
  unfold intentRule. destruct (intent input) as [i|]; [|discriminate].
  cbv zeta.
  repeat match goal with
         | |- (if ?c then _ else _) = _ -> _ => destruct c
         end;
    intros E; try discriminate E; injection E as <-;
    try (repeat split; reflexivity).
  destruct (quoteBranch_frame (text input) (state input) (analysis input)
                              (measurements input)) as [-> ->].
  repeat split; reflexivity.
Qed.

Lemma greetingRule_frame input o :
  greetingRule input = Some o ->
  leadId (newState o) = leadId (state input)
  /\ leadStatus (newState o) = leadStatus (state input)
  /\ missing o = None.
Proof.
  unfold greetingRule. destruct (detectGreeting _); intros E;
    [injection E as <-; repeat split; reflexivity | discriminate E].
Qed.

Lemma confirmationRule_frame input o :
  confirmationRule input = Some o ->
  leadId (newState o) = leadId (state input)
  /\ leadStatus (state input) = LS_NEW
  /\ lastIntent (state input) = Some CI_LEAD_CAPTURED
  /\ missing o = None.
Proof.
  unfold confirmationRule, lastIntentIs. cbv zeta.
  destruct (lastIntent (state input)) as [[]|], (leadStatus (state input));
    cbn [andb status_eqb]; try discriminate.
  destruct (detectYes _); [|destruct (detectNo _)]; intros E;
    try discriminate E; injection E as <-; repeat split; reflexivity.
Qed.

Lemma analysisFailedRule_frame input o :
  analysisFailedRule input = Some o ->
  newState o = state input /\ missing o = None.
Proof.
  unfold analysisFailedRule. destruct (negb _); intros E;
    [injection E as <-; split; reflexivity | discriminate E].
Qed.

Lemma analysisRule_frame input o :
  analysisRule input = Some o ->
  leadId (newState o) = leadId (state input)
  /\ (missing o = None -> leadStatus (newState o) = leadStatus (state input))
  /\ (forall m, missing o = Some m ->
                m <> [] /\ leadStatus (newState o) = LS_NEW
                /\ lastIntent (newState o) = Some CI_NEW
                /\ exists d, success (analysis input) = true
                             /\ data (analysis input) = Some d
                             /\ m = fst (generateFollowupQuestions d (intent input))).
Proof.
  unfold analysisRule. cbv zeta.
  destruct (success (analysis input)), (data (analysis input)) as [d|];
    try discriminate.
  destruct (generateFollowupQuestions d (intent input)) as [ms qs] eqn:G.
  destruct ms as [|k ms].
  - destruct (status_eqb _ _); [|discriminate].
    destruct (truthy _); intros E; [|discriminate E].
    injection E as <-. split; [reflexivity|]. split; [reflexivity|].
    intros m Hm. discriminate Hm.
  - intros E. injection E as <-.
    cbn [newState missing leadId leadStatus lastIntent].
    split; [reflexivity|]. split; [discriminate|].
    intros m Hm. injection Hm as <-.
    split; [discriminate|]. split; [reflexivity|]. split; [reflexivity|].
    exists d. rewrite G. repeat split; reflexivity.
Qed.

Lemma closingRules_frame input :
  newState (closingRules input) = state input
  /\ missing (closingRules input) = None.
Proof.
  unfold closingRules. cbv zeta. destruct (_ && _); split; reflexivity.
Qed.

(** The case analysis of one turn: which block produced the result. *)
Lemma run_cases input :
  intentRule input = Some (runLeadOrchestrator input)
  \/ greetingRule input = Some (runLeadOrchestrator input)
  \/ confirmationRule input = Some (runLeadOrchestrator input)
  \/ analysisFailedRule input = Some (runLeadOrchestrator input)
  \/ analysisRule input = Some (runLeadOrchestrator input)
  \/ closingRules input = runLeadOrchestrator input.
Proof.
  unfold runLeadOrchestrator, afterConfirmation, orElse.
  destruct (intentRule input); [auto|].
  destruct (greetingRule input); [auto|].
  destruct (confirmationRule input); [auto|].
  destruct (analysisFailedRule input); [auto 6|].
  destruct (analysisRule input); auto 6.
Qed.

(** C10. For every input the returned state has the lead id of the input
    state: no branch binds, rebinds or clears it. *)
Theorem run_preserves_leadId (input : OrchestratorInput) :
  leadId (newState (runLeadOrchestrator input)) = leadId (state input).
Proof.
  destruct (run_cases input) as [H|[H|[H|[H|[H|H]]]]].
  - apply intentRule_frame in H. tauto.
  - apply greetingRule_frame in H. tauto.
  - apply confirmationRule_frame in H. tauto.
  - apply analysisFailedRule_frame in H. destruct H as [-> _]. reflexivity.
  - apply analysisRule_frame in H. tauto.
  - rewrite <- H. destruct (closingRules_frame input) as [-> _]. reflexivity.
Qed.

(** ** The lead status *)

(** C1 as stated fails: a turn on a captured lead whose analysis has missing
    fields returns the status NEW. *)
Lemma captured_lead_reverts_to_new :
  leadStatus (state capturedThenIncomplete) = LS_LEAD_CAPTURED
  /\ leadStatus (newState (runLeadOrchestrator capturedThenIncomplete)) = LS_NEW.
Proof.
  split; vm_compute; reflexivity.
Qed.

Lemma some_injective {A} (a b : A) : Some a = Some b -> a = b.
Proof. intros H. injection H as H. exact H. Qed.

Lemma followups_same_length (d : LeadAnalysis) (i : option LeadIntentResult) :
  length (fst (generateFollowupQuestions d i))
  = length (snd (generateFollowupQuestions d i)).
Proof.
  rewrite followups_closed_form.
  destruct (isQuoteIntent i); [reflexivity|]. cbn [fst snd]. unfold ask.
  destruct (absent (LeadAnalysis.name (customer d))),
    (absent (phone (customer d))), (absent (location_text d)),
    (jobUnknown d), (urgencyUnknown d); reflexivity.
Qed.

(** The output of the analysis block that carries a missing map: its reply
    is the list of the questions, one on a line. *)
Lemma analysisRule_asks input o m :
  analysisRule input = Some o ->
  missing o = Some m ->
  exists d,
    data (analysis input) = Some d
    /\ snd (generateFollowupQuestions d (intent input)) <> []
    /\ reply o = join [0x0A] (snd (generateFollowupQuestions d (intent input))).
Proof.
  unfold analysisRule. cbv zeta.
  destruct (success (analysis input)), (data (analysis input)) as [d|];
    try discriminate.
  pose proof (followups_same_length d (intent input)) as Hl.
  destruct (generateFollowupQuestions d (intent input)) as [ms qs] eqn:G.
  cbn [fst snd] in Hl.
  destruct ms as [|k ms].
  - destruct (status_eqb _ _); [|discriminate].
    destruct (truthy _); intros E; [|discriminate E].
    apply some_injective in E. subst o. cbn [say missing]. discriminate.
  - intros E _. apply some_injective in E. subst o. cbn [reply].
    exists d. rewrite G. cbn [snd]. split; [reflexivity|].
    destruct qs as [|q qs]; [discriminate Hl|].
    split; [discriminate|reflexivity].
Qed.

(** C1, as the code has it.  A captured lead keeps the status LEAD_CAPTURED
    in every turn but one: the turn whose output carries a missing map.
    That turn is made by the analysis block on a successful analysis whose
    missing map, the one attached, is not empty; its reply is the list of
    the follow-up questions, one on a line, and it sets the status to NEW
    and lastIntent to NEW. *)
Theorem captured_reverts_only_with_missing (input : OrchestratorInput) :
  leadStatus (state input) = LS_LEAD_CAPTURED ->
  match missing (runLeadOrchestrator input) with
  | None =>
    leadStatus (newState (runLeadOrchestrator input)) = LS_LEAD_CAPTURED
  | Some m =>
    m <> []
    /\ leadStatus (newState (runLeadOrchestrator input)) = LS_NEW
    /\ lastIntent (newState (runLeadOrchestrator input)) = Some CI_NEW
    /\ exists d, success (analysis input) = true
                 /\ data (analysis input) = Some d
                 /\ m = fst (generateFollowupQuestions d (intent input))
                 /\ snd (generateFollowupQuestions d (intent input)) <> []
                 /\ reply (runLeadOrchestrator input)
                    = join [0x0A]
                           (snd (generateFollowupQuestions d (intent input)))
  end.
Proof.
  intros Hc.
  destruct (run_cases input) as [H|[H|[H|[H|[H|H]]]]].
  - apply intentRule_frame in H. destruct H as (_ & Hs & ->). congruence.
  - apply greetingRule_frame in H. destruct H as (_ & Hs & ->). congruence.
  - apply confirmationRule_frame in H. destruct H as (_ & Hs & _). congruence.
  - apply analysisFailedRule_frame in H. destruct H as [Hs ->]. congruence.
  - pose proof (analysisRule_asks input (runLeadOrchestrator input)) as Hq.
    pose proof H as H'. apply analysisRule_frame in H'.
    destruct H' as (_ & Hn & Hm).
    destruct (missing (runLeadOrchestrator input)) as [m|].
    + destruct (Hm m eq_refl) as (Hne & Hst & Hli & d & Hsu & Hd & Hmd).
      destruct (Hq m H eq_refl) as (d' & Hd' & Hqs & Hr).
      rewrite Hd in Hd'. apply some_injective in Hd'. subst d'.
      split; [exact Hne|]. split; [exact Hst|]. split; [exact Hli|].
      exists d. split; [exact Hsu|]. split; [exact Hd|]. split; [exact Hmd|].
      split; [exact Hqs|exact Hr].
    + rewrite Hn by reflexivity. exact Hc.
  - rewrite <- H. destruct (closingRules_frame input) as [-> ->]. exact Hc.
Qed.

Lemma captured_reverts_only_with_missing_witness :
  match missing (runLeadOrchestrator capturedThenIncomplete) with
  | None =>
    leadStatus (newState (runLeadOrchestrator capturedThenIncomplete))
    = LS_LEAD_CAPTURED
  | Some m =>
    m <> []
    /\ leadStatus (newState (runLeadOrchestrator capturedThenIncomplete)) = LS_NEW
    /\ lastIntent (newState (runLeadOrchestrator capturedThenIncomplete))
       = Some CI_NEW
    /\ exists d, success (analysis capturedThenIncomplete) = true
                 /\ data (analysis capturedThenIncomplete) = Some d
                 /\ m = fst (generateFollowupQuestions d (intent capturedThenIncomplete))
                 /\ snd (generateFollowupQuestions
                           d (intent capturedThenIncomplete)) <> []
                 /\ reply (runLeadOrchestrator capturedThenIncomplete)
                    = join [0x0A]
                           (snd (generateFollowupQuestions
                                   d (intent capturedThenIncomplete)))
  end.
Proof.
  apply (captured_reverts_only_with_missing capturedThenIncomplete).
  reflexivity.
Defined.

(** ** The confirmation turn *)

Lemma intentRule_falls_through input :
  noShortCircuit (intent input) -> intentRule input = None.
Proof.
  unfold intentRule, noShortCircuit.
  destruct (intent input) as [r|]; [|reflexivity].
  intros [E|E]; rewrite E; reflexivity.
Qed.

Lemma generateConfirmation_truthy d :
  exists s, generateConfirmation d = Some s /\ truthy (Some s) = true.
Proof.
  unfold generateConfirmation. cbv zeta. eexists. split; [reflexivity|].
  destruct confirmationOpening eqn:E; [vm_compute in E; discriminate E|].
  reflexivity.
Qed.

Lemma analysisRule_complete input d :
  success (analysis input) = true ->
  data (analysis input) = Some d ->
  fst (generateFollowupQuestions d (intent input)) = [] ->
  leadStatus (state input) = LS_NEW ->
  exists recap,
    generateConfirmation d = Some recap
    /\ analysisRule input
       = Some (say recap (withLastIntent (state input) CI_LEAD_CAPTURED)).
Proof.
  intros Hs Hd Hm Hn. unfold analysisRule. cbv zeta. rewrite Hs, Hd.
  destruct (generateFollowupQuestions d (intent input)) as [ms qs].
  cbn [fst] in Hm. subst ms. rewrite Hn. cbn [status_eqb].
  destruct (generateConfirmation_truthy d) as (s & -> & ->).
  exists s. split; reflexivity.
Qed.

Lemma haan_is_no_greeting : detectGreeting (trim (lit "haan")) = false.
Proof. vm_compute. reflexivity. Qed.

Lemma haan_is_yes : detectYes (trim (lit "haan")) = true.
Proof. vm_compute. reflexivity. Qed.

(** C4 as stated fails: a first message that begins with a greeting word is
    answered by the greeting, though its analysis is complete and there is
    no intent. *)
Lemma greeting_word_preempts_recap :
  fst (generateFollowupQuestions fullAnalysis None) = []
  /\ reply (runLeadOrchestrator greetingThenLead) = greetingReply
  /\ generateConfirmation fullAnalysis
     <> Some (reply (runLeadOrchestrator greetingThenLead))
  /\ lastIntent (newState (runLeadOrchestrator greetingThenLead))
     = Some CI_GREETING.
Proof.
  conjuncts; try (vm_compute; reflexivity).
  vm_compute. discriminate.
Qed.

(** C4, as the code has it.  From the state [{leadStatus: NEW}], with a
    successful analysis that has no missing field, no intent that block 0
    handles and a text, written in ASCII and Indic-script characters, that
    the greeting heuristic does not match, the reply is the recap
    confirmation and lastIntent becomes LEAD_CAPTURED.  A second turn with
    the text ["haan"] on the returned state, whatever the analysis and again
    with no intent that block 0 handles, replies with the site-visit
    question, with leadStatus LEAD_CAPTURED and lastIntent
    SCHEDULE_SITE_VISIT. *)
Theorem two_turn_capture (text1 : jsstring) (d : LeadAnalysis)
        (e : option jsstring) (i1 : option LeadIntentResult)
        (m1 : option MeasurementData) :
  plainCased text1 ->
  noShortCircuit i1 ->
  detectGreeting (trim text1) = false ->
  fst (generateFollowupQuestions d i1) = [] ->
  let out1 :=
    runLeadOrchestrator
      {| text := text1;
         state := {| leadStatus := LS_NEW; lastIntent := None; leadId := None |};
         analysis := {| success := true; data := Some d; error := e |};
         intent := i1;
         measurements := m1 |} in
  generateConfirmation d = Some (reply out1)
  /\ newState out1
     = {| leadStatus := LS_NEW; lastIntent := Some CI_LEAD_CAPTURED;
          leadId := None |}
  /\ forall (a2 : LeadAnalyzeLikeResponse) (i2 : option LeadIntentResult)
            (m2 : option MeasurementData),
      noShortCircuit i2 ->
      let out2 :=
        runLeadOrchestrator
          {| text := lit "haan"; state := newState out1; analysis := a2;
             intent := i2; measurements := m2 |} in
      reply out2 = siteVisitReply
      /\ leadStatus (newState out2) = LS_LEAD_CAPTURED
      /\ lastIntent (newState out2) = Some CI_SCHEDULE_SITE_VISIT.
Proof.
  intros _ Hi Hg Hm.
  set (in1 := {| text := text1; state := _; analysis := _; intent := i1;
                 measurements := m1 |}).
  assert (H1 : exists recap,
             generateConfirmation d = Some recap
             /\ runLeadOrchestrator in1
                = say recap {| leadStatus := LS_NEW;
                               lastIntent := Some CI_LEAD_CAPTURED;
                               leadId := None |}).
  { destruct (analysisRule_complete in1 d eq_refl eq_refl Hm eq_refl)
      as (recap & Hr & Ha).
    exists recap. split; [exact Hr|].
    unfold runLeadOrchestrator, afterConfirmation.
    rewrite (intentRule_falls_through in1 Hi).
    unfold greetingRule. cbn [text in1]. rewrite Hg.
    rewrite Ha. reflexivity. }
  destruct H1 as (recap & Hr & Hrun).
  cbv zeta. rewrite Hrun. cbn [reply newState say].
  split; [exact Hr|]. split; [reflexivity|].
  intros a2 i2 m2 Hi2. cbv zeta.
  match goal with |- context [runLeadOrchestrator ?x] => set (in2 := x) end.
  assert (H2 : runLeadOrchestrator in2
               = say siteVisitReply
                     {| leadStatus := LS_LEAD_CAPTURED;
                        lastIntent := Some CI_SCHEDULE_SITE_VISIT;
                        leadId := None |}).
  { unfold runLeadOrchestrator.
    rewrite (intentRule_falls_through in2 Hi2).
    unfold greetingRule, confirmationRule. cbn [text state in2].
    rewrite haan_is_no_greeting, haan_is_yes. reflexivity. }
  rewrite H2. repeat split; reflexivity.
Qed.

Lemma two_turn_capture_witness :
  let out1 :=
    runLeadOrchestrator
      {| text := lit "Rahil ka HSR mein 2BHK repaint karna hai, kal se";
         state := {| leadStatus := LS_NEW; lastIntent := None; leadId := None |};
         analysis := {| success := true; data := Some fullAnalysis;
                        error := None |};
         intent := None;
         measurements := None |} in
  generateConfirmation fullAnalysis = Some (reply out1)
  /\ newState out1
     = {| leadStatus := LS_NEW; lastIntent := Some CI_LEAD_CAPTURED;
          leadId := None |}
  /\ forall (a2 : LeadAnalyzeLikeResponse) (i2 : option LeadIntentResult)
            (m2 : option MeasurementData),
      noShortCircuit i2 ->
      let out2 :=
        runLeadOrchestrator
          {| text := lit "haan"; state := newState out1; analysis := a2;
             intent := i2; measurements := m2 |} in
      reply out2 = siteVisitReply
      /\ leadStatus (newState out2) = LS_LEAD_CAPTURED
      /\ lastIntent (newState out2) = Some CI_SCHEDULE_SITE_VISIT.
Proof.
  apply (two_turn_capture
           (lit "Rahil ka HSR mein 2BHK repaint karna hai, kal se")
           fullAnalysis None None None).
  - vm_compute. reflexivity.
  - exact I.
  - vm_compute. reflexivity.
  - vm_compute. reflexivity.
Defined.

(** ** The confirmation detectors *)

Lemma streq_refl (s : jsstring) : streq s s = true.
Proof.
  induction s as [|c s IH]; [reflexivity|].
  cbn [streq]. rewrite N.eqb_refl. exact IH.
Qed.

Lemma resolveConfirmation_spec (t : jsstring) :
  (resolveConfirmation t = YES <-> detectYes (trim t) = true)
  /\ (resolveConfirmation t = NO
      <-> detectYes (trim t) = false /\ detectNo (trim t) = true)
  /\ (resolveConfirmation t = AMBIGUOUS
      <-> detectYes (trim t) = false /\ detectNo (trim t) = false).
Proof.
  unfold resolveConfirmation, confirmationOf.
  destruct (detectYes (trim t)), (detectNo (trim t));
    repeat split; try discriminate; try reflexivity;
    try (intros [? ?]; discriminate).
Qed.

(** C7 as stated fails: ["haan nahi"] contains a whole yes word and a
    whole no word, so the yes test and the no test both fire; the
    orchestrator takes the yes branch, which changes the state. *)
Lemma both_fire_on_haan_nahi_yet_confirmed :
  includes (trim (lit "haan nahi")) (lit "haan") = true
  /\ includes (trim (lit "haan nahi")) (lit "nahi") = true
  /\ detectYes (trim (lit "haan nahi")) = true
  /\ detectNo (trim (lit "haan nahi")) = true
  /\ runLeadOrchestrator (pendingAnswer (lit "haan nahi"))
     = say siteVisitReply
           {| leadStatus := LS_LEAD_CAPTURED;
              lastIntent := Some CI_SCHEDULE_SITE_VISIT;
              leadId := None |}
  /\ newState (runLeadOrchestrator (pendingAnswer (lit "haan nahi")))
     <> state (pendingAnswer (lit "haan nahi")).
Proof.
  conjuncts; try (vm_compute; reflexivity).
  vm_compute. discriminate.
Qed.

(** C7, as the code has it.  The yes test is made first and has
    precedence: the outcome is YES whenever it fires, NO when only the no
    test fires and AMBIGUOUS when neither does.  In the pending-confirmation
    state (lastIntent LEAD_CAPTURED,
    leadStatus NEW), with no intent that block 0 handles and a text, written
    in ASCII and Indic-script characters, that the greeting heuristic does
    not match, the turn confirms the lead whenever the yes test fires (also
    when the no test fires too), asks what to change when only the no test
    fires, and when neither fires block 2 returns nothing and changes
    nothing: the turn is the one the later blocks make. *)
Theorem confirmation_yes_first (input : OrchestratorInput) :
  plainCased (text input) ->
  lastIntent (state input) = Some CI_LEAD_CAPTURED ->
  leadStatus (state input) = LS_NEW ->
  noShortCircuit (intent input) ->
  detectGreeting (trim (text input)) = false ->
  (resolveConfirmation (text input) = YES
   <-> detectYes (trim (text input)) = true)
  /\ (resolveConfirmation (text input) = NO
      <-> detectYes (trim (text input)) = false
          /\ detectNo (trim (text input)) = true)
  /\ (resolveConfirmation (text input) = AMBIGUOUS
      <-> detectYes (trim (text input)) = false
          /\ detectNo (trim (text input)) = false)
  /\ (detectYes (trim (text input)) = true ->
      runLeadOrchestrator input
      = say siteVisitReply
            {| leadStatus := LS_LEAD_CAPTURED;
               lastIntent := Some CI_SCHEDULE_SITE_VISIT;
               leadId := leadId (state input) |})
  /\ (detectYes (trim (text input)) = false ->
      detectNo (trim (text input)) = true ->
      runLeadOrchestrator input
      = say modificationReply
            (withLastIntent (state input) CI_LEAD_MODIFICATION))
  /\ (detectYes (trim (text input)) = false ->
      detectNo (trim (text input)) = false ->
      confirmationRule input = None
      /\ runLeadOrchestrator input = afterConfirmation input).
Proof.
  intros _ Hl Hs Hi Hg.
  destruct (resolveConfirmation_spec (text input)) as (Hy & Hn & Ha).
  split; [exact Hy|]. split; [exact Hn|]. split; [exact Ha|].
  unfold runLeadOrchestrator.
  rewrite (intentRule_falls_through input Hi).
  unfold greetingRule. rewrite Hg. cbn [orElse].
  unfold confirmationRule, lastIntentIs.
  cbv zeta. rewrite Hl, Hs. cbn [andb status_eqb].
  split; [intros ->; reflexivity|].
  split; [intros -> ->; reflexivity|].
  intros -> ->. split; reflexivity.
Qed.

Lemma confirmation_yes_first_witness :
  resolveConfirmation (lit "haan nahi") = YES
  /\ runLeadOrchestrator (pendingAnswer (lit "haan nahi"))
     = say siteVisitReply
           {| leadStatus := LS_LEAD_CAPTURED;
              lastIntent := Some CI_SCHEDULE_SITE_VISIT;
              leadId := None |}.
Proof.
  destruct (confirmation_yes_first (pendingAnswer (lit "haan nahi")))
    as (Hy & _ & _ & Hrun & _).
  - vm_compute. reflexivity.
  - reflexivity.
  - reflexivity.
  - exact I.
  - vm_compute. reflexivity.
  - split.
    + apply Hy. vm_compute. reflexivity.
    + apply Hrun. vm_compute. reflexivity.
Defined.

(** C2.  The detectors of the Turn Orchestrator at the examples of the
    claim.  The first four come out as the claim says.  On
    ["bas theek hai"], 13 characters long, the claim says AMBIGUOUS and the
    detectors say YES: [detectYes] tests [raw.includes(w)] for every yes
    word, with no bound on the length of the text, and ["hai"] contains the
    yes word ["ha"].  The confirmation gate of the step flow, which bounds
    its substring test, gives AMBIGUOUS on the same text.  ["nahi"] alone
    is a no, but the same test takes ["nahi yaar"] (it has a [y]) and
    ["no thanks"] (it has ["ha"]) for a yes, and in the
    pending-confirmation state ["nahi yaar"] confirms the lead. *)
Theorem turn_detectors_on_examples :
  resolveConfirmation (lit "हाँ") = YES
  /\ resolveConfirmation (lit "नहीं") = NO
  /\ resolveConfirmation (lit "कर दो।") = YES
  /\ resolveConfirmation (lit "haan kar do") = YES
  /\ length (trim (lit "bas theek hai")) = 13%nat
  /\ includes (trim (lit "bas theek hai")) (lit "ha") = true
  /\ detectYes (trim (lit "bas theek hai")) = true
  /\ resolveConfirmation (lit "bas theek hai") = YES
  /\ ProjectConversation.resolveConfirmation (lit "bas theek hai") = AMBIGUOUS
  /\ resolveConfirmation (lit "nahi") = NO
  /\ resolveConfirmation (lit "nahi yaar") = YES
  /\ resolveConfirmation (lit "no thanks") = YES
  /\ leadStatus (newState (runLeadOrchestrator (pendingAnswer (lit "nahi yaar"))))
     = LS_LEAD_CAPTURED.
Proof.
  conjuncts; vm_compute; reflexivity.
Qed.

(** C8 as stated fails: ["ji"] is a yes word of the step flow only. *)
Lemma ji_is_classified_differently :
  resolveConfirmation (lit "ji") = AMBIGUOUS
  /\ ProjectConversation.resolveConfirmation (lit "ji") = YES.
Proof.
  split; vm_compute; reflexivity.
Qed.

Lemma yesWords_in_yesValues :
  forallb (arrayIncludes ProjectConversation.yesValues) yesWords = true.
Proof. vm_compute. reflexivity. Qed.

(** C8, as the code has it.  The two flows have each their own detectors
    and word lists.  They agree, with the outcome YES, on every text whose
    cleaned, lower-cased form is one of the yes words of the Turn
    Orchestrator. *)
Theorem flows_agree_on_orchestrator_yes_words (t : jsstring) :
  In (normalizedAnswer t) yesWords ->
  resolveConfirmation t = YES
  /\ ProjectConversation.resolveConfirmation t = YES.
Proof.
  intros Hin. split.
  - apply resolveConfirmation_spec.
    unfold detectYes. cbv zeta. apply existsb_exists.
    exists (normalizedAnswer t). split; [exact Hin|].
    unfold normalizedAnswer. rewrite streq_refl. reflexivity.
  - unfold ProjectConversation.resolveConfirmation, ProjectConversation.isYes.
    cbv zeta.
    pose proof (proj1 (forallb_forall _ _) yesWords_in_yesValues _ Hin) as Hv.
    unfold normalizedAnswer in Hv. rewrite Hv. reflexivity.
Qed.

Lemma flows_agree_on_orchestrator_yes_words_witness :
  resolveConfirmation (lit " Haan. ") = YES
  /\ ProjectConversation.resolveConfirmation (lit " Haan. ") = YES.
Proof.
  apply (flows_agree_on_orchestrator_yes_words (lit " Haan. ")).
  vm_compute. left. reflexivity.
Defined.

(** ** The step flow *)

Lemma handle_start (store : gmap Z ProjectConversation.ConversationState)
      (chatId : Z) (rawText : option jsstring) :
  trim (default [] rawText) = lit "/project" ->
  ProjectConversation.handleProjectConversation store chatId rawText
  = (<[chatId := ProjectConversation.initialState]> store,
     ProjectConversation.replyOnly
       (snd <$> ProjectConversation.PROJECT_FLOW !! 0%nat)).
Proof.
  intros H. unfold ProjectConversation.handleProjectConversation.
  cbv zeta. rewrite H.
  destruct (lit "/project") as [|c l] eqn:E; [vm_compute in E; discriminate E|].
  rewrite streq_refl. reflexivity.
Qed.

(** C9. The start command ['/project'] (after trimming) sets the state of
    the chat to step 0 with no answers and not waiting for a confirmation,
    whatever the store held for the chat before, replies with the first
    question and emits no save payload; the other chats are untouched; and
    sending it again gives the same store and the same reply. *)
Theorem start_command_resets
        (store : gmap Z ProjectConversation.ConversationState)
        (chatId : Z) (rawText : option jsstring) :
  trim (default [] rawText) = lit "/project" ->
  let '(store', r) :=
    ProjectConversation.handleProjectConversation store chatId rawText in
  store' !! chatId
  = Some {| ProjectConversation.step := 0;
            ProjectConversation.answers :=
              {| ProjectConversation.ans_work_location := None;
                 ProjectConversation.ans_rooms_count := None |};
            ProjectConversation.waitingForAssignConfirm := false |}
  /\ (exists q,
         head ProjectConversation.PROJECT_FLOW
         = Some (ProjectConversation.work_location, q)
         /\ ProjectConversation.replyText r = Some q)
  /\ ProjectConversation.savePayload r = None
  /\ (forall other, other <> chatId -> store' !! other = store !! other)
  /\ ProjectConversation.handleProjectConversation store' chatId rawText
     = (store', r).
Proof.
  intros H. rewrite (handle_start store chatId rawText H).
  split; [apply lookup_insert_eq|].
  split; [eexists; split; reflexivity|].
  split; [reflexivity|].
  split.
  - intros other Hne. apply lookup_insert_ne. congruence.
  - rewrite (handle_start _ chatId rawText H).
    rewrite insert_insert_eq. reflexivity.
Qed.

Lemma start_command_resets_witness :
  let '(store', r) :=
    ProjectConversation.handleProjectConversation
      chatInProgress 7%Z (Some (lit " /project ")) in
  store' !! 7%Z
  = Some {| ProjectConversation.step := 0;
            ProjectConversation.answers :=
              {| ProjectConversation.ans_work_location := None;
                 ProjectConversation.ans_rooms_count := None |};
            ProjectConversation.waitingForAssignConfirm := false |}
  /\ (exists q,
         head ProjectConversation.PROJECT_FLOW
         = Some (ProjectConversation.work_location, q)
         /\ ProjectConversation.replyText r = Some q)
  /\ ProjectConversation.savePayload r = None
  /\ (forall other, other <> 7%Z -> store' !! other = chatInProgress !! other)
  /\ ProjectConversation.handleProjectConversation
       store' 7%Z (Some (lit " /project "))
     = (store', r).
Proof.
  apply (start_command_resets chatInProgress 7%Z (Some (lit " /project "))).
  vm_compute. reflexivity.
Defined.

(** ** The quote parameter extraction *)

Lemma matchStar_sound {R} (cls : N -> bool) (s : jsstring)
      (k : jsstring -> option R) (x : R) :
  matchStar cls s k = Some x ->
  exists run rest,
    s = run ++ rest /\ Forall (fun c => cls c = true) run /\ k rest = Some x.
Proof.
  induction s as [|c s IH]; cbn [matchStar].
  - intros H. exists [], []. auto.
  - destruct (cls c) eqn:Ec.
    + destruct (matchStar cls s k) as [y|] eqn:Em.
      * intros [= ->]. destruct (IH eq_refl) as (run & rest & -> & Hall & Hk).
        exists (c :: run), rest. auto.
      * intros H. exists [], (c :: s). auto.
    + intros H. exists [], (c :: s). auto.
Qed.

Lemma matchPlus_sound {R} (cls : N -> bool) (s : jsstring)
      (k : jsstring -> option R) (x : R) :
  matchPlus cls s k = Some x ->
  exists run rest,
    s = run ++ rest /\ run <> []
    /\ Forall (fun c => cls c = true) run /\ k rest = Some x.
Proof.
  destruct s as [|c s]; cbn [matchPlus]; [discriminate|].
  destruct (cls c) eqn:Ec; [|discriminate].
  intros H. apply matchStar_sound in H.
  destruct H as (run & rest & -> & Hall & Hk).
  exists (c :: run), rest. repeat split; auto; discriminate.
Qed.

Lemma matchLit_exact (l s s' : jsstring) :
  matchLit false l s = Some s' -> s = l ++ s'.
Proof.
  revert s. induction l as [|p l IH]; intros s; cbn [matchLit].
  - intros [= ->]. reflexivity.
  - destruct s as [|c s]; [discriminate|].
    unfold unitMatches. destruct (N.eqb_spec p c) as [->|]; [|discriminate].
    intros H. rewrite (IH _ H). reflexivity.
Qed.

Lemma exec_sound (r : regex) (s : jsstring) (cap : option jsstring) :
  exec r s = Some cap ->
  exists pre t,
    s = pre ++ t /\ rmatch r t None (fun _ c => Some c) = Some cap.
Proof.
  induction s as [|c s IH]; cbn [exec].
  - destruct (rmatch r [] None _) eqn:E; [|discriminate].
    intros [= ->]. exists [], []. auto.
  - destruct (rmatch r (c :: s) None _) eqn:E.
    + intros [= ->]. exists [], (c :: s). auto.
    + intros H. destruct (IH H) as (pre & t & -> & Ht).
      exists (c :: pre), t. auto.
Qed.

(** A match of [/(\d+)\s*options?/] shows a count of options in the text. *)
Lemma optionsRe_sound (s : jsstring) (cap : option jsstring) :
  exec optionsRe s = Some cap -> mentionsOptionCount s.
Proof.
  intros H. apply exec_sound in H. destruct H as (pre & t & -> & H).
  unfold optionsRe, unitWord in H. cbn [rmatch] in H.
  apply matchPlus_sound in H. destruct H as (ds & r1 & -> & Hne & Hds & H).
  apply matchStar_sound in H. destruct H as (ws & r2 & -> & Hws & H).
  destruct (matchLit false (lit "option") r2) as [r3|] eqn:El; [|discriminate].
  apply matchLit_exact in El. subst r2.
  exists pre, ds, ws, r3. auto.
Qed.

Lemma matchStar_complete {R} (cls : N -> bool) (run rest : jsstring)
      (k : jsstring -> option R) (x : R) :
  Forall (fun c => cls c = true) run ->
  k rest = Some x ->
  exists y, matchStar cls (run ++ rest) k = Some y.
Proof.
  intros Hall Hk. induction Hall as [|c run Hc _ IH]; cbn [app matchStar].
  - destruct rest as [|c rest]; cbn [matchStar]; [eauto|].
    destruct (cls c); [|eauto].
    destruct (matchStar cls rest k); eauto.
  - rewrite Hc. destruct IH as [y ->]. eauto.
Qed.

Lemma matchLit_app (l post : jsstring) : matchLit false l (l ++ post) = Some post.
Proof.
  induction l as [|p l IH]; cbn [app matchLit]; [reflexivity|].
  unfold unitMatches. rewrite N.eqb_refl. exact IH.
Qed.

Lemma exec_complete (r : regex) (pre t : jsstring) (cap : option jsstring) :
  rmatch r t None (fun _ c => Some c) = Some cap ->
  exists cap', exec r (pre ++ t) = Some cap'.
Proof.
  intros H. induction pre as [|c pre IH]; cbn [app].
  - destruct t; cbn [exec]; rewrite H; eauto.
  - cbn [exec]. destruct (rmatch r (c :: pre ++ t) None _); eauto.
Qed.

(** A count of options in the text makes [/(\d+)\s*options?/] match. *)
Lemma optionsRe_complete (s : jsstring) :
  mentionsOptionCount s -> exists cap, exec optionsRe s = Some cap.
Proof.
  intros (pre & ds & ws & post & -> & Hne & Hds & Hws).
  destruct ds as [|d ds]; [congruence|].
  inversion Hds as [|? ? Hd Hds']; subst.
  assert (Hm : exists cap,
             rmatch optionsRe ((d :: ds) ++ ws ++ lit "option" ++ post) None
                    (fun _ c => Some c) = Some cap).
  { unfold optionsRe, unitWord. cbn [rmatch app matchPlus]. rewrite Hd.
    set (s0 := d :: ds ++ ws ++ lit "option" ++ post).
    match goal with
    | |- exists cap, matchStar isDigit _ ?k = Some cap => set (k1 := k)
    end.
    assert (Hk1 : exists y, k1 (ws ++ lit "option" ++ post) = Some y).
    { unfold k1.
      destruct (matchStar_complete isWhiteSpace ws (lit "option" ++ post)
                  (fun s2 : jsstring =>
                     match matchLit false (lit "option") s2 with
                     | Some s3 =>
                       match
                         match matchLit false (lit "s") s3 with
                         | Some s4 =>
                           Some (Some (firstn (length s0
                                               - length (ws ++ lit "option" ++ post))
                                              s0))
                         | None => None
                         end
                       with
                       | Some x => Some x
                       | None =>
                         Some (Some (firstn (length s0
                                             - length (ws ++ lit "option" ++ post))
                                            s0))
                       end
                     | None => None
                     end)
                  (Some (firstn (length s0 - length (ws ++ lit "option" ++ post))
                                s0))
                  Hws) as [y Hy].
      - rewrite matchLit_app.
        destruct (matchLit false (lit "s") post); reflexivity.
      - exists y. exact Hy. }
    destruct Hk1 as [y Hk1].
    exact (matchStar_complete isDigit ds _ k1 y Hds' Hk1). }
  destruct Hm as [cap Hm].
  exact (exec_complete optionsRe pre _ cap Hm).
Qed.

(** [/(\d+)\s*options?/] fails on a text exactly when the text has no
    count of options. *)
Lemma optionsRe_none_iff (s : jsstring) :
  exec optionsRe s = None <-> ~ mentionsOptionCount s.
Proof.
  split.
  - intros H Hm. destruct (optionsRe_complete s Hm) as [cap Hc]. congruence.
  - intros H. destruct (exec optionsRe s) as [cap|] eqn:E; [|reflexivity].
    exfalso. apply H. exact (optionsRe_sound s cap E).
Qed.

Lemma quoteBranch_satisfied text s a m :
  quoteDependencies s m = [] ->
  toolCall (quoteBranch text s a m)
  = Some {| name := lit "generate_quote_options";
            arguments :=
              {| arg_leadId := leadId s;
                 jobType := job_type <$> data a;
                 location := if truthy (data a ≫= location_text)
                             then data a ≫= location_text else None;
                 requirements := extractRequirements text |} |}.
Proof.
  intros H. unfold quoteBranch. rewrite H. reflexivity.
Qed.

Lemma run_quote_satisfied t s a m i :
  LeadIntent.intent i = GENERATE_QUOTE_OPTIONS ->
  quoteDependencies s m = [] ->
  toolCall (runLeadOrchestrator
              {| text := t; state := s; analysis := a; intent := Some i;
                 measurements := m |})
  = Some {| name := lit "generate_quote_options";
            arguments :=
              {| arg_leadId := leadId s;
                 jobType := job_type <$> data a;
                 location := if truthy (data a ≫= location_text)
                             then data a ≫= location_text else None;
                 requirements := extractRequirements t |} |}.
Proof.
  intros Hq Hd.
  rewrite (run_quote_intent {| text := t; state := s; analysis := a;
                               intent := Some i; measurements := m |}
                            i eq_refl Hq).
  cbn [text state analysis measurements].
  exact (quoteBranch_satisfied t s a m Hd).
Qed.

Lemma sample_requirements :
  extractRequirements (lit "3 options, timeline 5 days, advance 30%")
  = {| options := 3; timeline := Some (lit "5 days"); advance := Some 30;
       labour_and_material := false |}.
Proof. vm_compute. reflexivity. Qed.

(** The text is lower-cased before it is scanned: the timeline comes back
    in lower case. *)
Lemma sample_requirements_upper_case :
  extractRequirements (lit "3 OPTIONS, Timeline 5 Days, ADVANCE 30%")
  = {| options := 3; timeline := Some (lit "5 days"); advance := Some 30;
       labour_and_material := false |}.
Proof. vm_compute. reflexivity. Qed.

Lemma firstn_consumed (a b : jsstring) :
  firstn (length (a ++ b) - length b) (a ++ b) = a.
Proof.
  rewrite length_app.
  replace (length a + length b - length b)%nat with (length a) by lia.
  rewrite firstn_app, Nat.sub_diag, firstn_all. cbn [firstn].
  apply app_nil_r.
Qed.

(** *** What the patterns read, on every text

    The lower-cased text has no capital letter, so that under the [i] flag
    a keyword matches its own letters only; a greedy run is taken whole
    when the rest of the pattern matches after it; the search skips the
    positions at which the pattern cannot begin. *)

Lemma lowered_no_capital (t : jsstring) :
  Forall (fun c => capital c = false) (toLowerCase t).
Proof.
  unfold toLowerCase. induction t as [|c t IH]; cbn [List.map]; constructor;
    [|exact IH].
  unfold lowerUnit, capital.
  destruct ((0x41 <=? c) && (c <=? 0x5A)) eqn:E; [|exact E].
  apply andb_true_iff in E. destruct E as [E1 E2]. apply N.leb_le in E1.
  apply andb_false_iff. right. apply N.leb_gt. lia.
Qed.

Lemma unitMatches_exact (p c : N) :
  capital p = false -> capital c = false ->
  unitMatches true p c = true -> c = p.
Proof.
  unfold capital, unitMatches, upperUnit. intros Hp Hc H.
  apply N.eqb_eq in H.
  apply andb_false_iff in Hp. apply andb_false_iff in Hc.
  rewrite !N.leb_gt in Hp, Hc.
  destruct (N.leb_spec 0x61 p), (N.leb_spec p 0x7A),
           (N.leb_spec 0x61 c), (N.leb_spec c 0x7A);
    cbn [andb] in H; lia.
Qed.

Lemma matchLit_ci_exact (w s s' : jsstring) :
  Forall (fun c => capital c = false) w ->
  Forall (fun c => capital c = false) s ->
  matchLit true w s = Some s' -> s = w ++ s'.
Proof.
  intros Hw. revert s. induction Hw as [|p w Hp _ IH]; intros s Hs;
    cbn [matchLit].
  - intros H. apply some_injective in H. subst s'. reflexivity.
  - destruct s as [|c s]; [discriminate|].
    inversion Hs as [|? ? Hc Hs']; subst.
    destruct (unitMatches true p c) eqn:E; [|discriminate].
    apply (unitMatches_exact p c Hp Hc) in E. subst c.
    intros H. rewrite (IH s Hs' H). reflexivity.
Qed.

Lemma matchLit_any_app (ci : bool) (w post : jsstring) :
  matchLit ci w (w ++ post) = Some post.
Proof.
  induction w as [|p w IH]; cbn [app matchLit]; [reflexivity|].
  unfold unitMatches. destruct ci; rewrite N.eqb_refl; exact IH.
Qed.


Lemma matchStar_greedy {R} (cls : N -> bool) (run rest : jsstring)
      (k : jsstring -> option R) (x : R) :
  Forall (fun c => cls c = true) run ->
  headOutside cls rest ->
  k rest = Some x ->
  matchStar cls (run ++ rest) k = Some x.
Proof.
  intros Hall Hh Hk. induction Hall as [|c run Hc _ IH]; cbn [app matchStar].
  - destruct rest as [|c rest]; cbn [matchStar]; [exact Hk|].
    cbn [headOutside] in Hh. rewrite Hh. exact Hk.
  - rewrite Hc, IH. reflexivity.
Qed.

Lemma matchPlus_greedy {R} (cls : N -> bool) (run rest : jsstring)
      (k : jsstring -> option R) (x : R) :
  run <> [] ->
  Forall (fun c => cls c = true) run ->
  headOutside cls rest ->
  k rest = Some x ->
  matchPlus cls (run ++ rest) k = Some x.
Proof.
  intros Hne Hall Hh Hk. destruct run as [|c run]; [congruence|].
  inversion Hall as [|? ? Hc Hall']; subst.
  cbn [app matchPlus]. rewrite Hc.
  exact (matchStar_greedy cls run rest k x Hall' Hh Hk).
Qed.

Lemma exec_skip (r : regex) (pre s : jsstring) :
  (forall a u, pre = a ++ u -> u <> [] ->
               rmatch r (u ++ s) None (fun _ c => Some c) = None) ->
  exec r (pre ++ s) = exec r s.
Proof.
  induction pre as [|c pre IH]; intros H; [reflexivity|].
  cbn [app exec].
  pose proof (H [] (c :: pre) eq_refl ltac:(discriminate)) as H0.
  cbn [app] in H0. rewrite H0. apply IH.
  intros a u E Hu. apply (H (c :: a) u); [rewrite E; reflexivity|exact Hu].
Qed.

Lemma exec_here (r : regex) (s : jsstring) (cap : option jsstring) :
  rmatch r s None (fun _ c => Some c) = Some cap -> exec r s = Some cap.
Proof.
  intros H. destruct s; cbn [exec]; rewrite H; reflexivity.
Qed.

Lemma blank_is_no_digit (c : N) : isWhiteSpace c = true -> isDigit c = false.
Proof.
  intros H. destruct (isDigit c) eqn:E; [|reflexivity].
  unfold isDigit in E. apply andb_true_iff in E. destruct E as [E1 E2].
  apply N.leb_le in E1, E2. unfold isWhiteSpace in H.
  repeat (apply orb_true_iff in H; destruct H as [H|H]);
    try (apply andb_true_iff in H; destruct H as [H1 H2];
         apply N.leb_le in H1, H2; lia);
    try (apply N.eqb_eq in H; lia).
Qed.

Lemma digit_is_no_blank (c : N) : isDigit c = true -> isWhiteSpace c = false.
Proof.
  intros H. destruct (isWhiteSpace c) eqn:E; [|reflexivity].
  apply blank_is_no_digit in E. congruence.
Qed.

(** The first place where a text leaves a class is the same however the
    text is cut. *)
Lemma first_break (P : N -> Prop) (A B : jsstring) (d d' : N)
      (r r' : jsstring) :
  Forall P A -> Forall P B -> ~ P d -> ~ P d' ->
  A ++ d :: r = B ++ d' :: r' ->
  A = B /\ d = d' /\ r = r'.
Proof.
  intros HA. revert B. induction HA as [|a A Ha _ IH]; intros B HB Hd Hd' E.
  - destruct B as [|b B]; cbn [app] in E.
    + injection E as -> ->. auto.
    + injection E as -> _. inversion HB; subst. contradiction.
  - destruct B as [|b B]; cbn [app] in E.
    + injection E as -> _. contradiction.
    + injection E as -> E. inversion HB; subst.
      destruct (IH B ltac:(assumption) Hd Hd' E) as (-> & -> & ->). auto.
Qed.
Lemma headOutside_blank_then (cls : N -> bool) (ws rest : jsstring) :
  Forall (fun c => cls c = false) ws -> headOutside cls rest ->
  headOutside cls (ws ++ rest).
Proof.
  intros H Hr. destruct H as [|c ws Hc _]; cbn [app headOutside]; assumption.
Qed.

Lemma blank_no_digits (ws : jsstring) :
  blank ws -> Forall (fun c => isDigit c = false) ws.
Proof.
  intros H. eapply Forall_impl; [exact H|exact blank_is_no_digit].
Qed.

Lemma optionsRe_at (ds ws post : jsstring) :
  digits ds -> blank ws ->
  rmatch optionsRe (ds ++ ws ++ lit "option" ++ post) None
         (fun _ c => Some c) = Some (Some ds).
Proof.
  intros [Hne Hds] Hws. unfold optionsRe, unitWord. cbn [rmatch].
  apply matchPlus_greedy; [exact Hne|exact Hds| |].
  - apply headOutside_blank_then; [exact (blank_no_digits ws Hws)|].
    reflexivity.
  - apply matchStar_greedy; [exact Hws|reflexivity|].
    rewrite matchLit_any_app.
    rewrite firstn_consumed.
    destruct (matchLit false (lit "s") post); reflexivity.
Qed.

Lemma upper_s (c : N) :
  capital c = false -> (upperUnit 0x73 =? upperUnit c) = (c =? 0x73).
Proof.
  unfold capital, upperUnit. intros Hc.
  apply andb_false_iff in Hc. rewrite !N.leb_gt in Hc.
  change ((0x61 <=? 0x73) && (0x73 <=? 0x7A)) with true. cbv iota.
  change (0x73 - 0x20) with 0x53.
  destruct (N.leb_spec 0x61 c), (N.leb_spec c 0x7A); cbn [andb];
    destruct (N.eqb_spec c 0x73); try (apply N.eqb_eq; lia);
    apply N.eqb_neq; lia.
Qed.

Lemma plural_at (ci : bool) (post : jsstring) :
  (ci = true -> Forall (fun c => capital c = false) post) ->
  exists rest,
    post = plural post ++ rest
    /\ match matchLit ci (lit "s") post with
       | Some r => r = rest /\ plural post <> []
       | None => plural post = []
       end.
Proof.
  intros Hcap. destruct post as [|c p].
  - exists []. split; reflexivity.
  - change (lit "s") with [0x73]. cbn [matchLit plural].
    assert (E : unitMatches ci 0x73 c = (c =? 0x73)).
    { unfold unitMatches. destruct ci.
      - apply upper_s. specialize (Hcap eq_refl).
        inversion Hcap; assumption.
      - apply N.eqb_sym. }
    rewrite E. destruct (N.eqb_spec c 0x73) as [->|Hn].
    + exists p. split; [reflexivity|]. split; [reflexivity|discriminate].
    + exists (c :: p). split; reflexivity.
Qed.

Lemma unitWord_at {R} (ci : bool) (w : string) (post : jsstring)
      (cap : option jsstring) (k : jsstring -> option jsstring -> option R)
      (x : R) :
  (ci = true -> Forall (fun c => capital c = false) post) ->
  (forall rest, post = plural post ++ rest -> k rest cap = Some x) ->
  rmatch (unitWord ci w) (lit w ++ post) cap k = Some x.
Proof.
  intros Hcap Hk. unfold unitWord. cbn [rmatch].
  rewrite matchLit_any_app.
  destruct (plural_at ci post Hcap) as (rest & E & Hm).
  destruct (matchLit ci (lit "s") post) as [r|].
  - destruct Hm as [-> Hp]. rewrite (Hk rest E). reflexivity.
  - rewrite (Hk post); [reflexivity|]. rewrite Hm. reflexivity.
Qed.

Lemma unitWord_miss {R} (ci : bool) (p c : N) (w u : jsstring)
      (cap : option jsstring) (k : jsstring -> option jsstring -> option R) :
  unitMatches ci p c = false ->
  rmatch (Seq (Lit ci (p :: w)) (Opt (Lit ci (lit "s")))) (c :: u) cap k
  = None.
Proof.
  intros H. cbn [rmatch matchLit]. rewrite H. reflexivity.
Qed.

Lemma duration_at (ci : bool) (ds ws u post : jsstring)
      (cap : option jsstring) :
  digits ds -> blank ws -> In u unitWords ->
  (ci = true -> Forall (fun c => capital c = false) post) ->
  rmatch (Group (durationRe ci)) (ds ++ ws ++ u ++ post) cap
         (fun _ c => Some c)
  = Some (Some (ds ++ ws ++ u ++ plural post)).
Proof.
  intros [Hne Hds] Hws Hu Hcap.
  assert (Hhead : headOutside isDigit (u ++ post)
                  /\ headOutside isWhiteSpace (u ++ post)).
  { cbn [unitWords In] in Hu.
    destruct Hu as [<-|[<-|[<-|[]]]]; split; reflexivity. }
  destruct Hhead as [Hhd Hhw].
  unfold durationRe. cbn [rmatch].
  apply matchPlus_greedy; [exact Hne|exact Hds| |].
  { apply headOutside_blank_then; [exact (blank_no_digits ws Hws)|exact Hhd]. }
  apply matchStar_greedy; [exact Hws|exact Hhw|].
  assert (Hk : forall rest, post = plural post ++ rest ->
     Some (Some (firstn (length (ds ++ ws ++ u ++ post) - length rest)
                        (ds ++ ws ++ u ++ post)))
     = Some (Some (ds ++ ws ++ u ++ plural post))).
  { intros rest E.
    replace (ds ++ ws ++ u ++ post)
      with ((ds ++ ws ++ u ++ plural post) ++ rest)
      by (rewrite <- !app_assoc, <- E; reflexivity).
    rewrite firstn_consumed. reflexivity. }
  match goal with |- context [rmatch _ _ _ ?k] => set (K := k) in * end.
  cbn [unitWords In] in Hu. destruct Hu as [<-|[<-|[<-|[]]]].
  - rewrite (unitWord_at ci "day" post cap K _ Hcap Hk). reflexivity.
  - change (unitWord ci "day")
      with (Seq (Lit ci (0x64 :: lit "ay")) (Opt (Lit ci (lit "s")))).
    change (lit "week" ++ post) with (0x77 :: lit "eek" ++ post) at 1.
    rewrite unitWord_miss by (destruct ci; reflexivity).
    rewrite (unitWord_at ci "week" post cap K _ Hcap Hk). reflexivity.
  - change (unitWord ci "day")
      with (Seq (Lit ci (0x64 :: lit "ay")) (Opt (Lit ci (lit "s")))).
    change (unitWord ci "week")
      with (Seq (Lit ci (0x77 :: lit "eek")) (Opt (Lit ci (lit "s")))).
    change (lit "month" ++ post) with (0x6D :: lit "onth" ++ post) at 1 2.
    rewrite !unitWord_miss by (destruct ci; reflexivity).
    rewrite (unitWord_at ci "month" post cap K _ Hcap Hk). reflexivity.
Qed.
Lemma no_capital_of (w : jsstring) :
  forallb (fun c => negb (capital c)) w = true ->
  Forall (fun c => capital c = false) w.
Proof.
  induction w as [|c w IH]; cbn [forallb]; intros H; constructor;
    apply andb_true_iff in H; destruct H as [H1 H2];
    [apply negb_true_iff; exact H1|exact (IH H2)].
Qed.

Lemma no_digit_of (w : jsstring) :
  forallb (fun c => negb (isDigit c)) w = true -> noDigit w.
Proof.
  induction w as [|c w IH]; cbn [forallb]; intros H; constructor;
    apply andb_true_iff in H; destruct H as [H1 H2];
    [apply negb_true_iff; exact H1|exact (IH H2)].
Qed.

Lemma timelineRe_at (ws0 ds ws u post : jsstring) :
  blank ws0 -> digits ds -> blank ws -> In u unitWords ->
  Forall (fun c => capital c = false) post ->
  rmatch timelineRe (lit "timeline" ++ ws0 ++ ds ++ ws ++ u ++ post) None
         (fun _ c => Some c)
  = Some (Some (ds ++ ws ++ u ++ plural post)).
Proof.
  intros Hws0 Hds Hws Hu Hcap.
  change (rmatch timelineRe ?s None ?k)
    with (match matchLit true (lit "timeline") s with
          | Some s' =>
            matchStar isWhiteSpace s'
                      (fun s'' => rmatch (Group (durationRe true)) s'' None k)
          | None => None
          end).
  rewrite matchLit_any_app.
  apply matchStar_greedy; [exact Hws0| |].
  - destruct Hds as [Hne Hd]. destruct Hd as [|d ds Hd _]; [congruence|].
    exact (digit_is_no_blank d Hd).
  - apply duration_at; auto.
Qed.


Lemma percentTail_at (ws1 ds ws2 post : jsstring) (cap : option jsstring) :
  blank ws1 -> digits ds -> blank ws2 ->
  rmatch percentTailRe (ws1 ++ ds ++ ws2 ++ lit "%" ++ post) cap
         (fun _ c => Some c) = Some (Some ds).
Proof.
  intros Hws1 [Hne Hds] Hws2. unfold percentTailRe. cbn [rmatch].
  apply matchStar_greedy; [exact Hws1| |].
  { destruct Hds as [|d ds Hd _]; [congruence|].
    exact (digit_is_no_blank d Hd). }
  apply matchPlus_greedy; [exact Hne|exact Hds| |].
  { apply headOutside_blank_then; [exact (blank_no_digits ws2 Hws2)|].
    reflexivity. }
  apply matchStar_greedy; [exact Hws2|reflexivity|].
  rewrite matchLit_any_app, firstn_consumed. reflexivity.
Qed.

Lemma percentTail_miss (ws0 rest : jsstring) (cap : option jsstring) :
  blank ws0 -> headOutside isDigit rest -> headOutside isWhiteSpace rest ->
  rmatch percentTailRe (ws0 ++ rest) cap (fun _ c => Some c) = None.
Proof.
  intros Hws Hd Hw. unfold percentTailRe. cbn [rmatch].
  induction Hws as [|c ws0 Hc _ IH]; cbn [app].
  - destruct rest as [|c rest]; cbn [matchStar matchPlus]; [reflexivity|].
    cbn [headOutside] in Hd, Hw. rewrite Hw, Hd. reflexivity.
  - cbn [matchStar]. rewrite Hc, IH. cbn [matchPlus].
    rewrite (blank_is_no_digit c Hc). reflexivity.
Qed.

Lemma advanceBeforeRe_at (aw ws1 ds ws2 post : jsstring) :
  advanceWord aw -> blank ws1 -> digits ds -> blank ws2 ->
  rmatch advanceBeforeRe (aw ++ ws1 ++ ds ++ ws2 ++ lit "%" ++ post) None
         (fun _ c => Some c) = Some (Some ds).
Proof.
  intros Haw Hws1 Hds Hws2.
  change (rmatch advanceBeforeRe ?s None ?k)
    with (match
             match matchLit true (lit "advance") s with
             | Some s' => rmatch percentTailRe s' None k
             | None => None
             end
           with
           | Some x => Some x
           | None =>
             match matchLit true (lit "advance") s with
             | Some s' =>
               matchStar isWhiteSpace s'
                 (fun s'' =>
                    match matchLit true (lit "payment") s'' with
                    | Some s3 => rmatch percentTailRe s3 None k
                    | None => None
                    end)
             | None => None
             end
           end).
  destruct Haw as [->|(ws0 & Hws0 & ->)].
  - rewrite matchLit_any_app, percentTail_at by assumption. reflexivity.
  - rewrite <- !app_assoc. rewrite matchLit_any_app.
    rewrite percentTail_miss by (try assumption; reflexivity).
    apply matchStar_greedy; [exact Hws0|reflexivity|].
    rewrite matchLit_any_app. apply percentTail_at; assumption.
Qed.

Lemma advanceAfterRe_at (ds ws1 ws2 post : jsstring) :
  digits ds -> blank ws1 -> blank ws2 ->
  rmatch advanceAfterRe (ds ++ ws1 ++ lit "%" ++ ws2 ++ lit "advance" ++ post)
         None (fun _ c => Some c) = Some (Some ds).
Proof.
  intros [Hne Hds] Hws1 Hws2. unfold advanceAfterRe, advanceWordRe.
  cbn [rmatch].
  apply matchPlus_greedy; [exact Hne|exact Hds| |].
  { apply headOutside_blank_then; [exact (blank_no_digits ws1 Hws1)|].
    reflexivity. }
  apply matchStar_greedy; [exact Hws1|reflexivity|].
  rewrite matchLit_any_app.
  apply matchStar_greedy; [exact Hws2|reflexivity|].
  rewrite matchLit_any_app, firstn_consumed. reflexivity.
Qed.

(** What a match of each pattern says about the text it starts at. *)
Lemma digit_initial (r : regex) (s : jsstring) (cap : option jsstring) :
  r = optionsRe \/ r = bareDurationRe \/ r = advanceAfterRe ->
  rmatch r s None (fun _ c => Some c) = Some cap ->
  exists d more, s = d :: more /\ isDigit d = true.
Proof.
  intros [->|[->| ->]];
    unfold optionsRe, bareDurationRe, durationRe, advanceAfterRe;
    cbn [rmatch]; destruct s as [|c s]; cbn [matchPlus];
    try discriminate; destruct (isDigit c) eqn:E; try discriminate;
    intros _; exists c, s; auto.
Qed.

Lemma percentTail_shape (s : jsstring) (cap cap' : option jsstring) :
  rmatch percentTailRe s cap (fun _ c => Some c) = Some cap' ->
  exists run d more, s = run ++ d :: more /\ blank run /\ isDigit d = true.
Proof.
  unfold percentTailRe. cbn [rmatch]. intros H.
  apply matchStar_sound in H. destruct H as (run & rest & -> & Hrun & H).
  apply matchPlus_sound in H. destruct H as (dr & rest' & -> & Hne & Hd & _).
  destruct Hd as [|d dr Hd _]; [congruence|].
  exists run, d, (dr ++ rest'). auto.
Qed.

Lemma timelineRe_shape (s : jsstring) (cap : option jsstring) :
  Forall (fun c => capital c = false) s ->
  rmatch timelineRe s None (fun _ c => Some c) = Some cap ->
  exists run d more,
    s = lit "timeline" ++ run ++ d :: more /\ blank run /\ isDigit d = true.
Proof.
  intros Hs. unfold timelineRe, durationRe. cbn [rmatch].
  destruct (matchLit true (lit "timeline") s) as [s1|] eqn:E; [|discriminate].
  apply matchLit_ci_exact in E;
    [|apply no_capital_of; reflexivity|exact Hs].
  subst s. intros H.
  apply matchStar_sound in H. destruct H as (run & rest & -> & Hrun & H).
  apply matchPlus_sound in H. destruct H as (dr & rest' & -> & Hne & Hd & _).
  destruct Hd as [|d dr Hd _]; [congruence|].
  exists run, d, (dr ++ rest'). auto.
Qed.

Lemma advanceBeforeRe_shape (s : jsstring) (cap : option jsstring) :
  Forall (fun c => capital c = false) s ->
  rmatch advanceBeforeRe s None (fun _ c => Some c) = Some cap ->
  exists aw run d more,
    s = aw ++ run ++ d :: more /\ advanceWord aw /\ blank run
    /\ isDigit d = true.
Proof.
  intros Hs.
  change (rmatch advanceBeforeRe s None (fun _ c => Some c))
    with (match
             match matchLit true (lit "advance") s with
             | Some s' => rmatch percentTailRe s' None (fun _ c => Some c)
             | None => None
             end
           with
           | Some x => Some x
           | None =>
             match matchLit true (lit "advance") s with
             | Some s' =>
               matchStar isWhiteSpace s'
                 (fun s'' =>
                    match matchLit true (lit "payment") s'' with
                    | Some s3 =>
                      rmatch percentTailRe s3 None (fun _ c => Some c)
                    | None => None
                    end)
             | None => None
             end
           end).
  destruct (matchLit true (lit "advance") s) as [s1|] eqn:E; [|discriminate].
  apply matchLit_ci_exact in E;
    [|apply no_capital_of; reflexivity|exact Hs].
  subst s.
  destruct (rmatch percentTailRe s1 None _) as [c1|] eqn:E1.
  - intros _. apply percentTail_shape in E1.
    destruct E1 as (run & d & more & -> & Hrun & Hd).
    exists (lit "advance"), run, d, more.
    split; [reflexivity|]. split; [left; reflexivity|]. auto.
  - intros H. apply matchStar_sound in H.
    destruct H as (ws0 & rest & -> & Hws0 & H).
    destruct (matchLit true (lit "payment") rest) as [s3|] eqn:E3;
      [|discriminate].
    apply matchLit_ci_exact in E3; [|apply no_capital_of; reflexivity|].
    + subst rest. apply percentTail_shape in H.
      destruct H as (run & d & more & -> & Hrun & Hd).
      exists (lit "advance" ++ ws0 ++ lit "payment"), run, d, more.
      split; [rewrite <- !app_assoc; reflexivity|].
      split; [right; exists ws0; auto|]. auto.
    + apply Forall_app in Hs. destruct Hs as [_ Hs].
      apply Forall_app in Hs. destruct Hs as [_ Hs]. exact Hs.
Qed.

Lemma last_break (P : N -> Prop) (x y : jsstring) (e e' : N)
      (r r' : jsstring) :
  Forall P r -> Forall P r' -> ~ P e -> ~ P e' ->
  (x ++ [e]) ++ r = (y ++ [e']) ++ r' ->
  x = y /\ e = e' /\ r = r'.
Proof.
  intros Hr Hr' He He' E. apply (f_equal (@rev N)) in E.
  rewrite !rev_app_distr in E. cbn [rev app] in E.
  apply (first_break P) in E;
    [|apply Forall_rev; assumption|apply Forall_rev; assumption
     |assumption|assumption].
  destruct E as (E1 & E2 & E3).
  apply (f_equal (@rev N)) in E1, E3. rewrite !rev_involutive in E1, E3.
  auto.
Qed.

Lemma includes_here (w b : jsstring) : startsWith (w ++ b) w = true.
Proof.
  induction w as [|c w IH]; cbn [app startsWith];
    [destruct b; reflexivity|].
  rewrite N.eqb_refl. exact IH.
Qed.

Lemma includes_mid (a w b : jsstring) : includes (a ++ w ++ b) w = true.
Proof.
  induction a as [|c a IH]; cbn [app].
  - destruct (w ++ b) eqn:E; cbn [includes]; rewrite <- E, includes_here;
      reflexivity.
  - cbn [includes]. rewrite IH. apply orb_true_r.
Qed.
Lemma digit_is_digit_free_contra (d : N) :
  isDigit d = true -> ~ isDigit d = false.
Proof. intros H. rewrite H. discriminate. Qed.

Lemma blank_contra (e : N) :
  isWhiteSpace e = false -> ~ isWhiteSpace e = true.
Proof. intros H. rewrite H. discriminate. Qed.

Lemma digit_initial_skip (r : regex) (pre s : jsstring) :
  r = optionsRe \/ r = bareDurationRe \/ r = advanceAfterRe ->
  noDigit pre -> exec r (pre ++ s) = exec r s.
Proof.
  intros Hr Hpre. apply exec_skip. intros a u E Hu.
  destruct (rmatch r (u ++ s) None _) as [cap|] eqn:Em; [|reflexivity].
  exfalso. apply (digit_initial r _ cap Hr) in Em.
  destruct Em as (d & more & E' & Hd).
  destruct u as [|c u]; [congruence|]. cbn [app] in E'.
  injection E' as -> _. unfold noDigit in Hpre. rewrite E in Hpre.
  apply Forall_app in Hpre. destruct Hpre as [_ Hpre].
  inversion Hpre; subst. congruence.
Qed.

Lemma keyword_anchor (u x y ws0 run rest more : jsstring) (e e' d0 d : N) :
  noDigit u -> noDigit (x ++ [e]) -> noDigit (y ++ [e']) ->
  blank ws0 -> blank run ->
  isWhiteSpace e = false -> isWhiteSpace e' = false ->
  isDigit d0 = true -> isDigit d = true ->
  u ++ (x ++ [e]) ++ ws0 ++ d0 :: rest = (y ++ [e']) ++ run ++ d :: more ->
  u ++ x = y /\ e = e' /\ ws0 = run.
Proof.
  intros Hu Hx Hy Hws Hrun He He' Hd0 Hd E.
  assert (E1 : (u ++ (x ++ [e]) ++ ws0) ++ d0 :: rest
               = ((y ++ [e']) ++ run) ++ d :: more).
  { rewrite <- !app_assoc. rewrite <- !app_assoc in E. exact E. }
  apply (first_break (fun c => isDigit c = false)) in E1.
  - destruct E1 as (E1 & _ & _).
    assert (E2 : ((u ++ x) ++ [e]) ++ ws0 = (y ++ [e']) ++ run).
    { rewrite <- !app_assoc. rewrite <- !app_assoc in E1. exact E1. }
    apply (last_break (fun c => isWhiteSpace c = true)) in E2;
      auto using blank_contra.
  - apply Forall_app. split; [exact Hu|]. apply Forall_app. split;
      [exact Hx|exact (blank_no_digits ws0 Hws)].
  - apply Forall_app. split; [exact Hy|exact (blank_no_digits run Hrun)].
  - exact (digit_is_digit_free_contra d0 Hd0).
  - exact (digit_is_digit_free_contra d Hd).
Qed.

Lemma nonempty_app_self (u w : jsstring) : u ++ w = w -> u = [].
Proof.
  intros E. apply (f_equal (@length N)) in E. rewrite length_app in E.
  destruct u; [reflexivity|]. cbn [length] in E. lia.
Qed.

Lemma timeline_keyword_read (pre ws0 ds ws u post : jsstring) :
  Forall (fun c => capital c = false)
         (pre ++ lit "timeline" ++ ws0 ++ ds ++ ws ++ u ++ post) ->
  noDigit pre -> blank ws0 -> digits ds -> blank ws -> In u unitWords ->
  exec timelineRe (pre ++ lit "timeline" ++ ws0 ++ ds ++ ws ++ u ++ post)
  = Some (Some (ds ++ ws ++ u ++ plural post)).
Proof.
  intros Hcap Hpre Hws0 Hds Hws Hu.
  assert (Hpost : Forall (fun c => capital c = false) post).
  { repeat (apply Forall_app in Hcap; destruct Hcap as [_ Hcap]).
    exact Hcap. }
  rewrite exec_skip.
  - apply exec_here. apply timelineRe_at; assumption.
  - intros a v E Hv.
    destruct (rmatch timelineRe _ None _) as [cap|] eqn:Em; [|reflexivity].
    exfalso. apply timelineRe_shape in Em.
    + destruct Em as (run & d & more & E2 & Hrun & Hd).
      destruct Hds as [Hne Hds]. destruct Hds as [|d0 ds Hd0 _]; [congruence|].
      unfold noDigit in Hpre. rewrite E in Hpre.
      apply Forall_app in Hpre. destruct Hpre as [_ Hv'].
      change (lit "timeline") with (lit "timelin" ++ [0x65]) in E2.
      cbn [app] in E2.
      apply (keyword_anchor v (lit "timelin") (lit "timelin") ws0 run
               (ds ++ ws ++ u ++ post) more 0x65 0x65 d0 d) in E2;
        try assumption; try reflexivity;
        try (apply no_digit_of; reflexivity).
      destruct E2 as (E2 & _). apply nonempty_app_self in E2. congruence.
    + rewrite E in Hcap. rewrite <- app_assoc in Hcap.
      apply Forall_app in Hcap. destruct Hcap as [_ Hcap]. exact Hcap.
Qed.

Lemma timeline_needs_keyword (s : jsstring) (cap : option jsstring) :
  Forall (fun c => capital c = false) s ->
  exec timelineRe s = Some cap -> includes s (lit "timeline") = true.
Proof.
  intros Hs H. apply exec_sound in H. destruct H as (pre & t & -> & H).
  apply timelineRe_shape in H.
  - destruct H as (run & d & more & -> & _). apply includes_mid.
  - apply Forall_app in Hs. destruct Hs as [_ Hs]. exact Hs.
Qed.

Lemma bare_duration_read (pre ds ws u post : jsstring) :
  noDigit pre -> digits ds -> blank ws -> In u unitWords ->
  exec bareDurationRe (pre ++ ds ++ ws ++ u ++ post)
  = Some (Some (ds ++ ws ++ u ++ plural post)).
Proof.
  intros Hpre Hds Hws Hu.
  rewrite digit_initial_skip by auto.
  apply exec_here. unfold bareDurationRe. apply duration_at; auto.
  discriminate.
Qed.

Lemma options_read (pre ds ws post : jsstring) :
  noDigit pre -> digits ds -> blank ws ->
  exec optionsRe (pre ++ ds ++ ws ++ lit "option" ++ post) = Some (Some ds).
Proof.
  intros Hpre Hds Hws. rewrite digit_initial_skip by auto.
  apply exec_here. apply optionsRe_at; assumption.
Qed.

Lemma advanceWord_ends (aw : jsstring) :
  advanceWord aw ->
  exists x e, aw = x ++ [e] /\ isWhiteSpace e = false /\ noDigit aw.
Proof.
  intros [->|(ws0 & Hws0 & ->)].
  - exists (lit "advanc"), 0x65. split; [reflexivity|].
    split; [reflexivity|]. apply no_digit_of. reflexivity.
  - exists (lit "advance" ++ ws0 ++ lit "paymen"), 0x74.
    split; [rewrite <- !app_assoc; reflexivity|]. split; [reflexivity|].
    apply Forall_app. split; [apply no_digit_of; reflexivity|].
    apply Forall_app. split; [exact (blank_no_digits ws0 Hws0)|].
    apply no_digit_of. reflexivity.
Qed.

Lemma advanceWord_starts (aw : jsstring) :
  advanceWord aw -> exists more, aw = lit "advance" ++ more.
Proof.
  intros [->|(ws0 & _ & ->)]; eexists;
    [symmetry; apply app_nil_r|reflexivity].
Qed.

Lemma advanceWord_no_prefix (u aw aw' : jsstring) :
  advanceWord aw -> advanceWord aw' -> u ++ aw = aw' -> u = [].
Proof.
  intros [->|(ws0 & Hws0 & ->)] [->|(ws0' & Hws0' & ->)] E.
  - exact (nonempty_app_self u _ E).
  - exfalso.
    assert (E' : (u ++ lit "advanc") ++ [0x65]
                 = (lit "advance" ++ ws0' ++ lit "paymen") ++ [0x74]).
    { rewrite <- !app_assoc. exact E. }
    apply app_inj_tail in E'. destruct E' as [_ E']. discriminate.
  - exfalso.
    assert (E' : (u ++ lit "advance" ++ ws0 ++ lit "paymen") ++ [0x74]
                 = lit "advanc" ++ [0x65]).
    { rewrite <- !app_assoc. exact E. }
    apply app_inj_tail in E'. destruct E' as [_ E']. discriminate.
  - assert (E' : (u ++ lit "advance" ++ ws0) ++ lit "payment"
                 = (lit "advance" ++ ws0') ++ lit "payment").
    { rewrite <- !app_assoc. exact E. }
    apply app_inv_tail in E'.
    assert (E2 : ((u ++ lit "advanc") ++ [0x65]) ++ ws0
                 = (lit "advanc" ++ [0x65]) ++ ws0').
    { rewrite <- !app_assoc. exact E'. }
    apply (last_break (fun c => isWhiteSpace c = true)) in E2;
      try assumption; try (apply blank_contra; reflexivity).
    destruct E2 as (E2 & _). exact (nonempty_app_self u _ E2).
Qed.

Lemma advance_before_read (pre aw ws1 ds ws2 post : jsstring) :
  Forall (fun c => capital c = false)
         (pre ++ aw ++ ws1 ++ ds ++ ws2 ++ lit "%" ++ post) ->
  noDigit pre -> advanceWord aw -> blank ws1 -> digits ds -> blank ws2 ->
  exec advanceBeforeRe (pre ++ aw ++ ws1 ++ ds ++ ws2 ++ lit "%" ++ post)
  = Some (Some ds).
Proof.
  intros Hcap Hpre Haw Hws1 Hds Hws2.
  rewrite exec_skip.
  - apply exec_here. apply advanceBeforeRe_at; assumption.
  - intros a v E Hv.
    destruct (rmatch advanceBeforeRe _ None _) as [cap|] eqn:Em;
      [|reflexivity].
    exfalso. apply advanceBeforeRe_shape in Em.
    + destruct Em as (aw' & run & d & more & E2 & Haw' & Hrun & Hd).
      destruct Hds as [Hne Hds]. destruct Hds as [|d0 ds Hd0 _]; [congruence|].
      unfold noDigit in Hpre. rewrite E in Hpre.
      apply Forall_app in Hpre. destruct Hpre as [_ Hv'].
      destruct (advanceWord_ends aw Haw) as (x & e & Ex & He & Hx).
      destruct (advanceWord_ends aw' Haw') as (y & e' & Ey & He' & Hy).
      rewrite Ex, Ey in E2. rewrite Ex in Hx. rewrite Ey in Hy.
      cbn [app] in E2.
      apply (keyword_anchor v x y ws1 run
               (ds ++ ws2 ++ lit "%" ++ post) more e e' d0 d) in E2;
        try assumption.
      destruct E2 as (E2 & E3 & _).
      assert (E4 : v ++ aw = aw').
      { rewrite Ex, Ey, <- E3, <- E2, <- app_assoc. reflexivity. }
      apply (advanceWord_no_prefix v aw aw' Haw Haw') in E4. congruence.
    + rewrite E in Hcap. rewrite <- app_assoc in Hcap.
      apply Forall_app in Hcap. destruct Hcap as [_ Hcap]. exact Hcap.
Qed.

Lemma last_of_run (P : N -> Prop) (a m b : jsstring) (x : N) :
  Forall P m -> m <> [] -> a ++ m = b ++ [x] -> P x.
Proof.
  intros Hm Hne E. destruct (exists_last Hne) as (m' & z & ->).
  rewrite app_assoc in E. apply app_inj_tail in E. destruct E as [_ <-].
  apply Forall_app in Hm. destruct Hm as [_ Hm]. inversion Hm; assumption.
Qed.

Lemma advance_before_absent (pre ds tail : jsstring) :
  Forall (fun c => capital c = false) (pre ++ ds ++ tail) ->
  noDigit pre -> noDigit tail -> Forall (fun c => isDigit c = true) ds ->
  includes pre (lit "advance") = false ->
  exec advanceBeforeRe (pre ++ ds ++ tail) = None.
Proof.
  intros Hcap Hpre Htail Hds Hinc.
  destruct (exec advanceBeforeRe _) as [cap|] eqn:Ex; [|reflexivity].
  exfalso. apply exec_sound in Ex. destruct Ex as (pre' & t & E & Hm).
  apply advanceBeforeRe_shape in Hm.
  2:{ rewrite E in Hcap. apply Forall_app in Hcap. destruct Hcap as [_ H].
      exact H. }
  destruct Hm as (aw & run & d & more & -> & Haw & Hrun & Hd).
  assert (Hz : forall l, pre' ++ aw ++ run = pre ++ l ->
                         Forall (fun c => isDigit c = true) l -> False).
  { intros l El Hl. destruct l as [|c l].
    - rewrite app_nil_r in El. rewrite <- El in Hinc.
      destruct (advanceWord_starts aw Haw) as (w2 & ->).
      rewrite <- !app_assoc in Hinc. rewrite includes_mid in Hinc.
      discriminate.
    - assert (Hne : c :: l <> []) by discriminate.
      destruct (exists_last Hne) as (l' & z & El').
      rewrite El' in El, Hl.
      apply Forall_app in Hl. destruct Hl as [_ Hl]. inversion Hl; subst.
      destruct (advanceWord_ends aw Haw) as (x & e & Ex & He & Hx).
      assert (Hnd : isDigit z = false).
      { apply (last_of_run (fun c => isDigit c = false) pre' (aw ++ run)
                           (pre ++ l') z).
        - apply Forall_app. split; [exact Hx|exact (blank_no_digits run Hrun)].
        - rewrite Ex. destruct x; discriminate.
        - rewrite El, <- app_assoc. reflexivity. }
      congruence. }
  assert (E' : (pre' ++ aw ++ run) ++ d :: more = pre ++ ds ++ tail).
  { rewrite <- !app_assoc. symmetry. exact E. }
  apply app_eq_app in E'. destruct E' as (l & [[E1 E2]|[E1 E2]]).
  - (* the match reaches past [pre] *)
    symmetry in E2. apply app_eq_app in E2.
    destruct E2 as (l2 & [[E3 E4]|[E3 E4]]).
    + (* [l = ds ++ l2], the digit lies in the tail *)
      destruct l2 as [|c l2].
      * rewrite app_nil_r in E3. subst l.
        destruct tail as [|c tail]; [discriminate|].
        cbn [app] in E4. injection E4 as <- _.
        inversion Htail; subst. congruence.
      * cbn [app] in E4. rewrite E4 in Htail.
        assert (Hin : Forall (fun c => isDigit c = false) (d :: more)).
        { change (c :: l2 ++ d :: more) with ((c :: l2) ++ d :: more)
            in Htail.
          apply Forall_app in Htail. destruct Htail as [_ H]. exact H. }
        inversion Hin; subst. congruence.
    + (* [ds = l ++ l2] *)
      rewrite E3 in Hds. apply Forall_app in Hds. destruct Hds as [Hl _].
      exact (Hz l E1 Hl).
  - (* the digit lies in [pre] *)
    destruct l as [|c l].
    + rewrite app_nil_r in E1. apply (Hz []); [|constructor].
      rewrite app_nil_r. symmetry. exact E1.
    + cbn [app] in E2. injection E2 as <- _.
      unfold noDigit in Hpre. rewrite E1 in Hpre.
      apply Forall_app in Hpre. destruct Hpre as [_ H].
      inversion H; subst. congruence.
Qed.

Lemma keyword_skip (r : regex) (k0 : jsstring) (e : N) (pre s' : jsstring) :
  (forall t cap,
      Forall (fun c => capital c = false) t ->
      rmatch r t None (fun _ c => Some c) = Some cap ->
      exists more, t = (k0 ++ [e]) ++ more) ->
  Forall (fun c => capital c = false) (pre ++ (k0 ++ [e]) ++ s') ->
  beginsFirst pre (k0 ++ [e]) ->
  exec r (pre ++ (k0 ++ [e]) ++ s') = exec r ((k0 ++ [e]) ++ s').
Proof.
  intros Hshape Hcap Hfirst. unfold beginsFirst in Hfirst.
  rewrite removelast_last in Hfirst.
  apply exec_skip. intros a v E Hv.
  destruct (rmatch r _ None _) as [cap|] eqn:Em; [|reflexivity].
  exfalso. apply Hshape in Em.
  2:{ rewrite E, <- app_assoc in Hcap. apply Forall_app in Hcap.
      destruct Hcap as [_ H]. exact H. }
  destruct Em as (more & E2).
  assert (Hcut : exists l, v ++ k0 = (k0 ++ [e]) ++ l).
  { assert (E3 : (v ++ k0) ++ e :: s' = (k0 ++ [e]) ++ more).
    { rewrite <- !app_assoc. rewrite <- !app_assoc in E2. exact E2. }
    apply app_eq_app in E3. destruct E3 as (l & [[E3 _]|[E3 _]]).
    - exists l. exact E3.
    - exists []. rewrite app_nil_r.
      assert (Hl : l = []).
      { apply (f_equal (@length N)) in E3. rewrite !length_app in E3.
        cbn [length] in E3. destruct v; [congruence|].
        destruct l; [reflexivity|]. cbn [length] in E3. lia. }
      rewrite Hl, app_nil_r in E3. symmetry. exact E3. }
  destruct Hcut as (l & El).
  rewrite E, <- app_assoc, El, includes_mid in Hfirst. discriminate.
Qed.

Lemma timeline_first_read (pre ws0 ds ws u post : jsstring) :
  Forall (fun c => capital c = false)
         (pre ++ lit "timeline" ++ ws0 ++ ds ++ ws ++ u ++ post) ->
  beginsFirst pre (lit "timeline") ->
  blank ws0 -> digits ds -> blank ws -> In u unitWords ->
  exec timelineRe (pre ++ lit "timeline" ++ ws0 ++ ds ++ ws ++ u ++ post)
  = Some (Some (ds ++ ws ++ u ++ plural post)).
Proof.
  intros Hcap Hfirst Hws0 Hds Hws Hu.
  assert (Hpost : Forall (fun c => capital c = false) post).
  { repeat (apply Forall_app in Hcap; destruct Hcap as [_ Hcap]).
    exact Hcap. }
  change (lit "timeline") with (lit "timelin" ++ [0x65]) in Hcap, Hfirst |- *.
  rewrite keyword_skip; [|clear; intros t cap Ht Hm|exact Hcap|exact Hfirst].
  - apply exec_here.
    change (lit "timelin" ++ [0x65]) with (lit "timeline").
    apply timelineRe_at; assumption.
  - apply (timelineRe_shape t cap Ht) in Hm.
    destruct Hm as (run & d & more & -> & _). eexists. reflexivity.
Qed.

Lemma advance_first_read (pre aw ws1 ds ws2 post : jsstring) :
  Forall (fun c => capital c = false)
         (pre ++ aw ++ ws1 ++ ds ++ ws2 ++ lit "%" ++ post) ->
  beginsFirst pre (lit "advance") ->
  advanceWord aw -> blank ws1 -> digits ds -> blank ws2 ->
  exec advanceBeforeRe (pre ++ aw ++ ws1 ++ ds ++ ws2 ++ lit "%" ++ post)
  = Some (Some ds).
Proof.
  intros Hcap Hfirst Haw Hws1 Hds Hws2.
  destruct (advanceWord_starts aw Haw) as (w2 & Ew).
  assert (Eq : pre ++ aw ++ ws1 ++ ds ++ ws2 ++ lit "%" ++ post
               = pre ++ (lit "advanc" ++ [0x65])
                     ++ w2 ++ ws1 ++ ds ++ ws2 ++ lit "%" ++ post).
  { rewrite Ew, <- !app_assoc. reflexivity. }
  rewrite Eq in Hcap |- *.
  change (lit "advance") with (lit "advanc" ++ [0x65]) in Hfirst.
  rewrite keyword_skip; [|clear; intros t cap Ht Hm|exact Hcap|exact Hfirst].
  - apply exec_here.
    replace ((lit "advanc" ++ [0x65])
               ++ w2 ++ ws1 ++ ds ++ ws2 ++ lit "%" ++ post)
      with (aw ++ ws1 ++ ds ++ ws2 ++ lit "%" ++ post)
      by (rewrite Ew, <- !app_assoc; reflexivity).
    apply advanceBeforeRe_at; assumption.
  - apply (advanceBeforeRe_shape t cap Ht) in Hm.
    destruct Hm as (aw' & run & d & more & -> & Haw' & _).
    destruct (advanceWord_starts aw' Haw') as (w3 & ->).
    eexists. rewrite <- !app_assoc. reflexivity.
Qed.

Lemma match_needs_digit (r : regex) (s : jsstring) (cap : option jsstring) :
  r = optionsRe \/ r = timelineRe \/ r = bareDurationRe
  \/ r = advanceBeforeRe \/ r = advanceAfterRe ->
  Forall (fun c => capital c = false) s ->
  rmatch r s None (fun _ c => Some c) = Some cap ->
  exists a d b, s = a ++ d :: b /\ isDigit d = true.
Proof.
  intros Hr Hs Hm.
  assert (Hdi : forall r', r' = r ->
            r' = optionsRe \/ r' = bareDurationRe \/ r' = advanceAfterRe ->
            exists a d b, s = a ++ d :: b /\ isDigit d = true).
  { intros r' -> Hr'. destruct (digit_initial r s cap Hr' Hm)
      as (d & more & -> & Hd). exists [], d, more. auto. }
  destruct Hr as [E|[E|[E|[E|E]]]].
  - apply (Hdi r eq_refl). auto.
  - subst r. apply (timelineRe_shape s cap Hs) in Hm.
    destruct Hm as (run & d & more & -> & _ & Hd).
    exists (lit "timeline" ++ run), d, more.
    split; [rewrite <- app_assoc; reflexivity|exact Hd].
  - apply (Hdi r eq_refl). auto.
  - subst r. apply (advanceBeforeRe_shape s cap Hs) in Hm.
    destruct Hm as (aw & run & d & more & -> & _ & _ & Hd).
    exists (aw ++ run), d, more.
    split; [rewrite <- app_assoc; reflexivity|exact Hd].
  - apply (Hdi r eq_refl). auto.
Qed.

Lemma digit_free_no_match (r : regex) (s : jsstring) :
  r = optionsRe \/ r = timelineRe \/ r = bareDurationRe
  \/ r = advanceBeforeRe \/ r = advanceAfterRe ->
  Forall (fun c => capital c = false) s -> noDigit s ->
  exec r s = None.
Proof.
  intros Hr Hs Hnd. destruct (exec r s) as [cap|] eqn:E; [|reflexivity].
  exfalso. apply exec_sound in E. destruct E as (pre & t & -> & Hm).
  apply Forall_app in Hs. destruct Hs as [_ Hs].
  apply (match_needs_digit r t cap Hr Hs) in Hm.
  destruct Hm as (a & d & b & -> & Hd).
  apply Forall_app in Hnd. destruct Hnd as [_ Hnd].
  apply Forall_app in Hnd. destruct Hnd as [_ Hnd].
  inversion Hnd; subst. congruence.
Qed.
Lemma options_of (t : jsstring) :
  options (extractRequirements t)
  = match exec optionsRe (toLowerCase t) with
    | Some g => parseInt (orEmpty g)
    | None => 3
    end.
Proof. reflexivity. Qed.

Lemma timeline_of (t : jsstring) :
  timeline (extractRequirements t)
  = orMatch (exec timelineRe (toLowerCase t))
            (exec bareDurationRe (toLowerCase t)) ≫= id.
Proof. reflexivity. Qed.

Lemma advance_of (t : jsstring) :
  advance (extractRequirements t)
  = match orMatch (exec advanceBeforeRe (toLowerCase t))
                  (exec advanceAfterRe (toLowerCase t)) with
    | Some g => Some (parseInt (orEmpty g))
    | None => None
    end.
Proof. reflexivity. Qed.

Lemma labour_of (t : jsstring) :
  labour_and_material (extractRequirements t)
  = includes (toLowerCase t) (lit "labour")
    && includes (toLowerCase t) (lit "material").
Proof.
  change (labour_and_material (extractRequirements t))
    with (includes (toLowerCase t) (lit "labour")
          && (includes (toLowerCase t) (lit "material")
              || includes (toLowerCase t) (lit "material"))).
  rewrite orb_diag. reflexivity.
Qed.

Lemma requirements_by_lowered (t t' : jsstring) :
  toLowerCase t = toLowerCase t' ->
  extractRequirements t = extractRequirements t'.
Proof. intros E. unfold extractRequirements. rewrite E. reflexivity. Qed.


(** C6. When the dependency gate is satisfied, the utterance
    ["3 options, timeline 5 days, advance 30%"] gives the tool call
    [generate_quote_options] with the requirements
    [{options: 3, timeline: "5 days", advance: 30}] (and
    [labour_and_material: false]); and for any utterance whose lower-cased
    text has no count of options (digits, optional white space, "option")
    the options count is 3.

    The requirements of the tool call are read from the text of the turn,
    whatever it is, and only through its lower-cased form: every spelling of
    the sample in capital and small letters gives the same requirements.
    What is read, on a text written in ASCII and Indic-script characters
    (numbers of at most fifteen digits, which [parseInt] gives exactly):
    - the number before the first ["option"], when no digit precedes it, is
      the options count;
    - after the first ["timeline"] (or after a ["timeline"] that no digit
      precedes), a number and a unit [day], [week] or [month], with its
      [s] if it is there, are the timeline, white space included;
    - with no ["timeline"] in the text, the first number, followed by a
      unit, is the timeline in the same way;
    - after the first ["advance"] or ["advance payment"] (or one that no
      digit precedes), a number and [%] are the advance;
    - a number, [%] and ["advance"], with no digit and no ["advance"]
      before them and no digit after, are the advance;
    - a text without digits gives 3 options, no timeline and no advance;
    - the labour flag says that the text has both ["labour"] and
      ["material"]. *)
Theorem quote_parameters (s : ConversationState) (a : LeadAnalyzeLikeResponse)
        (m : option MeasurementData) (i : LeadIntentResult) :
  LeadIntent.intent i = GENERATE_QUOTE_OPTIONS ->
  quoteDependencies s m = [] ->
  (exists tc,
      toolCall (runLeadOrchestrator
                  {| text := lit "3 options, timeline 5 days, advance 30%";
                     state := s; analysis := a; intent := Some i;
                     measurements := m |}) = Some tc
      /\ name tc = lit "generate_quote_options"
      /\ requirements (arguments tc)
         = {| options := 3; timeline := Some (lit "5 days");
              advance := Some 30; labour_and_material := false |})
  /\ (forall t : jsstring,
         ~ mentionsOptionCount (toLowerCase t) ->
         exists tc,
           toolCall (runLeadOrchestrator
                       {| text := t; state := s; analysis := a;
                          intent := Some i; measurements := m |}) = Some tc
           /\ name tc = lit "generate_quote_options"
           /\ options (requirements (arguments tc)) = 3)
  /\ (forall t : jsstring,
         exists tc,
           toolCall (runLeadOrchestrator
                       {| text := t; state := s; analysis := a;
                          intent := Some i; measurements := m |}) = Some tc
           /\ name tc = lit "generate_quote_options"
           /\ requirements (arguments tc) = extractRequirements t)
  /\ (forall t : jsstring,
         plainCased t ->
         toLowerCase t = lit "3 options, timeline 5 days, advance 30%" ->
         extractRequirements t
         = {| options := 3; timeline := Some (lit "5 days");
              advance := Some 30; labour_and_material := false |})
  /\ (forall t pre ds ws post : jsstring,
         plainCased t ->
         toLowerCase t = pre ++ ds ++ ws ++ lit "option" ++ post ->
         noDigit pre -> digits ds -> (length ds <= 15)%nat -> blank ws ->
         options (extractRequirements t) = parseInt ds)
  /\ (forall t pre ws0 ds ws u post : jsstring,
         plainCased t ->
         toLowerCase t = pre ++ lit "timeline" ++ ws0 ++ ds ++ ws ++ u ++ post ->
         noDigit pre \/ beginsFirst pre (lit "timeline") ->
         blank ws0 -> digits ds -> blank ws -> In u unitWords ->
         timeline (extractRequirements t)
         = Some (ds ++ ws ++ u ++ plural post))
  /\ (forall t pre ds ws u post : jsstring,
         plainCased t ->
         toLowerCase t = pre ++ ds ++ ws ++ u ++ post ->
         includes (toLowerCase t) (lit "timeline") = false ->
         noDigit pre -> digits ds -> blank ws -> In u unitWords ->
         timeline (extractRequirements t)
         = Some (ds ++ ws ++ u ++ plural post))
  /\ (forall t pre aw ws1 ds ws2 post : jsstring,
         plainCased t ->
         toLowerCase t = pre ++ aw ++ ws1 ++ ds ++ ws2 ++ lit "%" ++ post ->
         noDigit pre \/ beginsFirst pre (lit "advance") ->
         advanceWord aw -> blank ws1 -> digits ds -> (length ds <= 15)%nat ->
         blank ws2 ->
         advance (extractRequirements t) = Some (parseInt ds))
  /\ (forall t pre ds ws1 ws2 post : jsstring,
         plainCased t ->
         toLowerCase t
         = pre ++ ds ++ ws1 ++ lit "%" ++ ws2 ++ lit "advance" ++ post ->
         noDigit pre -> noDigit post ->
         includes pre (lit "advance") = false ->
         digits ds -> (length ds <= 15)%nat -> blank ws1 -> blank ws2 ->
         advance (extractRequirements t) = Some (parseInt ds))
  /\ (forall t : jsstring,
         plainCased t -> noDigit (toLowerCase t) ->
         options (extractRequirements t) = 3
         /\ timeline (extractRequirements t) = None
         /\ advance (extractRequirements t) = None)
  /\ (forall t : jsstring,
         plainCased t ->
         labour_and_material (extractRequirements t)
         = includes (toLowerCase t) (lit "labour")
           && includes (toLowerCase t) (lit "material")).
Proof.
  intros Hq Hd.
  split.
  { eexists. rewrite (run_quote_satisfied _ s a m i Hq Hd).
    split; [reflexivity|]. split; [reflexivity|].
    cbn [requirements arguments]. exact sample_requirements. }
  split.
  { intros t Hno. eexists. rewrite (run_quote_satisfied t s a m i Hq Hd).
    split; [reflexivity|]. split; [reflexivity|].
    cbn [requirements arguments]. rewrite options_of.
    destruct (exec optionsRe (toLowerCase t)) as [cap|] eqn:E; [|reflexivity].
    exfalso. apply Hno. exact (optionsRe_sound _ _ E). }
  split.
  { intros t. eexists. rewrite (run_quote_satisfied t s a m i Hq Hd).
    split; [reflexivity|]. split; reflexivity. }
  split.
  { intros t _ E.
    rewrite (requirements_by_lowered t
               (lit "3 options, timeline 5 days, advance 30%")).
    - exact sample_requirements.
    - rewrite E. reflexivity. }
  split.
  { intros t pre ds ws post _ E Hpre Hds _ Hws.
    rewrite options_of, E, options_read by assumption. reflexivity. }
  split.
  { intros t pre ws0 ds ws u post _ E Hfirst Hws0 Hds Hws Hu.
    pose proof (lowered_no_capital t) as Hcap. rewrite E in Hcap.
    rewrite timeline_of, E.
    destruct Hfirst as [Hpre|Hfirst].
    - rewrite timeline_keyword_read by assumption. reflexivity.
    - rewrite timeline_first_read by assumption. reflexivity. }
  split.
  { intros t pre ds ws u post _ E Hno Hpre Hds Hws Hu.
    rewrite timeline_of.
    destruct (exec timelineRe (toLowerCase t)) as [cap|] eqn:Et.
    - apply timeline_needs_keyword in Et; [congruence|].
      apply lowered_no_capital.
    - rewrite E, bare_duration_read by assumption. reflexivity. }
  split.
  { intros t pre aw ws1 ds ws2 post _ E Hfirst Haw Hws1 Hds _ Hws2.
    pose proof (lowered_no_capital t) as Hcap. rewrite E in Hcap.
    rewrite advance_of, E.
    destruct Hfirst as [Hpre|Hfirst].
    - rewrite advance_before_read by assumption. reflexivity.
    - rewrite advance_first_read by assumption. reflexivity. }
  split.
  { intros t pre ds ws1 ws2 post _ E Hpre Hpost Hinc Hds _ Hws1 Hws2.
    pose proof (lowered_no_capital t) as Hcap. rewrite E in Hcap.
    rewrite advance_of, E.
    rewrite advance_before_absent; try assumption.
    - cbn [orMatch]. rewrite digit_initial_skip by auto.
      rewrite (exec_here _ _ _ (advanceAfterRe_at ds ws1 ws2 post
                                                  Hds Hws1 Hws2)).
      reflexivity.
    - apply Forall_app. split; [exact (blank_no_digits ws1 Hws1)|].
      apply Forall_app. split; [apply no_digit_of; reflexivity|].
      apply Forall_app. split; [exact (blank_no_digits ws2 Hws2)|].
      apply Forall_app. split; [apply no_digit_of; reflexivity|exact Hpost].
    - exact (proj2 Hds). }
  split.
  { intros t _ Hnd.
    pose proof (lowered_no_capital t) as Hcap.
    rewrite options_of, timeline_of, advance_of.
    rewrite !digit_free_no_match by auto 6.
    split; [reflexivity|]. split; reflexivity. }
  intros t _. apply labour_of.
Qed.

Lemma quote_parameters_witness :
  (exists tc,
      toolCall (runLeadOrchestrator
                  {| text := lit "3 options, timeline 5 days, advance 30%";
                     state := boundTo (lit "x") LS_LEAD_CAPTURED None;
                     analysis := {| success := true; data := None;
                                    error := None |};
                     intent := Some quoteIntent;
                     measurements := Some sqftOnly |}) = Some tc
      /\ name tc = lit "generate_quote_options"
      /\ requirements (arguments tc)
         = {| options := 3; timeline := Some (lit "5 days");
              advance := Some 30; labour_and_material := false |})
  /\ options (extractRequirements
                (lit "Mujhe 5 OPTIONS chahiye, Timeline 2 Weeks, Advance Payment 40 %"))
     = 5
  /\ timeline (extractRequirements
                 (lit "Mujhe 5 OPTIONS chahiye, Timeline 2 Weeks, Advance Payment 40 %"))
     = Some (lit "2 weeks")
  /\ advance (extractRequirements
                (lit "Mujhe 5 OPTIONS chahiye, Timeline 2 Weeks, Advance Payment 40 %"))
     = Some 40
  /\ timeline (extractRequirements (lit "Kaam 10 Days mein")) = Some (lit "10 days")
  /\ advance (extractRequirements (lit "Paint ka kaam, 25 % Advance Payment do"))
     = Some 25
  /\ (options (extractRequirements (lit "Quote bhejo")) = 3
      /\ timeline (extractRequirements (lit "Quote bhejo")) = None
      /\ advance (extractRequirements (lit "Quote bhejo")) = None).
Proof.
  destruct (quote_parameters (boundTo (lit "x") LS_LEAD_CAPTURED None)
                             {| success := true; data := None; error := None |}
                             (Some sqftOnly) quoteIntent)
    as (H1 & _ & _ & _ & H5 & H6 & H7 & H8 & H9 & H10 & _).
  - reflexivity.
  - vm_compute. reflexivity.
  - split; [exact H1|]. split; [|split; [|split; [|split; [|split]]]].
    + apply (H5 _ (lit "mujhe ") (lit "5") (lit " ")
                (lit "s chahiye, timeline 2 weeks, advance payment 40 %")).
      * vm_compute. reflexivity.
      * vm_compute. reflexivity.
      * apply no_digit_of. reflexivity.
      * split; [discriminate|]. repeat constructor.
      * cbn [length lit]. vm_compute. lia.
      * repeat constructor.
    + apply (H6 _ (lit "mujhe 5 options chahiye, ") (lit " ") (lit "2")
                (lit " ") (lit "week") (lit "s, advance payment 40 %")).
      * vm_compute. reflexivity.
      * vm_compute. reflexivity.
      * right. vm_compute. reflexivity.
      * repeat constructor.
      * split; [discriminate|]. repeat constructor.
      * repeat constructor.
      * right. left. reflexivity.
    + apply (H8 _ (lit "mujhe 5 options chahiye, timeline 2 weeks, ")
                (lit "advance payment") (lit " ") (lit "40") (lit " ") []).
      * vm_compute. reflexivity.
      * vm_compute. reflexivity.
      * right. vm_compute. reflexivity.
      * right. exists (lit " "). split; [repeat constructor|reflexivity].
      * repeat constructor.
      * split; [discriminate|]. repeat constructor.
      * vm_compute. lia.
      * repeat constructor.
    + apply (H7 _ (lit "kaam ") (lit "10") (lit " ") (lit "day")
                (lit "s mein")).
      * vm_compute. reflexivity.
      * vm_compute. reflexivity.
      * vm_compute. reflexivity.
      * apply no_digit_of. reflexivity.
      * split; [discriminate|]. repeat constructor.
      * repeat constructor.
      * left. reflexivity.
    + apply (H9 _ (lit "paint ka kaam, ") (lit "25") (lit " ") (lit " ")
                (lit " payment do")).
      * vm_compute. reflexivity.
      * vm_compute. reflexivity.
      * apply no_digit_of. reflexivity.
      * apply no_digit_of. reflexivity.
      * vm_compute. reflexivity.
      * split; [discriminate|]. repeat constructor.
      * vm_compute. lia.
      * repeat constructor.
      * repeat constructor.
    + apply (H10 (lit "Quote bhejo")).
      * vm_compute. reflexivity.
      * apply no_digit_of. reflexivity.
Defined.

(** * Further properties *)

(** ** The step flow, call by call *)

Lemma streq_eq (a b : jsstring) : streq a b = true <-> a = b.
Proof.
  split; [|intros ->; apply streq_refl].
  revert b. induction a as [|x a IH]; intros [|y b]; cbn [streq];
    try discriminate; [reflexivity|].
  intros H. apply andb_true_iff in H. destruct H as [Hx Ha].
  apply N.eqb_eq in Hx. rewrite (IH _ Ha), Hx. reflexivity.
Qed.

Lemma streq_neq (a b : jsstring) : a <> b -> streq a b = false.
Proof.
  intros H. destruct (streq a b) eqn:E; [|reflexivity].
  apply streq_eq in E. contradiction.
Qed.

(** The call on a plain message for a chat that has a state. *)
Lemma handle_plain (store : gmap Z ProjectConversation.ConversationState)
      (chatId : Z) (t : jsstring) (st : ProjectConversation.ConversationState) :
  plainText t ->
  store !! chatId = Some st ->
  ProjectConversation.handleProjectConversation store chatId (Some t)
  = if ProjectConversation.waitingForAssignConfirm st then
      if ProjectConversation.isYes (trim t) then
        (delete chatId store,
         {| ProjectConversation.replyText := Some ProjectConversation.assignedReply;
            ProjectConversation.savePayload :=
              Some (ProjectConversation.payloadOf st true) |})
      else if ProjectConversation.isNo (trim t) then
        (delete chatId store,
         {| ProjectConversation.replyText := Some ProjectConversation.notAssignedReply;
            ProjectConversation.savePayload :=
              Some (ProjectConversation.payloadOf st false) |})
      else (store, ProjectConversation.replyOnly
                     (Some ProjectConversation.repromptReply))
    else
      match ProjectConversation.PROJECT_FLOW !! ProjectConversation.step st with
      | None => (delete chatId store, ProjectConversation.replyOnly None)
      | Some q =>
        let answers' :=
          ProjectConversation.setAnswer (ProjectConversation.answers st)
                                        (fst q) (trim t) in
        let step' := S (ProjectConversation.step st) in
        if (step' <? length ProjectConversation.PROJECT_FLOW)%nat then
          (<[chatId := {| ProjectConversation.step := step';
                          ProjectConversation.answers := answers';
                          ProjectConversation.waitingForAssignConfirm :=
                            ProjectConversation.waitingForAssignConfirm st |}]>
             store,
           ProjectConversation.replyOnly
             (snd <$> ProjectConversation.PROJECT_FLOW !! step'))
        else
          (<[chatId := {| ProjectConversation.step := step';
                          ProjectConversation.answers := answers';
                          ProjectConversation.waitingForAssignConfirm := true |}]>
             store,
           ProjectConversation.replyOnly
             (Some (ProjectConversation.assignQuestion
                      (if truthy (ProjectConversation.ans_rooms_count answers')
                       then default [] (ProjectConversation.ans_rooms_count answers')
                       else lit "कमरे"))))
      end.
Proof.
  intros [Hne Hns] Hst.
  unfold ProjectConversation.handleProjectConversation. cbv zeta.
  change (default [] (Some t)) with t.
  destruct (trim t) as [|c r] eqn:Et; [congruence|].
  rewrite (streq_neq _ _ Hns), Hst. reflexivity.
Qed.

Lemma handle_empty (store : gmap Z ProjectConversation.ConversationState)
      (chatId : Z) (rawText : option jsstring) :
  trim (default [] rawText) = [] ->
  ProjectConversation.handleProjectConversation store chatId rawText
  = (store, ProjectConversation.replyOnly None).
Proof.
  intros H. unfold ProjectConversation.handleProjectConversation.
  cbv zeta. rewrite H. reflexivity.
Qed.

Lemma handle_unknown (store : gmap Z ProjectConversation.ConversationState)
      (chatId : Z) (t : jsstring) :
  plainText t ->
  store !! chatId = None ->
  ProjectConversation.handleProjectConversation store chatId (Some t)
  = (store, ProjectConversation.replyOnly None).
Proof.
  intros [Hne Hns] Hst.
  unfold ProjectConversation.handleProjectConversation. cbv zeta.
  change (default [] (Some t)) with t.
  destruct (trim t) as [|c r] eqn:Et; [congruence|].
  rewrite (streq_neq _ _ Hns), Hst. reflexivity.
Qed.

(** Every text is empty, the start command or plain. *)
Lemma text_cases (rawText : option jsstring) :
  trim (default [] rawText) = []
  \/ trim (default [] rawText) = lit "/project"
  \/ exists t, rawText = Some t /\ plainText t.
Proof.
  destruct rawText as [t|].
  - change (default [] (Some t)) with t.
    destruct (trim t) as [|c r] eqn:Et; [auto|].
    destruct (streq (c :: r) (lit "/project")) eqn:Es.
    + apply streq_eq in Es. auto.
    + right. right. exists t. split; [reflexivity|]. unfold plainText.
      rewrite Et. split; [discriminate|].
      intros E. rewrite E, streq_refl in Es. discriminate.
  - left. vm_compute. reflexivity.
Qed.

(** X1. A call never touches the state of another chat. *)
Theorem other_chats_untouched
        (store : gmap Z ProjectConversation.ConversationState)
        (chatId other : Z) (rawText : option jsstring) :
  other <> chatId ->
  fst (ProjectConversation.handleProjectConversation store chatId rawText)
  !! other
  = store !! other.
Proof.
  intros Hne.
  destruct (text_cases rawText) as [He|[Hs|(t & -> & Hp)]].
  - rewrite (handle_empty _ _ _ He). reflexivity.
  - rewrite (handle_start _ _ _ Hs). cbn [fst].
    apply lookup_insert_ne. congruence.
  - destruct (store !! chatId) as [st|] eqn:Hst.
    + rewrite (handle_plain _ _ _ _ Hp Hst). cbv zeta.
      repeat match goal with
             | |- context [if ?c then _ else _] => destruct c
             | |- context [match ?o with Some _ => _ | None => _ end] =>
               destruct o
             end;
        cbn [fst];
        first [ reflexivity
              | apply lookup_delete_ne; congruence
              | apply lookup_insert_ne; congruence ].
    + rewrite (handle_unknown _ _ _ Hp Hst). reflexivity.
Qed.

Lemma other_chats_untouched_witness :
  fst (ProjectConversation.handleProjectConversation
         chatInProgress 7%Z (Some (lit "do kamre")))
  !! 8%Z
  = chatInProgress !! 8%Z.
Proof.
  apply (other_chats_untouched chatInProgress 7%Z 8%Z (Some (lit "do kamre"))).
  discriminate.
Defined.

Lemma flowStateOk_initial : flowStateOk ProjectConversation.initialState.
Proof.
  split; [cbn; lia|]. cbn. split; intros; discriminate.
Qed.

(** X2. The calls keep every state of the store within the flow: the step
    never passes the number of questions, and a chat waits for the
    confirmation exactly when it has answered them all. *)
Theorem flow_keeps_store_ok
        (store : gmap Z ProjectConversation.ConversationState)
        (chatId : Z) (rawText : option jsstring) :
  storeOk store ->
  storeOk (fst (ProjectConversation.handleProjectConversation
                  store chatId rawText)).
Proof.
  intros Hok.
  assert (Hins : forall st, flowStateOk st -> storeOk (<[chatId := st]> store)).
  { intros st Hst c st' Hl. destruct (decide (chatId = c)) as [->|Hn].
    - rewrite lookup_insert_eq in Hl. injection Hl as <-. exact Hst.
    - rewrite lookup_insert_ne in Hl by exact Hn. exact (Hok _ _ Hl). }
  assert (Hdel : storeOk (delete chatId store)).
  { intros c st' Hl. destruct (decide (chatId = c)) as [->|Hn].
    - rewrite lookup_delete_eq in Hl. discriminate.
    - rewrite lookup_delete_ne in Hl by exact Hn. exact (Hok _ _ Hl). }
  destruct (text_cases rawText) as [He|[Hs|(t & -> & Hp)]].
  - rewrite (handle_empty _ _ _ He). exact Hok.
  - rewrite (handle_start _ _ _ Hs). apply Hins, flowStateOk_initial.
  - destruct (store !! chatId) as [st|] eqn:Hst.
    + rewrite (handle_plain _ _ _ _ Hp Hst). cbv zeta.
      destruct (ProjectConversation.waitingForAssignConfirm st) eqn:Hw.
      * destruct (ProjectConversation.isYes (trim t)); [exact Hdel|].
        destruct (ProjectConversation.isNo (trim t)); [exact Hdel|exact Hok].
      * destruct (ProjectConversation.PROJECT_FLOW
                    !! ProjectConversation.step st) as [q|] eqn:Hq;
          [|exact Hdel].
        apply lookup_lt_Some in Hq.
        destruct (Nat.ltb_spec (S (ProjectConversation.step st))
                               (length ProjectConversation.PROJECT_FLOW))
          as [Hlt|Hge]; cbn [fst]; apply Hins; split;
          cbn [ProjectConversation.step
                 ProjectConversation.waitingForAssignConfirm];
          try rewrite Hw; lia.
    + rewrite (handle_unknown _ _ _ Hp Hst). exact Hok.
Qed.

Lemma storeOk_chatInProgress : storeOk chatInProgress.
Proof.
  intros c st Hl. unfold chatInProgress in Hl.
  apply lookup_singleton_Some in Hl. destruct Hl as [_ <-].
  split; cbn; [lia|]. split; [discriminate|lia].
Qed.

Lemma flow_keeps_store_ok_witness :
  storeOk (fst (ProjectConversation.handleProjectConversation
                  chatInProgress 7%Z (Some (lit "do kamre")))).
Proof.
  apply (flow_keeps_store_ok chatInProgress 7%Z (Some (lit "do kamre"))).
  exact storeOk_chatInProgress.
Defined.

(** X3. On a store within the flow, a call gives no reply exactly when the
    text is empty, or the chat has no state and the text is not the start
    command; such a call changes nothing and emits no payload.  (The branch
    that deletes a state with no question left is never taken.) *)
Theorem no_reply_exactly_when_ignored
        (store : gmap Z ProjectConversation.ConversationState)
        (chatId : Z) (rawText : option jsstring) :
  storeOk store ->
  let '(store', r) :=
    ProjectConversation.handleProjectConversation store chatId rawText in
  (ProjectConversation.replyText r = None
   <-> trim (default [] rawText) = []
       \/ (store !! chatId = None
           /\ trim (default [] rawText) <> lit "/project"))
  /\ (ProjectConversation.replyText r = None ->
      store' = store /\ ProjectConversation.savePayload r = None).
Proof.
  intros Hok.
  assert (Hstart : lit "/project" <> [])
    by (intro E; vm_compute in E; discriminate E).
  destruct (text_cases rawText) as [He|[Hs|(t & -> & Hp)]].
  - rewrite (handle_empty _ _ _ He). split; [|auto]. split; auto.
  - rewrite (handle_start _ _ _ Hs). cbn [ProjectConversation.replyOnly
                                           ProjectConversation.replyText].
    split; [split|]; try discriminate.
    rewrite Hs. intros [E|[_ E]]; congruence.
  - change (default [] (Some t)) with t. destruct Hp as [Hne Hns].
    destruct (store !! chatId) as [st|] eqn:Hst.
    + rewrite (handle_plain _ _ _ _ (conj Hne Hns) Hst). cbv zeta.
      assert (Hno : ~ (trim t = [] \/ Some st = None /\ trim t <> lit "/project"))
        by (intros [E|[E _]]; congruence).
      destruct (ProjectConversation.waitingForAssignConfirm st) eqn:Hw.
      * destruct (ProjectConversation.isYes (trim t));
          [|destruct (ProjectConversation.isNo (trim t))];
          (split; [split; [discriminate|intros H; destruct (Hno H)]
                  |discriminate]).
      * destruct (Hok _ _ Hst) as [Hle Hiff]. rewrite Hw in Hiff.
        assert (Hlt : (ProjectConversation.step st
                       < length ProjectConversation.PROJECT_FLOW)%nat).
        { destruct (Nat.eq_dec (ProjectConversation.step st)
                               (length ProjectConversation.PROJECT_FLOW))
            as [E|E]; [|lia].
          apply Hiff in E. discriminate E. }
        destruct (lookup_lt_is_Some_2 _ _ Hlt) as [q ->].
        destruct (Nat.ltb_spec (S (ProjectConversation.step st))
                               (length ProjectConversation.PROJECT_FLOW))
          as [Hlt'|Hge].
        -- destruct (lookup_lt_is_Some_2 _ _ Hlt') as [q' ->].
           split; [split; [discriminate|intros H; destruct (Hno H)]
                  |discriminate].
        -- split; [split; [discriminate|intros H; destruct (Hno H)]
                  |discriminate].
    + rewrite (handle_unknown _ _ _ (conj Hne Hns) Hst).
      split; [|auto]. split; auto.
Qed.

Lemma no_reply_exactly_when_ignored_witness :
  let '(store', r) :=
    ProjectConversation.handleProjectConversation
      chatInProgress 8%Z (Some (lit "do kamre")) in
  (ProjectConversation.replyText r = None
   <-> trim (default [] (Some (lit "do kamre"))) = []
       \/ (chatInProgress !! 8%Z = None
           /\ trim (default [] (Some (lit "do kamre"))) <> lit "/project"))
  /\ (ProjectConversation.replyText r = None ->
      store' = chatInProgress /\ ProjectConversation.savePayload r = None).
Proof.
  apply (no_reply_exactly_when_ignored chatInProgress 8%Z
                                       (Some (lit "do kamre"))).
  exact storeOk_chatInProgress.
Defined.

(** X4. A save payload is emitted only for a chat that waits for the
    confirmation; the call deletes the state of the chat, the payload holds
    the two stored answers, and [assign_resources] is the outcome of the yes
    test. *)
Theorem payload_ends_the_flow
        (store : gmap Z ProjectConversation.ConversationState)
        (chatId : Z) (rawText : option jsstring)
        (p : ProjectConversation.ProjectConversationSavePayload) :
  ProjectConversation.savePayload
    (snd (ProjectConversation.handleProjectConversation store chatId rawText))
  = Some p ->
  exists st t,
    rawText = Some t
    /\ store !! chatId = Some st
    /\ ProjectConversation.waitingForAssignConfirm st = true
    /\ fst (ProjectConversation.handleProjectConversation store chatId rawText)
       = delete chatId store
    /\ p = {| ProjectConversation.save_work_location :=
                ProjectConversation.ans_work_location
                  (ProjectConversation.answers st);
              ProjectConversation.save_rooms_count :=
                ProjectConversation.ans_rooms_count
                  (ProjectConversation.answers st);
              ProjectConversation.assign_resources :=
                ProjectConversation.isYes (trim t) |}.
Proof.
  destruct (text_cases rawText) as [He|[Hs|(t & -> & Hp)]].
  - rewrite (handle_empty _ _ _ He). discriminate.
  - rewrite (handle_start _ _ _ Hs). discriminate.
  - destruct (store !! chatId) as [st|] eqn:Hst.
    + rewrite (handle_plain _ _ _ _ Hp Hst). cbv zeta.
      destruct (ProjectConversation.waitingForAssignConfirm st) eqn:Hw.
      * destruct (ProjectConversation.isYes (trim t)) eqn:Hy;
          [|destruct (ProjectConversation.isNo (trim t))];
          cbn [snd fst ProjectConversation.savePayload
                   ProjectConversation.replyOnly];
          intros E; try discriminate E; injection E as <-;
          exists st, t; rewrite ?Hy; repeat split;
          first [assumption | reflexivity].
      * destruct (ProjectConversation.PROJECT_FLOW
                    !! ProjectConversation.step st);
          [destruct (_ <? _)%nat|]; discriminate.
    + rewrite (handle_unknown _ _ _ Hp Hst). discriminate.
Qed.

Lemma payload_ends_the_flow_witness :
  exists st t,
    Some (lit "कर दो।") = Some t
    /\ ({[ 7%Z := awaiting (lit "2BHK flat") (lit "do kamre") ]}
        : gmap Z ProjectConversation.ConversationState) !! 7%Z = Some st
    /\ ProjectConversation.waitingForAssignConfirm st = true
    /\ fst (ProjectConversation.handleProjectConversation
              {[ 7%Z := awaiting (lit "2BHK flat") (lit "do kamre") ]}
              7%Z (Some (lit "कर दो।")))
       = delete 7%Z {[ 7%Z := awaiting (lit "2BHK flat") (lit "do kamre") ]}
    /\ {| ProjectConversation.save_work_location := Some (lit "2BHK flat");
          ProjectConversation.save_rooms_count := Some (lit "do kamre");
          ProjectConversation.assign_resources := true |}
       = {| ProjectConversation.save_work_location :=
              ProjectConversation.ans_work_location
                (ProjectConversation.answers st);
            ProjectConversation.save_rooms_count :=
              ProjectConversation.ans_rooms_count
                (ProjectConversation.answers st);
            ProjectConversation.assign_resources :=
              ProjectConversation.isYes (trim t) |}.
Proof.
  apply (payload_ends_the_flow
           {[ 7%Z := awaiting (lit "2BHK flat") (lit "do kamre") ]} 7%Z
           (Some (lit "कर दो।"))).
  vm_compute. reflexivity.
Defined.

Lemma trim_start_command : trim (lit "/project") = lit "/project".
Proof. vm_compute. reflexivity. Qed.

(** Unrecognised messages leave a waiting chat as it is. *)
Lemma deliver_unrecognised
      (store : gmap Z ProjectConversation.ConversationState) (chatId : Z)
      (st : ProjectConversation.ConversationState) (noise : list jsstring) :
  store !! chatId = Some st ->
  ProjectConversation.waitingForAssignConfirm st = true ->
  Forall unrecognised noise ->
  deliver store chatId noise = store.
Proof.
  intros Hst Hw Hall. induction Hall as [|t noise (Hp & Hy & Hn) _ IH];
    [reflexivity|].
  cbn [deliver]. rewrite (handle_plain _ _ _ _ Hp Hst), Hw, Hy, Hn.
  exact IH.
Qed.

(** X5. A whole flow.  After the start command and two plain answers,
    followed by any number of messages the gate does not recognise, the
    chat waits with the two trimmed answers stored (whatever state it had
    before); the next plain message then ends the flow with a payload of
    these answers when it is a yes or a no, and is answered by the reprompt,
    the store unchanged, when it is neither.  The messages that the gate
    reads are written in ASCII and Indic-script characters. *)
Theorem flow_from_start_to_payload
        (store : gmap Z ProjectConversation.ConversationState) (chatId : Z)
        (a1 a2 final : jsstring) (noise : list jsstring) :
  plainText a1 -> plainText a2 ->
  Forall plainCased noise -> Forall unrecognised noise ->
  plainCased final -> plainText final ->
  let s := deliver store chatId ([lit "/project"; a1; a2] ++ noise) in
  s !! chatId = Some (awaiting (trim a1) (trim a2))
  /\ ProjectConversation.handleProjectConversation s chatId (Some final)
     = if ProjectConversation.isYes (trim final) then
         (delete chatId s,
          {| ProjectConversation.replyText :=
               Some ProjectConversation.assignedReply;
             ProjectConversation.savePayload :=
               Some {| ProjectConversation.save_work_location := Some (trim a1);
                       ProjectConversation.save_rooms_count := Some (trim a2);
                       ProjectConversation.assign_resources := true |} |})
       else if ProjectConversation.isNo (trim final) then
         (delete chatId s,
          {| ProjectConversation.replyText :=
               Some ProjectConversation.notAssignedReply;
             ProjectConversation.savePayload :=
               Some {| ProjectConversation.save_work_location := Some (trim a1);
                       ProjectConversation.save_rooms_count := Some (trim a2);
                       ProjectConversation.assign_resources := false |} |})
       else
         (s, {| ProjectConversation.replyText :=
                  Some ProjectConversation.repromptReply;
                ProjectConversation.savePayload := None |}).
Proof.
  intros H1 H2 _ Hnoise _ Hf.
  assert (Hs : deliver store chatId ([lit "/project"; a1; a2] ++ noise)
               !! chatId = Some (awaiting (trim a1) (trim a2))).
  { cbn [app deliver].
    rewrite (handle_start store chatId (Some (lit "/project"))
                          trim_start_command).
    cbn [fst].
    set (store0 := <[chatId := ProjectConversation.initialState]> store).
    set (st1 := {| ProjectConversation.step := 1;
                   ProjectConversation.answers :=
                     {| ProjectConversation.ans_work_location := Some (trim a1);
                        ProjectConversation.ans_rooms_count := None |};
                   ProjectConversation.waitingForAssignConfirm := false |}).
    assert (E1 : fst (ProjectConversation.handleProjectConversation
                        store0 chatId (Some a1))
                 = <[chatId := st1]> store0).
    { rewrite (handle_plain store0 chatId a1 ProjectConversation.initialState
                            H1 (lookup_insert_eq _ _ _)).
      reflexivity. }
    rewrite E1.
    assert (E2 : fst (ProjectConversation.handleProjectConversation
                        (<[chatId := st1]> store0) chatId (Some a2))
                 = <[chatId := awaiting (trim a1) (trim a2)]>
                     (<[chatId := st1]> store0)).
    { rewrite (handle_plain _ chatId a2 st1 H2 (lookup_insert_eq _ _ _)).
      reflexivity. }
    rewrite E2.
    rewrite (deliver_unrecognised _ chatId (awaiting (trim a1) (trim a2)) noise
                                  (lookup_insert_eq _ _ _) eq_refl Hnoise).
    apply lookup_insert_eq. }
  cbv zeta. split; [exact Hs|].
  rewrite (handle_plain _ chatId final _ Hf Hs). reflexivity.
Qed.

Lemma flow_from_start_to_payload_witness :
  let s := deliver chatInProgress 7%Z
                   ([lit "/project"; lit " 2BHK flat "; lit "do kamre"]
                      ++ [lit "kya?"]) in
  s !! 7%Z = Some (awaiting (trim (lit " 2BHK flat ")) (trim (lit "do kamre")))
  /\ ProjectConversation.handleProjectConversation s 7%Z (Some (lit "Haan."))
     = if ProjectConversation.isYes (trim (lit "Haan.")) then
         (delete 7%Z s,
          {| ProjectConversation.replyText :=
               Some ProjectConversation.assignedReply;
             ProjectConversation.savePayload :=
               Some {| ProjectConversation.save_work_location :=
                         Some (trim (lit " 2BHK flat "));
                       ProjectConversation.save_rooms_count :=
                         Some (trim (lit "do kamre"));
                       ProjectConversation.assign_resources := true |} |})
       else if ProjectConversation.isNo (trim (lit "Haan.")) then
         (delete 7%Z s,
          {| ProjectConversation.replyText :=
               Some ProjectConversation.notAssignedReply;
             ProjectConversation.savePayload :=
               Some {| ProjectConversation.save_work_location :=
                         Some (trim (lit " 2BHK flat "));
                       ProjectConversation.save_rooms_count :=
                         Some (trim (lit "do kamre"));
                       ProjectConversation.assign_resources := false |} |})
       else
         (s, {| ProjectConversation.replyText :=
                  Some ProjectConversation.repromptReply;
                ProjectConversation.savePayload := None |}).
Proof.
  apply (flow_from_start_to_payload chatInProgress 7%Z (lit " 2BHK flat ")
                                    (lit "do kamre") (lit "Haan.")
                                    [lit "kya?"]).
  - split; intro E; vm_compute in E; discriminate E.
  - split; intro E; vm_compute in E; discriminate E.
  - constructor; [vm_compute; reflexivity|constructor].
  - constructor; [|constructor].
    split; [split; intro E; vm_compute in E; discriminate E|].
    split; vm_compute; reflexivity.
  - vm_compute. reflexivity.
  - split; intro E; vm_compute in E; discriminate E.
Defined.

(** ** Trimming and stripping *)

Lemma forallb_of_Forall (p : N -> bool) (l : jsstring) :
  Forall (fun c => p c = true) l -> forallb p l = true.
Proof.
  induction 1 as [|c l Hc _ IH]; [reflexivity|].
  cbn [forallb]. rewrite Hc, IH. reflexivity.
Qed.

Lemma dropWhile_all (p : N -> bool) (l : jsstring) :
  forallb p l = true -> dropWhile p l = [].
Proof.
  induction l as [|c l IH]; [reflexivity|]. cbn [forallb dropWhile].
  intros H. apply andb_true_iff in H. destruct H as [-> H]. exact (IH H).
Qed.

Lemma dropWhile_app (p : N -> bool) (x y : jsstring) :
  dropWhile p (x ++ y)
  = if forallb p x then dropWhile p y else dropWhile p x ++ y.
Proof.
  induction x as [|c x IH]; [reflexivity|]. cbn [app forallb dropWhile].
  destruct (p c); [exact IH|reflexivity].
Qed.

Lemma dropWhile_keeps (Q : N -> Prop) (p : N -> bool) (l : jsstring) :
  Forall Q l -> Forall Q (dropWhile p l).
Proof.
  induction 1 as [|c l Hc Hl IH]; [constructor|]. cbn [dropWhile].
  destruct (p c); [exact IH|constructor; assumption].
Qed.

Lemma solidEdges_head (p : N -> bool) (h : jsstring) :
  solidEdges p h = true -> exists c r, h = c :: r /\ p c = false.
Proof.
  destruct h as [|c r]; [discriminate|]. cbn [solidEdges]. intros H.
  apply andb_true_iff in H. destruct H as [H _].
  exists c, r. split; [reflexivity|]. destruct (p c); [discriminate|reflexivity].
Qed.

Lemma solidEdges_rev (p : N -> bool) (h : jsstring) :
  solidEdges p h = true -> exists c r, rev h = c :: r /\ p c = false.
Proof.
  destruct h as [|c0 r0] eqn:Eh; [discriminate|]. rewrite <- Eh.
  intros H. assert (Hne : h <> []) by (rewrite Eh; discriminate).
  assert (Hl : p (List.last h 0) = false).
  { rewrite Eh in H |- *. cbn [solidEdges] in H.
    apply andb_true_iff in H. destruct H as [_ H].
    destruct (p (List.last (c0 :: r0) 0)); [discriminate|reflexivity]. }
  pose proof (app_removelast_last 0 Hne) as E.
  apply (f_equal (@rev N)) in E. rewrite rev_app_distr in E.
  cbn [rev app] in E. eauto.
Qed.

Lemma dropWhile_solid (p : N -> bool) (h y : jsstring) :
  solidEdges p h = true -> dropWhile p (h ++ y) = h ++ y.
Proof.
  intros H. destruct (solidEdges_head _ _ H) as (c & r & -> & Hc).
  cbn [app dropWhile]. rewrite Hc. reflexivity.
Qed.

Lemma dropWhileEnd_solid (p : N -> bool) (x h : jsstring) :
  solidEdges p h = true -> dropWhileEnd p (x ++ h) = x ++ h.
Proof.
  intros H. unfold dropWhileEnd. rewrite rev_app_distr.
  destruct (solidEdges_rev _ _ H) as (c & r & E & Hc). rewrite E.
  cbn [app dropWhile]. rewrite Hc.
  change (c :: r ++ rev x) with ((c :: r) ++ rev x).
  rewrite <- E, <- rev_app_distr. apply rev_involutive.
Qed.

Section Wrapped.
Variables (p q : N -> bool).
Hypothesis p_in_q : forall c, p c = true -> q c = true.

Lemma solidEdges_weaken (h : jsstring) :
  solidEdges q h = true -> solidEdges p h = true.
Proof.
  destruct h as [|c r]; [discriminate|]. cbn [solidEdges].
  intros H. apply andb_true_iff in H. destruct H as [H1 H2].
  apply andb_true_iff. split.
  - destruct (p c) eqn:E; [|reflexivity]. rewrite (p_in_q _ E) in H1.
    discriminate.
  - destruct (p (List.last (c :: r) 0)) eqn:E; [|reflexivity].
    rewrite (p_in_q _ E) in H2. discriminate.
Qed.

(** Removing a run of [p] at both ends of a word wrapped in [q] leaves the
    word wrapped in [q]. *)
Lemma trimmed_stays_wrapped (pre h post : jsstring) :
  Forall (fun c => q c = true) pre ->
  Forall (fun c => q c = true) post ->
  solidEdges q h = true ->
  exists pre' post',
    dropWhileEnd p (dropWhile p (pre ++ h ++ post)) = pre' ++ h ++ post'
    /\ Forall (fun c => q c = true) pre'
    /\ Forall (fun c => q c = true) post'.
Proof.
  intros Hpre Hpost Hq. pose proof (solidEdges_weaken h Hq) as Hp.
  assert (H1 : exists pre', dropWhile p (pre ++ h ++ post) = pre' ++ h ++ post
                            /\ Forall (fun c => q c = true) pre').
  { rewrite dropWhile_app. destruct (forallb p pre).
    - exists []. rewrite (dropWhile_solid _ _ _ Hp). split; [reflexivity|constructor].
    - exists (dropWhile p pre). split; [reflexivity|].
      apply dropWhile_keeps. exact Hpre. }
  destruct H1 as (pre' & -> & Hpre').
  unfold dropWhileEnd. rewrite !rev_app_distr, <- app_assoc, dropWhile_app.
  destruct (forallb p (rev post)).
  - exists pre', []. rewrite app_nil_r. split; [|split; [exact Hpre'|constructor]].
    rewrite <- rev_app_distr. fold (dropWhileEnd p (pre' ++ h)).
    apply dropWhileEnd_solid. exact Hp.
  - exists pre', (rev (dropWhile p (rev post))).
    split; [|split; [exact Hpre'|]].
    + rewrite !rev_app_distr, !rev_involutive, <- app_assoc. reflexivity.
    + apply Forall_rev, dropWhile_keeps, Forall_rev. exact Hpost.
Qed.
End Wrapped.

(** Removing the runs of [q] at both ends of a word wrapped in [q] gives the
    word. *)
Lemma stripped_to_the_word (q : N -> bool) (pre h post : jsstring) :
  Forall (fun c => q c = true) pre ->
  Forall (fun c => q c = true) post ->
  solidEdges q h = true ->
  dropWhileEnd q (dropWhile q (pre ++ h ++ post)) = h.
Proof.
  intros Hpre Hpost Hq.
  rewrite dropWhile_app, (forallb_of_Forall _ _ Hpre), (dropWhile_solid _ _ _ Hq).
  unfold dropWhileEnd. rewrite rev_app_distr, dropWhile_app.
  rewrite (forallb_of_Forall q (rev post)) by (apply Forall_rev; exact Hpost).
  destruct (solidEdges_rev _ _ Hq) as (c & r & E & Hc). rewrite E.
  cbn [dropWhile]. rewrite Hc, <- E. apply rev_involutive.
Qed.

Lemma whiteSpace_is_edge (c : N) : isWhiteSpace c = true -> isEdgePunct c = true.
Proof.
  intros H. unfold isEdgePunct. rewrite H. apply orb_true_iff. left.
  apply orb_true_iff. left. apply orb_true_r.
Qed.

Lemma dropWhile_idem (p : N -> bool) (l : jsstring) :
  dropWhile p (dropWhile p l) = dropWhile p l.
Proof.
  induction l as [|c l IH]; [reflexivity|]. cbn [dropWhile].
  destruct (p c) eqn:E; [exact IH|]. cbn [dropWhile]. rewrite E. reflexivity.
Qed.

Lemma dropWhile_head (p : N -> bool) (l : jsstring) (c : N) (r : jsstring) :
  dropWhile p l = c :: r -> p c = false.
Proof.
  induction l as [|d l IH]; cbn [dropWhile]; [discriminate|].
  destruct (p d) eqn:E; [exact IH|]. intros [= <- _]. exact E.
Qed.

(** What is left of [c :: t] when the run of [p] at its end is removed
    begins with [c], if anything is left. *)
Lemma dropWhileEnd_cons (p : N -> bool) (c : N) (t : jsstring) :
  (p c = true /\ dropWhileEnd p (c :: t) = [])
  \/ exists t', dropWhileEnd p (c :: t) = c :: t'.
Proof.
  unfold dropWhileEnd. cbn [rev]. rewrite dropWhile_app.
  destruct (forallb p (rev t)).
  - cbn [dropWhile]. destruct (p c); [left; auto|right; exists []; reflexivity].
  - right. rewrite rev_app_distr. cbn [rev app]. eauto.
Qed.

Lemma trim_idem (s : jsstring) : trim (trim s) = trim s.
Proof.
  unfold trim. set (y := dropWhile isWhiteSpace s).
  assert (Hy : dropWhile isWhiteSpace (dropWhileEnd isWhiteSpace y)
               = dropWhileEnd isWhiteSpace y).
  { destruct y as [|c y'] eqn:Ey; [reflexivity|].
    pose proof (dropWhile_head _ _ _ _ Ey) as Hc.
    destruct (dropWhileEnd_cons isWhiteSpace c y') as [[Ht _]|[t' ->]];
      [congruence|].
    cbn [dropWhile]. rewrite Hc. reflexivity. }
  rewrite Hy. unfold dropWhileEnd.
  rewrite rev_involutive, dropWhile_idem. reflexivity.
Qed.

Lemma dropWhileEnd_after_solid (p : N -> bool) (h t : jsstring) :
  solidEdges p h = true ->
  dropWhileEnd p (h ++ t) = h ++ dropWhileEnd p t.
Proof.
  intros H. unfold dropWhileEnd. rewrite rev_app_distr, dropWhile_app.
  destruct (forallb p (rev t)) eqn:E.
  - rewrite (dropWhile_all _ _ E). cbn [rev]. rewrite app_nil_r.
    destruct (solidEdges_rev _ _ H) as (c & r & Er & Hc). rewrite Er.
    cbn [dropWhile]. rewrite Hc, <- Er. apply rev_involutive.
  - rewrite rev_app_distr, rev_involutive. reflexivity.
Qed.

Lemma last_map (f : N -> N) (l : jsstring) (d : N) :
  List.last (List.map f l) (f d) = f (List.last l d).
Proof.
  induction l as [|c l IH]; [reflexivity|].
  destruct l as [|c' l']; [reflexivity|]. exact IH.
Qed.

Lemma solidEdges_lower (p : N -> bool) (h : jsstring) :
  (forall c, p (lowerUnit c) = p c) ->
  solidEdges p (toLowerCase h) = solidEdges p h.
Proof.
  intros Hp. destruct h as [|c r]; [reflexivity|].
  unfold toLowerCase. cbn [List.map solidEdges].
  change (lowerUnit c :: List.map lowerUnit r)
    with (List.map lowerUnit (c :: r)).
  change 0 with (lowerUnit 0) at 1.
  rewrite last_map, !Hp. reflexivity.
Qed.

Ltac decide_comparisons :=
  repeat match goal with
         | |- context [N.eqb ?a ?b] =>
           destruct (N.eqb_spec a b); [try lia|]
         | |- context [N.leb ?a ?b] =>
           destruct (N.leb_spec a b); try lia
         end.

Lemma whiteSpace_lower (c : N) : isWhiteSpace (lowerUnit c) = isWhiteSpace c.
Proof.
  unfold lowerUnit.
  destruct (N.leb_spec 0x41 c); [|reflexivity].
  destruct (N.leb_spec c 0x5A); [|reflexivity].
  cbn [andb]. unfold isWhiteSpace. decide_comparisons; reflexivity.
Qed.

Lemma edgePunct_lower (c : N) : isEdgePunct (lowerUnit c) = isEdgePunct c.
Proof.
  unfold isEdgePunct. rewrite whiteSpace_lower. unfold lowerUnit.
  destruct (N.leb_spec 0x41 c); [|reflexivity].
  destruct (N.leb_spec c 0x5A); [|reflexivity].
  cbn [andb]. decide_comparisons; reflexivity.
Qed.

(** The cleaned, lower-cased form of a word wrapped in edge punctuation is
    the lower-cased word. *)
Lemma normalizedAnswer_wrapped (pre h post : jsstring) :
  Forall (fun c => isEdgePunct c = true) pre ->
  Forall (fun c => isEdgePunct c = true) post ->
  solidEdges isEdgePunct h = true ->
  normalizedAnswer (pre ++ h ++ post) = toLowerCase h.
Proof.
  intros Hpre Hpost Hh. unfold normalizedAnswer. rewrite trim_idem.
  destruct (trimmed_stays_wrapped isWhiteSpace isEdgePunct whiteSpace_is_edge
                                  pre h post Hpre Hpost Hh)
    as (pre' & post' & E & Hpre' & Hpost').
  fold (trim (pre ++ h ++ post)) in E. rewrite E.
  unfold stripEdges. rewrite (stripped_to_the_word _ _ _ _ Hpre' Hpost' Hh).
  pose proof (solidEdges_weaken isWhiteSpace isEdgePunct whiteSpace_is_edge
                                h Hh) as Hw.
  pose proof (stripped_to_the_word isWhiteSpace [] h []
                                   ltac:(constructor) ltac:(constructor) Hw)
    as Et.
  cbn [app] in Et. rewrite app_nil_r in Et.
  fold (trim h) in Et. rewrite Et. reflexivity.
Qed.

(** ** Answers and greetings wrapped in white space and punctuation *)

Lemma yesValues_solid :
  forallb (solidEdges isEdgePunct) ProjectConversation.yesValues = true.
Proof. vm_compute. reflexivity. Qed.

Lemma yesWords_solid : forallb (solidEdges isEdgePunct) yesWords = true.
Proof. vm_compute. reflexivity. Qed.

Lemma greetings_solid : forallb (solidEdges isWhiteSpace) greetings = true.
Proof. vm_compute. reflexivity. Qed.

Lemma arrayIncludes_In (l : list jsstring) (x : jsstring) :
  In x l -> arrayIncludes l x = true.
Proof.
  intros H. unfold arrayIncludes. apply existsb_exists.
  exists x. split; [exact H|apply streq_refl].
Qed.

(** X6. The confirmation gate of the step flow takes for a yes every listed
    yes value, in any letter case, with any white space, dots, commas and
    dandas before and after it. *)
Theorem step_flow_yes_tolerates_edges (pre h post : jsstring) :
  Forall (fun c => isEdgePunct c = true) pre ->
  Forall (fun c => isEdgePunct c = true) post ->
  In (toLowerCase h) ProjectConversation.yesValues ->
  ProjectConversation.resolveConfirmation (pre ++ h ++ post) = YES.
Proof.
  intros Hpre Hpost Hin.
  assert (Hh : solidEdges isEdgePunct h = true).
  { rewrite <- (solidEdges_lower _ _ edgePunct_lower).
    exact (proj1 (forallb_forall _ _) yesValues_solid _ Hin). }
  unfold ProjectConversation.resolveConfirmation, ProjectConversation.isYes.
  cbv zeta.
  change (toLowerCase (trim (stripEdges (trim (trim (pre ++ h ++ post))))))
    with (normalizedAnswer (pre ++ h ++ post)).
  rewrite (normalizedAnswer_wrapped _ _ _ Hpre Hpost Hh).
  rewrite (arrayIncludes_In _ _ Hin). reflexivity.
Qed.

Lemma step_flow_yes_tolerates_edges_witness :
  ProjectConversation.resolveConfirmation
    (lit " ." ++ lit "Haan Kar Do" ++ lit "।, ")
  = YES.
Proof.
  apply (step_flow_yes_tolerates_edges (lit " .") (lit "Haan Kar Do")
                                       (lit "।, ")).
  - vm_compute. repeat constructor.
  - vm_compute. repeat constructor.
  - vm_compute. do 4 right. left. reflexivity.
Defined.

(** X7. The detectors of the Turn Orchestrator take for a yes every yes
    word, in any letter case, with any white space, dots, commas and dandas
    before and after it. *)
Theorem turn_yes_tolerates_edges (pre h post : jsstring) :
  Forall (fun c => isEdgePunct c = true) pre ->
  Forall (fun c => isEdgePunct c = true) post ->
  In (toLowerCase h) yesWords ->
  detectYes (pre ++ h ++ post) = true
  /\ resolveConfirmation (pre ++ h ++ post) = YES.
Proof.
  intros Hpre Hpost Hin.
  assert (Hh : solidEdges isEdgePunct h = true).
  { rewrite <- (solidEdges_lower _ _ edgePunct_lower).
    exact (proj1 (forallb_forall _ _) yesWords_solid _ Hin). }
  pose proof (normalizedAnswer_wrapped _ _ _ Hpre Hpost Hh) as Hn.
  assert (Hy : detectYes (trim (pre ++ h ++ post)) = true).
  { unfold detectYes. cbv zeta. apply existsb_exists.
    exists (toLowerCase h). split; [exact Hin|].
    change (toLowerCase (trim (stripEdges (trim (trim (pre ++ h ++ post))))))
      with (normalizedAnswer (pre ++ h ++ post)).
    rewrite Hn, streq_refl. reflexivity. }
  split.
  - unfold detectYes in Hy |- *. cbv zeta in Hy |- *.
    rewrite trim_idem in Hy. exact Hy.
  - unfold resolveConfirmation, confirmationOf. rewrite Hy. reflexivity.
Qed.

Lemma turn_yes_tolerates_edges_witness :
  detectYes (lit " " ++ lit "YES" ++ lit "...") = true
  /\ resolveConfirmation (lit " " ++ lit "YES" ++ lit "...") = YES.
Proof.
  apply (turn_yes_tolerates_edges (lit " ") (lit "YES") (lit "...")).
  - vm_compute. repeat constructor.
  - vm_compute. repeat constructor.
  - vm_compute. do 3 right. left. reflexivity.
Defined.

Lemma startsWith_app (a b c : jsstring) :
  startsWith (a ++ b) (a ++ c) = startsWith b c.
Proof.
  induction a as [|x a IH]; [reflexivity|].
  cbn [app startsWith]. rewrite N.eqb_refl. exact IH.
Qed.

Lemma detectGreeting_trim (t : jsstring) :
  detectGreeting (trim t) = detectGreeting t.
Proof.
  unfold detectGreeting. cbv zeta. rewrite trim_idem. reflexivity.
Qed.

(** A text that begins, after white space, with a greeting word and a space
    is a greeting. *)
Lemma detectGreeting_prefix (pre h rest : jsstring) :
  Forall (fun c => isWhiteSpace c = true) pre ->
  In (toLowerCase h) greetings ->
  detectGreeting (pre ++ h ++ lit " " ++ rest) = true.
Proof.
  intros Hpre Hin.
  assert (Hh : solidEdges isWhiteSpace h = true).
  { rewrite <- (solidEdges_lower _ _ whiteSpace_lower).
    exact (proj1 (forallb_forall _ _) greetings_solid _ Hin). }
  assert (Ht : exists t1,
             trim (pre ++ h ++ lit " " ++ rest) = h ++ t1
             /\ (t1 = [] \/ exists t', t1 = 0x20 :: t')).
  { unfold trim.
    rewrite dropWhile_app, (forallb_of_Forall _ _ Hpre),
      (dropWhile_solid _ _ _ Hh), (dropWhileEnd_after_solid _ _ _ Hh).
    eexists. split; [reflexivity|].
    change (lit " " ++ rest) with (0x20 :: rest).
    destruct (dropWhileEnd_cons isWhiteSpace 0x20 rest) as [[_ ->]|[t' ->]];
      eauto. }
  destruct Ht as (t1 & Et & Ht1).
  unfold detectGreeting. cbv zeta. rewrite Et.
  unfold toLowerCase. rewrite map_app. fold (toLowerCase h).
  destruct (toLowerCase h ++ List.map lowerUnit t1) as [|c0 r0] eqn:En.
  { destruct h as [|c r]; [discriminate Hh|discriminate En]. }
  rewrite <- En. apply existsb_exists.
  exists (toLowerCase h). split; [exact Hin|].
  destruct Ht1 as [->|[t' ->]].
  - cbn [List.map]. rewrite app_nil_r, streq_refl. reflexivity.
  - rewrite startsWith_app.
    assert (Es : startsWith (List.map lowerUnit (0x20 :: t')) (lit " ") = true).
    { replace (lit " ") with [0x20] by (vm_compute; reflexivity).
      cbn [List.map startsWith].
      destruct (List.map lowerUnit t'); reflexivity. }
    rewrite Es. apply orb_true_r.
Qed.

(** X8. When the turn has no intent that block 0 handles, a text that
    begins, after white space, with a greeting word in any letter case
    followed by a space is answered by the greeting, whatever follows the
    word and whatever the state and the analysis: lastIntent becomes
    GREETING, the lead status and the lead id stay. *)
Theorem greeting_word_wins (input : OrchestratorInput)
        (pre h rest : jsstring) :
  intentRule input = None ->
  text input = pre ++ h ++ lit " " ++ rest ->
  Forall (fun c => isWhiteSpace c = true) pre ->
  In (toLowerCase h) greetings ->
  runLeadOrchestrator input
  = {| reply := greetingReply;
       newState := {| leadStatus := leadStatus (state input);
                      lastIntent := Some CI_GREETING;
                      leadId := leadId (state input) |};
       toolCall := None; dependencies := None; missing := None |}.
Proof.
  intros Hi Ht Hpre Hin.
  unfold runLeadOrchestrator, greetingRule.
  rewrite Hi, detectGreeting_trim, Ht,
    (detectGreeting_prefix _ _ _ Hpre Hin).
  reflexivity.
Qed.

Lemma greeting_word_wins_witness :
  runLeadOrchestrator
    {| text := [] ++ lit "Namaste" ++ lit " " ++ lit "haan";
       state := {| leadStatus := LS_NEW; lastIntent := Some CI_LEAD_CAPTURED;
                   leadId := None |};
       analysis := {| success := true; data := Some fullAnalysis;
                      error := None |};
       intent := None;
       measurements := None |}
  = {| reply := greetingReply;
       newState := {| leadStatus := LS_NEW;
                      lastIntent := Some CI_GREETING;
                      leadId := None |};
       toolCall := None; dependencies := None; missing := None |}.
Proof.
  apply (greeting_word_wins
           {| text := [] ++ lit "Namaste" ++ lit " " ++ lit "haan";
              state := {| leadStatus := LS_NEW;
                          lastIntent := Some CI_LEAD_CAPTURED;
                          leadId := None |};
              analysis := {| success := true; data := Some fullAnalysis;
                             error := None |};
              intent := None;
              measurements := None |}
           [] (lit "Namaste") (lit "haan")).
  - reflexivity.
  - reflexivity.
  - constructor.
  - vm_compute. do 3 right. left. reflexivity.
Defined.

(** ** The turn orchestrator: the gate, the side outputs, the state *)

(** X9. The quote dependency gate is satisfied exactly when the lead id is
    a non-empty string and [sqft] or [paintable_area] is a number other than
    0 and NaN; [bhk] and the other measurements play no part in it. *)
Theorem gate_satisfied_iff (s : ConversationState)
        (m : option MeasurementData) :
  quoteDependencies s m = []
  <-> truthy (leadId s) = true
      /\ (numTruthy (m ≫= sqft) = true
          \/ numTruthy (m ≫= paintable_area) = true).
Proof.
  unfold quoteDependencies, hasBasicMeasurement. cbv zeta.
  destruct (truthy (leadId s)); cbn [negb app];
    destruct m as [m|]; cbn [mbind option_bind negb numTruthy andb];
    try (split; [discriminate|intros [? [?|?]]; discriminate]).
  - destruct (sqft m) as [[|zs]|], (paintable_area m) as [[|zp]|],
      (bhk m) as [b|]; cbn [notNull orb negb numTruthy andb app];
      try (split; [discriminate|intros [? [?|?]]; discriminate]);
      try destruct (zs =? 0)%Z; try destruct (zp =? 0)%Z;
      cbn [negb andb app];
      first [ split; [discriminate|intros [? [?|?]]; discriminate]
            | split; [auto|reflexivity] ].
  - destruct (negb (notNull (bhk m) || notNull (sqft m)
                    || notNull (paintable_area m)));
      [|destruct (negb (numTruthy (sqft m)) && negb (numTruthy (paintable_area m)))];
      (split; [discriminate|intros [? _]; discriminate]).
Qed.

Lemma gate_needs_lead (s : ConversationState) (m : option MeasurementData) :
  quoteDependencies s m = [] -> truthy (leadId s) = true.
Proof.
  unfold quoteDependencies. cbv zeta.
  destruct (truthy (leadId s)); [reflexivity|]. cbn [negb app].
  destruct (negb (hasBasicMeasurement m));
    [|destruct (negb (numTruthy (m ≫= sqft))
               && negb (numTruthy (m ≫= paintable_area)))];
    discriminate.
Qed.

Lemma intentRule_outputs input o :
  intentRule input = Some o ->
  (toolCall o = None /\ dependencies o = None)
  \/ exists i,
      intent input = Some i
      /\ LeadIntent.intent i = GENERATE_QUOTE_OPTIONS
      /\ o = quoteBranch (text input) (state input) (analysis input)
                         (measurements input).
Proof.
  unfold intentRule. destruct (intent input) as [i|]; [|discriminate].
  cbv zeta.
  destruct (intent_eqb (LeadIntent.intent i) GREETING);
    [intros [= <-]; left; split; reflexivity|].
  destruct (intent_eqb (LeadIntent.intent i) GENERAL_QUESTION);
    [intros [= <-]; left; split; reflexivity|].
  destruct (intent_eqb (LeadIntent.intent i) GENERATE_QUOTE_OPTIONS) eqn:Eq.
  - intros [= <-]. right. exists i. repeat split.
    destruct (LeadIntent.intent i); try discriminate Eq. reflexivity.
  - repeat match goal with
           | |- (if ?c then _ else _) = _ -> _ => destruct c
           end;
      intros E; try discriminate E; injection E as <-;
      left; split; reflexivity.
Qed.

Lemma quoteBranch_outputs t s a m :
  match toolCall (quoteBranch t s a m), dependencies (quoteBranch t s a m) with
  | Some tc, None =>
    quoteDependencies s m = []
    /\ tc = {| name := lit "generate_quote_options";
               arguments :=
                 {| arg_leadId := leadId s;
                    jobType := job_type <$> data a;
                    location := if truthy (data a ≫= location_text)
                                then data a ≫= location_text else None;
                    requirements := extractRequirements t |} |}
  | None, Some ds => ds = quoteDependencies s m /\ ds <> []
  | _, _ => False
  end.
Proof.
  unfold quoteBranch. destruct (quoteDependencies s m) as [|d ds].
  - cbn [toolCall dependencies]. split; reflexivity.
  - cbn [toolCall dependencies]. split; [reflexivity|discriminate].
Qed.

Lemma later_rules_outputs input :
  greetingRule input = Some (runLeadOrchestrator input)
  \/ confirmationRule input = Some (runLeadOrchestrator input)
  \/ analysisFailedRule input = Some (runLeadOrchestrator input)
  \/ analysisRule input = Some (runLeadOrchestrator input)
  \/ closingRules input = runLeadOrchestrator input ->
  toolCall (runLeadOrchestrator input) = None
  /\ dependencies (runLeadOrchestrator input) = None.
Proof.
  intros [H|[H|[H|[H|H]]]].
  - unfold greetingRule in H. destruct (detectGreeting _); [|discriminate].
    apply some_injective in H. rewrite <- H. split; reflexivity.
  - unfold confirmationRule in H. cbv zeta in H.
    destruct (_ && _); [|discriminate].
    destruct (detectYes _); [|destruct (detectNo _); [|discriminate]];
      apply some_injective in H; rewrite <- H; split; reflexivity.
  - unfold analysisFailedRule in H. destruct (negb _); [|discriminate].
    apply some_injective in H. rewrite <- H. split; reflexivity.
  - unfold analysisRule in H. cbv zeta in H.
    destruct (success (analysis input)), (data (analysis input)) as [d|];
      try discriminate.
    destruct (generateFollowupQuestions d (intent input)) as [[|k ms] qs].
    + destruct (status_eqb _ _); [|discriminate].
      destruct (truthy _); [|discriminate].
      apply some_injective in H. rewrite <- H. split; reflexivity.
    + apply some_injective in H. rewrite <- H. split; reflexivity.
  - rewrite <- H. unfold closingRules. cbv zeta.
    destruct (_ && _); split; reflexivity.
Qed.

(** X10. Of the three side outputs of a turn (tool call, dependency list,
    missing map) at most one is present.  A tool call is returned only for
    the intent GENERATE_QUOTE_OPTIONS with the gate satisfied: it then
    carries the lead id of the state, which is a non-empty string, and the
    requirements read from the text.  A dependency list is returned only
    for that intent, and is never empty. *)
Theorem side_outputs_exclusive (input : OrchestratorInput) :
  match toolCall (runLeadOrchestrator input),
        dependencies (runLeadOrchestrator input),
        missing (runLeadOrchestrator input) with
  | None, None, _ => True
  | Some tc, None, None =>
    isQuoteIntent (intent input) = true
    /\ quoteDependencies (state input) (measurements input) = []
    /\ truthy (leadId (state input)) = true
    /\ name tc = lit "generate_quote_options"
    /\ arg_leadId (arguments tc) = leadId (state input)
    /\ requirements (arguments tc) = extractRequirements (text input)
  | None, Some ds, None =>
    isQuoteIntent (intent input) = true
    /\ ds = quoteDependencies (state input) (measurements input)
    /\ ds <> []
  | _, _, _ => False
  end.
Proof.
  destruct (run_cases input) as [H|H].
  - destruct (intentRule_outputs _ _ H) as [[-> ->]|(i & Hi & Hq & Ho)];
      [exact I|].
    rewrite Ho.
    pose proof (quoteBranch_outputs (text input) (state input)
                                    (analysis input) (measurements input)) as Hb.
    destruct (quoteBranch_frame (text input) (state input) (analysis input)
                                (measurements input)) as [_ ->].
    assert (Hqi : isQuoteIntent (intent input) = true)
      by (unfold isQuoteIntent; rewrite Hi, Hq; reflexivity).
    destruct (toolCall (quoteBranch _ _ _ _)) as [tc|],
        (dependencies (quoteBranch _ _ _ _)) as [ds|]; try contradiction.
    + destruct Hb as [Hd ->]. cbn [name arguments arg_leadId requirements].
      repeat split; try assumption.
      exact (gate_needs_lead _ _ Hd).
    + destruct Hb as [-> Hne]. repeat split; assumption.
  - destruct (later_rules_outputs input H) as [-> ->]. exact I.
Qed.

Lemma gate_without_measurements (s : ConversationState) :
  quoteDependencies s None
  = ask (negb (truthy (leadId s))) dep_project ++ [dep_measurement].
Proof.
  unfold quoteDependencies, ask. cbv zeta.
  destruct (negb (truthy (leadId s))); reflexivity.
Qed.

Lemma no_measurements_no_tool input :
  measurements input = None -> toolCall (runLeadOrchestrator input) = None.
Proof.
  intros Hm. destruct (run_cases input) as [H|H].
  - destruct (intentRule_outputs _ _ H) as [[Ht _]|(i & _ & _ & Ho)];
      [exact Ht|].
    rewrite Ho, Hm. unfold quoteBranch. rewrite gate_without_measurements.
    destruct (ask _ dep_project ++ [dep_measurement]) as [|d ds] eqn:E;
      [|reflexivity].
    apply app_eq_nil in E. destruct E as [_ E]. discriminate E.
  - exact (proj1 (later_rules_outputs input H)).
Qed.

(** X11. The test page passes no measurements, so no turn made through it
    returns a tool call, whatever the text, the state and the two API
    answers; and a quote request made through it is always answered with a
    dependency list that has MEASUREMENT_REQUIRED last. *)
Theorem test_page_never_calls_the_tool
        (t : jsstring) (s : ConversationState)
        (intentJson : IntentRoute.LeadIntentResponse)
        (analyzeJson : LeadAnalyzeLikeResponse) :
  toolCall (LeadTestPage.orchestrate t s intentJson analyzeJson) = None
  /\ match intentJson with
     | IntentRoute.IntentSuccess r =>
       if intent_eqb (LeadIntent.intent r) GENERATE_QUOTE_OPTIONS then
         dependencies (LeadTestPage.orchestrate t s intentJson analyzeJson)
         = Some (ask (negb (truthy (leadId s))) dep_project
                 ++ [dep_measurement])
       else True
     | IntentRoute.IntentFailure _ => True
     end.
Proof.
  split.
  - unfold LeadTestPage.orchestrate. cbv zeta.
    apply no_measurements_no_tool. reflexivity.
  - destruct intentJson as [r|e]; [|exact I].
    destruct (intent_eqb (LeadIntent.intent r) GENERATE_QUOTE_OPTIONS) eqn:E;
      [|exact I].
    assert (Hq : LeadIntent.intent r = GENERATE_QUOTE_OPTIONS)
      by (destruct (LeadIntent.intent r); try discriminate E; reflexivity).
    unfold LeadTestPage.orchestrate. cbv zeta.
    match goal with
    | |- context [runLeadOrchestrator ?x] =>
      rewrite (run_quote_intent x r eq_refl Hq)
    end.
    cbn [text state analysis measurements]. unfold quoteBranch.
    rewrite gate_without_measurements.
    destruct (ask _ dep_project ++ [dep_measurement]) as [|d ds] eqn:Ed;
      [|reflexivity].
    apply app_eq_nil in Ed. destruct Ed as [_ Ed]. discriminate Ed.
Qed.

Lemma leadId_frame input :
  leadId (newState (runLeadOrchestrator input)) = leadId (state input).
Proof.
  destruct (run_cases input) as [H|[H|[H|[H|[H|H]]]]].
  - apply intentRule_frame in H. tauto.
  - apply greetingRule_frame in H. tauto.
  - apply confirmationRule_frame in H. tauto.
  - apply analysisFailedRule_frame in H. destruct H as [-> _]. reflexivity.
  - apply analysisRule_frame in H. tauto.
  - rewrite <- H. destruct (closingRules_frame input) as [-> _]. reflexivity.
Qed.

Lemma page_conversation_leadId s turns :
  leadId (LeadTestPage.conversation s turns) = leadId s.
Proof.
  revert s. induction turns as [|[[t ij] aj] turns IH]; intros s;
    [reflexivity|].
  cbn [LeadTestPage.conversation]. rewrite IH.
  unfold LeadTestPage.orchestrate. cbv zeta. apply leadId_frame.
Qed.

(** X12. A conversation on the test page starts unbound and stays unbound,
    whatever is said: after any number of turns a quote request is answered
    with exactly PROJECT_REQUIRED and MEASUREMENT_REQUIRED, and an update or
    a measurement is answered by the question which project is meant. *)
Theorem test_page_stays_unbound
        (turns : list (jsstring * IntentRoute.LeadIntentResponse
                       * LeadAnalyzeLikeResponse))
        (t : jsstring) (r : LeadIntentResult)
        (analyzeJson : LeadAnalyzeLikeResponse) :
  let s := LeadTestPage.conversation LeadTestPage.initialState turns in
  let out :=
    LeadTestPage.orchestrate t s (IntentRoute.IntentSuccess r) analyzeJson in
  leadId s = None
  /\ match LeadIntent.intent r with
     | GENERATE_QUOTE_OPTIONS =>
       dependencies out = Some [dep_project; dep_measurement]
       /\ toolCall out = None
     | UPDATE_EXISTING_LEAD | LOG_MEASUREMENT =>
       reply out = whichProjectReply r
       /\ newState out = withLastIntent s CI_NEW
     | _ => True
     end.
Proof.
  cbv zeta.
  pose proof (page_conversation_leadId LeadTestPage.initialState turns) as Hl.
  cbn [LeadTestPage.initialState leadId] in Hl.
  split; [exact Hl|].
  set (s := LeadTestPage.conversation LeadTestPage.initialState turns) in *.
  unfold LeadTestPage.orchestrate. cbv zeta.
  destruct (LeadIntent.intent r) eqn:Er; try exact I.
  - match goal with
    | |- context [runLeadOrchestrator ?x] =>
      rewrite (run_quote_intent x r eq_refl Er)
    end.
    cbn [text state analysis measurements]. unfold quoteBranch.
    rewrite gate_without_measurements, Hl. split; reflexivity.
  - unfold runLeadOrchestrator, intentRule.
    cbn [intent state]. rewrite Er, Hl. split; reflexivity.
  - unfold runLeadOrchestrator, intentRule.
    cbn [intent state]. rewrite Er, Hl. split; reflexivity.
Qed.

Lemma confirmationRule_cases input o :
  confirmationRule input = Some o ->
  (detectYes (trim (text input)) = true
   /\ o = say siteVisitReply
            {| leadStatus := LS_LEAD_CAPTURED;
               lastIntent := Some CI_SCHEDULE_SITE_VISIT;
               leadId := leadId (state input) |})
  \/ (detectYes (trim (text input)) = false
      /\ detectNo (trim (text input)) = true
      /\ o = say modificationReply
               (withLastIntent (state input) CI_LEAD_MODIFICATION)).
Proof.
  unfold confirmationRule. cbv zeta. destruct (_ && _); [|discriminate].
  destruct (detectYes _); [|destruct (detectNo _); [|discriminate]];
    intros [= <-]; auto.
Qed.

(** X13. A lead is captured only by a yes to a pending confirmation: if a
    turn moves the status from NEW to LEAD_CAPTURED, then the state had
    lastIntent LEAD_CAPTURED, the yes test fired on the text, the reply is
    the site-visit question and lastIntent becomes SCHEDULE_SITE_VISIT. *)
Theorem capture_only_by_yes (input : OrchestratorInput) :
  leadStatus (state input) = LS_NEW ->
  leadStatus (newState (runLeadOrchestrator input)) = LS_LEAD_CAPTURED ->
  lastIntent (state input) = Some CI_LEAD_CAPTURED
  /\ detectYes (trim (text input)) = true
  /\ runLeadOrchestrator input
     = say siteVisitReply
           {| leadStatus := LS_LEAD_CAPTURED;
              lastIntent := Some CI_SCHEDULE_SITE_VISIT;
              leadId := leadId (state input) |}.
Proof.
  intros Hn Hc.
  destruct (run_cases input) as [H|[H|[H|[H|[H|H]]]]].
  - apply intentRule_frame in H. destruct H as (_ & Hs & _). congruence.
  - apply greetingRule_frame in H. destruct H as (_ & Hs & _). congruence.
  - pose proof (confirmationRule_frame _ _ H) as (_ & _ & Hl & _).
    destruct (confirmationRule_cases _ _ H) as [[Hy Ho]|(_ & _ & Ho)].
    + auto.
    + rewrite Ho in Hc. cbn in Hc. congruence.
  - apply analysisFailedRule_frame in H. destruct H as [Hs _]. congruence.
  - apply analysisRule_frame in H. destruct H as (_ & Hnone & Hsome).
    destruct (missing (runLeadOrchestrator input)) as [m|].
    + destruct (Hsome m eq_refl) as (_ & Hs & _). congruence.
    + rewrite (Hnone eq_refl) in Hc. congruence.
  - rewrite <- H in Hc. destruct (closingRules_frame input) as [Hs _].
    rewrite Hs in Hc. congruence.
Qed.

Lemma capture_only_by_yes_witness :
  lastIntent (state (pendingAnswer (lit "haan"))) = Some CI_LEAD_CAPTURED
  /\ detectYes (trim (text (pendingAnswer (lit "haan")))) = true
  /\ runLeadOrchestrator (pendingAnswer (lit "haan"))
     = say siteVisitReply
           {| leadStatus := LS_LEAD_CAPTURED;
              lastIntent := Some CI_SCHEDULE_SITE_VISIT;
              leadId := leadId (state (pendingAnswer (lit "haan"))) |}.
Proof.
  apply (capture_only_by_yes (pendingAnswer (lit "haan"))).
  - reflexivity.
  - vm_compute. reflexivity.
Defined.

(** X14. Without analysis data (the analysis failed, or it succeeded with
    no record, as the stub the test page passes when it skips the analysis)
    a turn that blocks 0 to 2 leave alone, on a text written in ASCII and
    Indic-script characters, returns the state as it is, asks nothing, and
    replies with the error of the failed analysis (the fixed retry message
    when there is none; an empty error string is replied as it is), with
    the site-visit prompt, or with the fallback. *)
Theorem no_data_keeps_state (input : OrchestratorInput) :
  plainCased (text input) ->
  intentRule input = None ->
  detectGreeting (trim (text input)) = false ->
  confirmationRule input = None ->
  success (analysis input) = false \/ data (analysis input) = None ->
  runLeadOrchestrator input
  = say (if negb (success (analysis input)) then
           match error (analysis input) with
           | Some e => e
           | None => analysisFailedReply
           end
         else if lastIntentIs (state input) CI_SCHEDULE_SITE_VISIT
                 && status_eqb (leadStatus (state input)) LS_LEAD_CAPTURED
              then visitDetailsReply
              else fallbackReply)
        (state input).
Proof.
  intros _ Hi Hg Hc Hd.
  unfold runLeadOrchestrator, afterConfirmation, greetingRule,
    analysisFailedRule, analysisRule, closingRules.
  cbv zeta. rewrite Hi, Hg, Hc. cbn [orElse].
  destruct (success (analysis input)) eqn:Hs; cbn [negb orElse];
    [|reflexivity].
  destruct Hd as [Hd|Hd]; [discriminate Hd|]. rewrite Hd. cbn [orElse].
  destruct (_ && _); reflexivity.
Qed.

Lemma no_data_keeps_state_witness :
  runLeadOrchestrator
    {| text := lit "kal batata";
       state := boundTo (lit "x") LS_LEAD_CAPTURED (Some CI_SCHEDULE_SITE_VISIT);
       analysis := {| success := false; data := None; error := Some [] |};
       intent := None; measurements := None |}
  = say [] (boundTo (lit "x") LS_LEAD_CAPTURED (Some CI_SCHEDULE_SITE_VISIT)).
Proof.
  apply (no_data_keeps_state
           {| text := lit "kal batata";
              state := boundTo (lit "x") LS_LEAD_CAPTURED
                               (Some CI_SCHEDULE_SITE_VISIT);
              analysis := {| success := false; data := None;
                             error := Some [] |};
              intent := None; measurements := None |}).
  - vm_compute. reflexivity.
  - reflexivity.
  - vm_compute. reflexivity.
  - reflexivity.
  - left. reflexivity.
Defined.

Lemma intentRule_passes_no_quote input :
  intentRule input = None -> isQuoteIntent (intent input) = false.
Proof.
  unfold intentRule, isQuoteIntent.
  destruct (intent input) as [i|]; [|reflexivity].
  destruct (intent_eqb (LeadIntent.intent i) GREETING); [discriminate|].
  destruct (intent_eqb (LeadIntent.intent i) GENERAL_QUESTION); [discriminate|].
  destruct (intent_eqb (LeadIntent.intent i) GENERATE_QUOTE_OPTIONS);
    [discriminate|reflexivity].
Qed.

Lemma asks_nil {A} (c1 c2 c3 c4 c5 : bool) (k1 k2 k3 k4 k5 : A) :
  ask c1 k1 ++ ask c2 k2 ++ ask c3 k3 ++ ask c4 k4 ++ ask c5 k5 = [] ->
  c1 = false /\ c2 = false /\ c3 = false /\ c4 = false /\ c5 = false.
Proof.
  destruct c1, c2, c3, c4, c5; cbn; intros E; try discriminate E; auto.
Qed.

(** X15. The recap that a turn sends is always complete.  The analysis
    block is only reached when block 0 has returned nothing, hence never
    with the intent GENERATE_QUOTE_OPTIONS; so when it sends the recap
    (its output has no missing map) the name, the location, the job type and
    the urgency are all known and the reply names the four of them, in this
    order. *)
Theorem recap_is_complete (input : OrchestratorInput)
        (o : OrchestratorOutput) :
  intentRule input = None ->
  analysisRule input = Some o ->
  missing o = None ->
  exists d n l,
    data (analysis input) = Some d
    /\ LeadAnalysis.name (customer d) = Some n /\ n <> []
    /\ location_text d = Some l /\ l <> []
    /\ job_type d <> job_unknown
    /\ urgency d <> urgency_unknown
    /\ reply o
       = confirmationOpening
         ++ (lit " Quick recap – "
             ++ join (lit ", ")
                     [lit "Customer: " ++ n; lit "Location: " ++ l;
                      lit "Job: " ++ jobTypeString (job_type d);
                      lit "Urgency: " ++ urgencyString (urgency d)]
             ++ lit ".")
         ++ lit " Kya yeh sahi hai?"
    /\ newState o = withLastIntent (state input) CI_LEAD_CAPTURED.
Proof.
  intros Hi Ha Hm. apply intentRule_passes_no_quote in Hi.
  unfold analysisRule in Ha. cbv zeta in Ha.
  destruct (success (analysis input)), (data (analysis input)) as [d|];
    try discriminate.
  pose proof (followups_closed_form d (intent input)) as Hf.
  rewrite Hi in Hf. rewrite Hf in Ha. clear Hf.
  match type of Ha with
  | match ?ms with [] => _ | _ :: _ => _ end = _ =>
    destruct ms as [|k ms'] eqn:Ems
  end.
  2:{ apply some_injective in Ha. subst o. discriminate Hm. }
  apply asks_nil in Ems. destruct Ems as (Hn & _ & Hl & Hj & Hu).
  destruct (status_eqb _ _); [|discriminate].
  destruct (truthy (generateConfirmation d)); [|discriminate].
  apply some_injective in Ha. subst o. clear Hm.
  unfold absent in Hn, Hl. apply negb_false_iff in Hn, Hl.
  destruct (LeadAnalysis.name (customer d)) as [[|nc nr]|] eqn:En;
    try discriminate Hn.
  destruct (location_text d) as [[|lc lr]|] eqn:El; try discriminate Hl.
  exists d, (nc :: nr), (lc :: lr).
  split; [reflexivity|]. split; [exact En|]. split; [discriminate|].
  split; [exact El|]. split; [discriminate|].
  unfold jobUnknown in Hj. unfold urgencyUnknown in Hu.
  split; [destruct (job_type d); congruence|].
  split; [destruct (urgency d); congruence|].
  split; [|reflexivity].
  cbn [reply say]. unfold generateConfirmation. cbv zeta.
  rewrite En, El. cbn [truthy orEmpty].
  destruct (job_type d); try discriminate Hj;
    destruct (urgency d); try discriminate Hu;
    cbn [app join]; reflexivity.
Qed.

Lemma recap_is_complete_witness :
  exists d n l,
    data (analysis recapTurn) = Some d
    /\ LeadAnalysis.name (customer d) = Some n /\ n <> []
    /\ location_text d = Some l /\ l <> []
    /\ job_type d <> job_unknown
    /\ urgency d <> urgency_unknown
    /\ reply recapOutput
       = confirmationOpening
         ++ (lit " Quick recap – "
             ++ join (lit ", ")
                     [lit "Customer: " ++ n; lit "Location: " ++ l;
                      lit "Job: " ++ jobTypeString (job_type d);
                      lit "Urgency: " ++ urgencyString (urgency d)]
             ++ lit ".")
         ++ lit " Kya yeh sahi hai?"
    /\ newState recapOutput = withLastIntent (state recapTurn) CI_LEAD_CAPTURED.
Proof.
  apply (recap_is_complete recapTurn recapOutput).
  - vm_compute. reflexivity.
  - vm_compute. reflexivity.
  - vm_compute. reflexivity.
Defined.

(** ** The intent endpoint and the test page *)

Lemma detectLocalIntent_kinds (t : jsstring) (i : LeadIntentResult) :
  IntentRoute.detectLocalIntent t = Some i ->
  toLowerCase (trim t) <> []
  /\ lead_hint i = None /\ topic i = None
  /\ (LeadIntent.intent i = GREETING
      \/ (LeadIntent.intent i = OTHER
          /\ (length (toLowerCase (trim t)) <= 20)%nat)).
Proof.
  unfold IntentRoute.detectLocalIntent. cbv zeta.
  destruct (toLowerCase (trim t)) as [|c r] eqn:En; [discriminate|].
  rewrite <- En.
  destruct (existsb _ IntentRoute.greetings).
  - intros H. apply some_injective in H. subst i.
    repeat split; auto. rewrite En. discriminate.
  - destruct (length (toLowerCase (trim t)) <=? 20)%nat eqn:El;
      cbn [andb]; [|discriminate].
    destruct (existsb _ IntentRoute.shortNonLead); [|discriminate].
    intros H. apply some_injective in H. subst i.
    apply Nat.leb_le in El.
    repeat split; auto. rewrite En. discriminate.
Qed.

(** X16. A text, written in ASCII and Indic-script characters, that the
    local heuristics classify never reaches the language model nor the
    analyzer: the endpoint answers 200 with the local intent whatever the
    model would say, the intent is GREETING or OTHER with no hint and no
    topic, the page skips the analysis, and for GREETING the reply of the
    turn is the greeting, lastIntent becoming GREETING. *)
Theorem local_intent_skips_the_services
        (detectLeadIntent : jsstring -> option LeadIntentResult)
        (t : jsstring) (i : LeadIntentResult)
        (s : ConversationState) (analyzeJson : LeadAnalyzeLikeResponse) :
  plainCased t ->
  IntentRoute.detectLocalIntent t = Some i ->
  IntentRoute.POST detectLeadIntent (Some t) = (IntentRoute.IntentSuccess i, 200)
  /\ lead_hint i = None /\ topic i = None
  /\ (LeadIntent.intent i = GREETING \/ LeadIntent.intent i = OTHER)
  /\ LeadTestPage.orchestrate t s (IntentRoute.IntentSuccess i) analyzeJson
     = runLeadOrchestrator
         {| text := t; state := s;
            analysis := {| success := true; data := None; error := None |};
            intent := Some i; measurements := None |}
  /\ (LeadIntent.intent i = GREETING ->
      LeadTestPage.orchestrate t s (IntentRoute.IntentSuccess i) analyzeJson
      = say greetingReply (withLastIntent s CI_GREETING)).
Proof.
  intros _ H. destruct (detectLocalIntent_kinds t i H) as (Hne & Hh & Ht & Hk).
  assert (Hk' : LeadIntent.intent i = GREETING \/ LeadIntent.intent i = OTHER)
    by (destruct Hk as [E|[E _]]; auto).
  assert (Hna : LeadTestPage.needsAnalyze (Some i) = false)
    by (unfold LeadTestPage.needsAnalyze; destruct Hk' as [E|E];
        rewrite E; reflexivity).
  split.
  - unfold IntentRoute.POST. cbv zeta.
    change (trim <$> Some t) with (Some (trim t)).
    change (default [] (Some (trim t))) with (trim t).
    assert (Hd : IntentRoute.detectLocalIntent (trim t) = Some i).
    { unfold IntentRoute.detectLocalIntent in H |- *. cbv zeta in H |- *.
      rewrite trim_idem. exact H. }
    destruct (trim t) as [|c r] eqn:Et.
    + exfalso. apply Hne. reflexivity.
    + cbn [truthy negb]. rewrite Hd. reflexivity.
  - split; [exact Hh|]. split; [exact Ht|]. split; [exact Hk'|].
    split.
    + unfold LeadTestPage.orchestrate. cbv zeta. rewrite Hna. reflexivity.
    + intros Hg. unfold LeadTestPage.orchestrate. cbv zeta.
      unfold runLeadOrchestrator, intentRule. cbn [intent state].
      rewrite Hg. reflexivity.
Qed.

Lemma local_intent_skips_the_services_witness :
  IntentRoute.POST (fun _ => None) (Some (lit " Good Morning ji "))
  = (IntentRoute.IntentSuccess
       {| LeadIntent.intent := GREETING; lead_hint := None; topic := None |},
     200)
  /\ lead_hint {| LeadIntent.intent := GREETING; lead_hint := None;
                  topic := None |} = None
  /\ topic {| LeadIntent.intent := GREETING; lead_hint := None;
              topic := None |} = None
  /\ (LeadIntent.intent {| LeadIntent.intent := GREETING; lead_hint := None;
                           topic := None |} = GREETING
      \/ LeadIntent.intent {| LeadIntent.intent := GREETING; lead_hint := None;
                              topic := None |} = OTHER)
  /\ LeadTestPage.orchestrate
       (lit " Good Morning ji ") LeadTestPage.initialState
       (IntentRoute.IntentSuccess
          {| LeadIntent.intent := GREETING; lead_hint := None; topic := None |})
       {| success := false; data := None; error := None |}
     = runLeadOrchestrator
         {| text := lit " Good Morning ji ";
            state := LeadTestPage.initialState;
            analysis := {| success := true; data := None; error := None |};
            intent := Some {| LeadIntent.intent := GREETING; lead_hint := None;
                              topic := None |};
            measurements := None |}
  /\ (LeadIntent.intent {| LeadIntent.intent := GREETING; lead_hint := None;
                           topic := None |} = GREETING ->
      LeadTestPage.orchestrate
        (lit " Good Morning ji ") LeadTestPage.initialState
        (IntentRoute.IntentSuccess
           {| LeadIntent.intent := GREETING; lead_hint := None; topic := None |})
        {| success := false; data := None; error := None |}
      = say greetingReply
            (withLastIntent LeadTestPage.initialState CI_GREETING)).
Proof.
  apply (local_intent_skips_the_services
           (fun _ => None) (lit " Good Morning ji ")
           {| LeadIntent.intent := GREETING; lead_hint := None; topic := None |}
           LeadTestPage.initialState
           {| success := false; data := None; error := None |}).
  - vm_compute. reflexivity.
  - vm_compute. reflexivity.
Defined.

(** ** The sample quote generator *)

(** X17. The generator always succeeds, and the tiers it returns are a
    prefix of basic, standard, premium: all three when the requested count
    is absent, NaN, 0 or at least 3, the first [n] for a count [n] of 1 or
    2, and none for a negative count. *)
Theorem quote_tiers_by_count (request : QuoteGenerator.QuoteRequest) :
  QuoteGenerator.success (QuoteGenerator.generateQuoteOptions request) = true
  /\ QuoteGenerator.error (QuoteGenerator.generateQuoteOptions request) = None
  /\ List.map QuoteGenerator.tier
       <$> QuoteGenerator.quoteOptions
             (QuoteGenerator.generateQuoteOptions request)
     = Some
         match QuoteGenerator.requirements request ≫= QuoteGenerator.options with
         | Some (Num z) =>
           if (z =? 0)%Z then
             [QuoteGenerator.basic; QuoteGenerator.standard;
              QuoteGenerator.premium]
           else
             firstn (Z.to_nat z)
                    [QuoteGenerator.basic; QuoteGenerator.standard;
                     QuoteGenerator.premium]
         | _ =>
           [QuoteGenerator.basic; QuoteGenerator.standard;
            QuoteGenerator.premium]
         end.
Proof.
  split; [reflexivity|]. split; [reflexivity|].
  unfold QuoteGenerator.generateQuoteOptions, QuoteGenerator.numberOr.
  cbv zeta. cbn [QuoteGenerator.quoteOptions fmap option_fmap option_map].
  f_equal.
  set (tl := if truthy _ then _ else _).
  set (adv := if numTruthy (_ ≫= QuoteGenerator.advance) then _ else _).
  clearbody tl adv.
  destruct (QuoteGenerator.requirements request ≫= QuoteGenerator.options)
    as [[|z]|]; cbn [numTruthy default from_option id QuoteGenerator.geN];
    try reflexivity.
  destruct (Z.eqb_spec z 0) as [->|Hz]; cbn [negb]; [reflexivity|].
  cbn [QuoteGenerator.geN].
  destruct (Z.leb_spec 1 z) as [H1|H1].
  - destruct (Z.leb_spec 2 z) as [H2|H2].
    + destruct (Z.leb_spec 3 z) as [H3|H3].
      * rewrite firstn_all2 by (cbn [length]; lia). reflexivity.
      * replace (Z.to_nat z) with 2%nat by lia. reflexivity.
    + destruct (Z.leb_spec 3 z); [lia|].
      replace (Z.to_nat z) with 1%nat by lia. reflexivity.
  - destruct (Z.leb_spec 2 z); [lia|]. destruct (Z.leb_spec 3 z); [lia|].
    replace (Z.to_nat z) with 0%nat by lia. reflexivity.
Qed.

(** X18. Every option of a response carries the same timeline and the same
    advance: the requested ones, or ["5 days"] when the timeline is absent
    or empty, and 30 when the advance is absent, 0 or NaN, so that a
    requested advance of 0 % comes back as 30 %.  The prices grow with the
    tier. *)
Theorem quote_terms_are_shared (request : QuoteGenerator.QuoteRequest) :
  exists opts,
    QuoteGenerator.quoteOptions (QuoteGenerator.generateQuoteOptions request)
    = Some opts
    /\ Forall
         (fun o =>
            QuoteGenerator.timeline o
            = match QuoteGenerator.requirements request
                    ≫= QuoteGenerator.req_timeline with
              | Some (c :: r) => c :: r
              | _ => lit "5 days"
              end
            /\ QuoteGenerator.advance_percentage o
               = match QuoteGenerator.requirements request
                       ≫= QuoteGenerator.advance with
                 | Some (Num z) => if (z =? 0)%Z then Num 30 else Num z
                 | _ => Num 30
                 end
            /\ QuoteGenerator.price o
               = match QuoteGenerator.tier o with
                 | QuoteGenerator.basic => 50000%Z
                 | QuoteGenerator.standard => 75000%Z
                 | QuoteGenerator.premium => 100000%Z
                 end)
         opts.
Proof.
  unfold QuoteGenerator.generateQuoteOptions, QuoteGenerator.numberOr.
  cbv zeta. eexists. split; [reflexivity|].
  set (tl := if truthy _ then _ else _).
  set (adv := if numTruthy (_ ≫= QuoteGenerator.advance) then _ else _).
  assert (Htl : tl = match QuoteGenerator.requirements request
                           ≫= QuoteGenerator.req_timeline with
                     | Some (c :: r) => c :: r
                     | _ => lit "5 days"
                     end).
  { unfold tl.
    destruct (QuoteGenerator.requirements request ≫= QuoteGenerator.req_timeline)
      as [[|c r]|]; reflexivity. }
  assert (Hadv : adv = match QuoteGenerator.requirements request
                             ≫= QuoteGenerator.advance with
                       | Some (Num z) => if (z =? 0)%Z then Num 30 else Num z
                       | _ => Num 30
                       end).
  { unfold adv.
    destruct (QuoteGenerator.requirements request ≫= QuoteGenerator.advance)
      as [[|z]|]; cbn [numTruthy]; try reflexivity.
    destruct (z =? 0)%Z; reflexivity. }
  rewrite <- Htl, <- Hadv. clearbody tl adv.
  repeat match goal with
         | |- context [if ?c then _ else _] => destruct c
         end;
    cbn [app]; repeat constructor.
Qed.

(** ** Voice messages in the webhook *)

Lemma audioMark_units :
  TelegramWebhook.audioMark = [0x0A; 0x41; 0x75; 0x64; 0x69; 0x6F; 0x3A].
Proof. vm_compute. reflexivity. Qed.

(** No occurrence of the mark starts before a line feed and ends after it:
    the mark has a single line feed, at its start. *)
Lemma mark_no_straddle (c : N) (t r : jsstring) :
  startsWith ((c :: t) ++ 0x0A :: r) TelegramWebhook.audioMark
  = startsWith (c :: t) TelegramWebhook.audioMark.
Proof.
  rewrite audioMark_units.
  destruct t as [|c2 [|c3 [|c4 [|c5 [|c6 [|c7 t]]]]]];
    cbn [app startsWith N.eqb Pos.eqb andb];
    rewrite ?andb_false_r; try reflexivity.
  destruct t; reflexivity.
Qed.

Lemma includes_before_line (t r : jsstring) :
  includes (t ++ 0x0A :: r) TelegramWebhook.audioMark
  = includes t TelegramWebhook.audioMark
    || includes (0x0A :: r) TelegramWebhook.audioMark.
Proof.
  induction t as [|c t IH].
  - cbn [app]. rewrite audioMark_units. reflexivity.
  - change (includes ((c :: t) ++ 0x0A :: r) TelegramWebhook.audioMark)
      with (startsWith ((c :: t) ++ 0x0A :: r) TelegramWebhook.audioMark
            || includes (t ++ 0x0A :: r) TelegramWebhook.audioMark).
    change (includes (c :: t) TelegramWebhook.audioMark)
      with (startsWith (c :: t) TelegramWebhook.audioMark
            || includes t TelegramWebhook.audioMark).
    rewrite mark_no_straddle, IH. apply orb_assoc.
Qed.

Lemma beforeFirst_before_line (t r : jsstring) :
  TelegramWebhook.beforeFirst TelegramWebhook.audioMark (t ++ 0x0A :: r)
  = if includes t TelegramWebhook.audioMark
    then TelegramWebhook.beforeFirst TelegramWebhook.audioMark t
    else t ++ TelegramWebhook.beforeFirst TelegramWebhook.audioMark (0x0A :: r).
Proof.
  induction t as [|c t IH].
  - cbn [app]. rewrite audioMark_units. reflexivity.
  - change (TelegramWebhook.beforeFirst TelegramWebhook.audioMark
              ((c :: t) ++ 0x0A :: r))
      with (if startsWith ((c :: t) ++ 0x0A :: r) TelegramWebhook.audioMark
            then []
            else c :: TelegramWebhook.beforeFirst TelegramWebhook.audioMark
                        (t ++ 0x0A :: r)).
    change (includes (c :: t) TelegramWebhook.audioMark)
      with (startsWith (c :: t) TelegramWebhook.audioMark
            || includes t TelegramWebhook.audioMark).
    change (TelegramWebhook.beforeFirst TelegramWebhook.audioMark (c :: t))
      with (if startsWith (c :: t) TelegramWebhook.audioMark
            then []
            else c :: TelegramWebhook.beforeFirst TelegramWebhook.audioMark t).
    rewrite mark_no_straddle, IH.
    destruct (startsWith (c :: t) TelegramWebhook.audioMark); cbn [orb];
      [reflexivity|].
    destruct (includes t TelegramWebhook.audioMark); reflexivity.
Qed.

Lemma beforeFirst_absent (t : jsstring) :
  includes t TelegramWebhook.audioMark = false ->
  TelegramWebhook.beforeFirst TelegramWebhook.audioMark t = t.
Proof.
  induction t as [|c t IH].
  - intros _. rewrite audioMark_units. reflexivity.
  - change (includes (c :: t) TelegramWebhook.audioMark)
      with (startsWith (c :: t) TelegramWebhook.audioMark
            || includes t TelegramWebhook.audioMark).
    change (TelegramWebhook.beforeFirst TelegramWebhook.audioMark (c :: t))
      with (if startsWith (c :: t) TelegramWebhook.audioMark
            then []
            else c :: TelegramWebhook.beforeFirst TelegramWebhook.audioMark t).
    intros H. apply orb_false_iff in H. destruct H as [H1 H2].
    rewrite H1, (IH H2). reflexivity.
Qed.

(** The text of a voice message that was stored and transcribed. *)
Lemma voice_text_stored (path url transcript : jsstring) :
  path <> [] -> url <> [] -> transcript <> [] ->
  TelegramWebhook.processVoiceMessage (Some path) true (Some url)
                                      (Some transcript)
  = transcript ++ 0x0A :: (lit "Audio: " ++ url).
Proof.
  intros Hp Hu Ht. unfold TelegramWebhook.processVoiceMessage.
  destruct path; [congruence|]. destruct url; [congruence|].
  destruct transcript; [congruence|]. reflexivity.
Qed.

Lemma audio_line_starts_with_mark (url : jsstring) :
  startsWith (0x0A :: (lit "Audio: " ++ url)) TelegramWebhook.audioMark = true.
Proof.
  rewrite audioMark_units.
  replace (lit "Audio: ") with [0x41; 0x75; 0x64; 0x69; 0x6F; 0x3A; 0x20]
    by (vm_compute; reflexivity).
  reflexivity.
Qed.

Lemma rawText_of_stored_voice (t url : jsstring) :
  TelegramWebhook.rawTextForConversation (t ++ 0x0A :: (lit "Audio: " ++ url))
  = trim (TelegramWebhook.beforeFirst TelegramWebhook.audioMark t).
Proof.
  unfold TelegramWebhook.rawTextForConversation.
  rewrite includes_before_line, beforeFirst_before_line.
  assert (Hi : includes (0x0A :: (lit "Audio: " ++ url))
                        TelegramWebhook.audioMark = true).
  { change (includes (0x0A :: (lit "Audio: " ++ url)) TelegramWebhook.audioMark)
      with (startsWith (0x0A :: (lit "Audio: " ++ url))
                       TelegramWebhook.audioMark
            || includes (lit "Audio: " ++ url) TelegramWebhook.audioMark).
    rewrite audio_line_starts_with_mark. reflexivity. }
  assert (Hb : TelegramWebhook.beforeFirst TelegramWebhook.audioMark
                 (0x0A :: (lit "Audio: " ++ url)) = []).
  { change (TelegramWebhook.beforeFirst TelegramWebhook.audioMark
              (0x0A :: (lit "Audio: " ++ url)))
      with (if startsWith (0x0A :: (lit "Audio: " ++ url))
                          TelegramWebhook.audioMark
            then []
            else 0x0A :: TelegramWebhook.beforeFirst TelegramWebhook.audioMark
                           (lit "Audio: " ++ url)).
    rewrite audio_line_starts_with_mark. reflexivity. }
  rewrite Hi, Hb, orb_true_r.
  destruct (includes t TelegramWebhook.audioMark) eqn:E; [reflexivity|].
  rewrite app_nil_r, (beforeFirst_absent _ E). reflexivity.
Qed.

(** The flow reads its text through [trim] only. *)
Lemma handle_trim (store : gmap Z ProjectConversation.ConversationState)
      (chatId : Z) (t : jsstring) :
  ProjectConversation.handleProjectConversation store chatId (Some (trim t))
  = ProjectConversation.handleProjectConversation store chatId (Some t).
Proof.
  unfold ProjectConversation.handleProjectConversation. cbv zeta.
  change (default [] (Some (trim t))) with (trim t).
  change (default [] (Some t)) with t.
  rewrite trim_idem. reflexivity.
Qed.

(** X19. A voice message that was stored and transcribed reaches the step
    flow as the trimmed transcript up to its first line that starts with
    [Audio:]; when the transcript has no such line, the webhook handles the
    voice message exactly as it handles the transcript sent as text. *)
Theorem voice_is_handled_as_its_transcript (path url transcript : jsstring) :
  path <> [] -> url <> [] -> transcript <> [] ->
  TelegramWebhook.rawTextForConversation
    (TelegramWebhook.processVoiceMessage (Some path) true (Some url)
                                         (Some transcript))
  = trim (TelegramWebhook.beforeFirst TelegramWebhook.audioMark transcript)
  /\ (includes transcript TelegramWebhook.audioMark = false ->
      forall (store : gmap Z ProjectConversation.ConversationState)
             (chatId : option Z) (text : option jsstring),
        TelegramWebhook.conversationStep
          store chatId text
          (Some (TelegramWebhook.processVoiceMessage
                   (Some path) true (Some url) (Some transcript)))
        = TelegramWebhook.conversationStep store chatId (Some transcript) None).
Proof.
  intros Hp Hu Ht. rewrite (voice_text_stored _ _ _ Hp Hu Ht).
  split; [apply rawText_of_stored_voice|].
  intros Hi store chatId text.
  unfold TelegramWebhook.conversationStep. cbv zeta.
  destruct chatId as [c|]; [|reflexivity].
  destruct (c =? 0)%Z; [reflexivity|].
  change (default (default [] text)
                  (Some (transcript ++ 0x0A :: (lit "Audio: " ++ url))))
    with (transcript ++ 0x0A :: (lit "Audio: " ++ url)).
  change (default (default [] (Some transcript)) None) with transcript.
  rewrite rawText_of_stored_voice, (beforeFirst_absent _ Hi), handle_trim.
  unfold TelegramWebhook.rawTextForConversation at 1. rewrite Hi.
  reflexivity.
Qed.

Lemma voice_is_handled_as_its_transcript_witness :
  TelegramWebhook.rawTextForConversation
    (TelegramWebhook.processVoiceMessage
       (Some (lit "voice/file_7.oga")) true
       (Some (lit "https://bucket.s3.amazonaws.com/voice/7.ogg"))
       (Some (lit "कर दो")))
  = trim (TelegramWebhook.beforeFirst TelegramWebhook.audioMark (lit "कर दो"))
  /\ (includes (lit "कर दो") TelegramWebhook.audioMark = false ->
      forall (store : gmap Z ProjectConversation.ConversationState)
             (chatId : option Z) (text : option jsstring),
        TelegramWebhook.conversationStep
          store chatId text
          (Some (TelegramWebhook.processVoiceMessage
                   (Some (lit "voice/file_7.oga")) true
                   (Some (lit "https://bucket.s3.amazonaws.com/voice/7.ogg"))
                   (Some (lit "कर दो"))))
        = TelegramWebhook.conversationStep store chatId
                                           (Some (lit "कर दो")) None).
Proof.
  apply (voice_is_handled_as_its_transcript
           (lit "voice/file_7.oga")
           (lit "https://bucket.s3.amazonaws.com/voice/7.ogg")
           (lit "कर दो"));
    vm_compute; discriminate.
Defined.

(** A word with solid edges at the end of a text survives the removal of
    the class at both ends. *)
Lemma keeps_solid_tail (p : N -> bool) (x h : jsstring) :
  solidEdges p h = true ->
  exists x', dropWhileEnd p (dropWhile p (x ++ h)) = x' ++ h.
Proof.
  intros H. rewrite dropWhile_app. destruct (forallb p x).
  - exists []. pose proof (dropWhile_solid p h [] H) as E.
    rewrite app_nil_r in E. rewrite E.
    apply (dropWhileEnd_solid p [] h H).
  - exists (dropWhile p x). apply dropWhileEnd_solid. exact H.
Qed.

Lemma long_not_listed (l : list jsstring) (n : nat) (s : jsstring) :
  forallb (fun v => (length v <=? n)%nat) l = true ->
  (n < length s)%nat ->
  arrayIncludes l s = false.
Proof.
  intros Hl Hs. unfold arrayIncludes.
  destruct (existsb (streq s) l) eqn:E; [|reflexivity].
  apply existsb_exists in E. destruct E as (v & Hv & Ev).
  apply streq_eq in Ev. subst v.
  rewrite forallb_forall in Hl. specialize (Hl _ Hv).
  apply Nat.leb_le in Hl. lia.
Qed.

(** A text that ends with a solid word of more than 15 code units is
    neither answer of the confirmation gate: every listed value is shorter,
    and the substring tests are for texts of at most 15 units. *)
Lemma long_tail_is_no_answer (x h : jsstring) :
  solidEdges isEdgePunct h = true ->
  (15 < length h)%nat ->
  ProjectConversation.isYes (x ++ h) = false
  /\ ProjectConversation.isNo (x ++ h) = false.
Proof.
  intros Hh Hl.
  assert (Hw : solidEdges isWhiteSpace h = true)
    by (apply (solidEdges_weaken isWhiteSpace isEdgePunct whiteSpace_is_edge);
        exact Hh).
  assert (Hy : forallb (fun v => (length v <=? 15)%nat)
                       ProjectConversation.yesValues = true)
    by (vm_compute; reflexivity).
  assert (Hn : forallb (fun v => (length v <=? 15)%nat)
                       ProjectConversation.noValues = true)
    by (vm_compute; reflexivity).
  unfold ProjectConversation.isYes, ProjectConversation.isNo. cbv zeta.
  destruct (keeps_solid_tail isWhiteSpace x h Hw) as [x1 E1].
  change (dropWhileEnd isWhiteSpace (dropWhile isWhiteSpace (x ++ h)))
    with (trim (x ++ h)) in E1.
  rewrite E1.
  destruct (keeps_solid_tail isEdgePunct x1 h Hh) as [x2 E2].
  change (dropWhileEnd isEdgePunct (dropWhile isEdgePunct (x1 ++ h)))
    with (stripEdges (x1 ++ h)) in E2.
  rewrite E2.
  destruct (keeps_solid_tail isWhiteSpace x2 h Hw) as [x3 E3].
  change (dropWhileEnd isWhiteSpace (dropWhile isWhiteSpace (x2 ++ h)))
    with (trim (x2 ++ h)) in E3.
  rewrite E3.
  assert (L1 : (15 < length (x1 ++ h))%nat) by (rewrite length_app; lia).
  assert (L3 : (15 < length (x3 ++ h))%nat) by (rewrite length_app; lia).
  assert (L4 : (15 < length (toLowerCase (x3 ++ h)))%nat)
    by (unfold toLowerCase; rewrite length_map; exact L3).
  rewrite (long_not_listed _ 15 _ Hy L4), (long_not_listed _ 15 _ Hy L3),
    (long_not_listed _ 15 _ Hy L1), (long_not_listed _ 15 _ Hn L4),
    (long_not_listed _ 15 _ Hn L3), (long_not_listed _ 15 _ Hn L1).
  assert (Lb : (length (x1 ++ h) <=? 15)%nat = false)
    by (apply Nat.leb_gt; exact L1).
  rewrite Lb. split; reflexivity.
Qed.

Lemma uploadFailedNote_solid :
  solidEdges isEdgePunct uploadFailedNote = true
  /\ length uploadFailedNote = 25%nat.
Proof. split; vm_compute; reflexivity. Qed.

(** The text of a voice message that was transcribed but not stored. *)
Lemma voice_text_not_stored (path transcript : jsstring)
      (s3Url : option jsstring) :
  path <> [] -> truthy s3Url = false -> transcript <> [] ->
  TelegramWebhook.processVoiceMessage (Some path) true s3Url (Some transcript)
  = transcript ++ 0x0A :: uploadFailedNote.
Proof.
  intros Hp Hu Ht. unfold TelegramWebhook.processVoiceMessage.
  rewrite Hu. unfold uploadFailedNote.
  destruct path; [congruence|]. destruct transcript as [|c w]; [congruence|].
  cbn [truthy negb]. change (default [] (Some (c :: w))) with (c :: w).
  reflexivity.
Qed.

(** X20. When the upload of a transcribed voice message fails, the text the
    step flow receives is the transcript with the note about the failure on
    a line after it, unless the transcript has a line, after its first,
    that begins with [Audio:]: then it is the trimmed transcript up to that
    line, the note cut off.  In the first case, in a chat that waits for the confirmation,
    the flow asks again whatever the transcript says, a clear yes included,
    and the state of the chat does not change. *)
Theorem failed_upload_hides_the_answer
        (path transcript : jsstring) (s3Url : option jsstring) :
  path <> [] -> truthy s3Url = false -> transcript <> [] ->
  (includes transcript TelegramWebhook.audioMark = true ->
   TelegramWebhook.rawTextForConversation
     (TelegramWebhook.processVoiceMessage (Some path) true s3Url
                                          (Some transcript))
   = trim (TelegramWebhook.beforeFirst TelegramWebhook.audioMark transcript))
  /\ (includes transcript TelegramWebhook.audioMark = false ->
      TelegramWebhook.rawTextForConversation
        (TelegramWebhook.processVoiceMessage (Some path) true s3Url
                                             (Some transcript))
      = transcript ++ [0x0A] ++ uploadFailedNote
      /\ forall (text : option jsstring)
                (store : gmap Z ProjectConversation.ConversationState)
                (chatId : Z) (st : ProjectConversation.ConversationState),
          chatId <> 0%Z ->
          store !! chatId = Some st ->
          ProjectConversation.waitingForAssignConfirm st = true ->
          TelegramWebhook.conversationStep
            store (Some chatId) text
            (Some (TelegramWebhook.processVoiceMessage (Some path) true s3Url
                                                       (Some transcript)))
          = (store,
             Some (ProjectConversation.replyOnly
                     (Some ProjectConversation.repromptReply)))).
Proof.
  intros Hp Hu Ht.
  rewrite (voice_text_not_stored _ _ _ Hp Hu Ht).
  assert (Hnote : includes (0x0A :: uploadFailedNote) TelegramWebhook.audioMark
                  = false) by (vm_compute; reflexivity).
  split.
  { intros Hi. unfold TelegramWebhook.rawTextForConversation.
    rewrite includes_before_line, beforeFirst_before_line, Hi. reflexivity. }
  intros Hi.
  assert (Hm : includes (transcript ++ 0x0A :: uploadFailedNote)
                        TelegramWebhook.audioMark = false).
  { rewrite includes_before_line, Hi, Hnote. reflexivity. }
  assert (Hr : TelegramWebhook.rawTextForConversation
                 (transcript ++ 0x0A :: uploadFailedNote)
               = transcript ++ 0x0A :: uploadFailedNote).
  { unfold TelegramWebhook.rawTextForConversation. rewrite Hm. reflexivity. }
  split; [exact Hr|].
  intros text store chatId st Hc Hst Hw.
  unfold TelegramWebhook.conversationStep. cbv zeta.
  destruct (Z.eqb_spec chatId 0) as [E|_]; [contradiction|].
  change (default (default [] text)
                  (Some (transcript ++ 0x0A :: uploadFailedNote)))
    with (transcript ++ 0x0A :: uploadFailedNote).
  rewrite Hr.
  destruct uploadFailedNote_solid as [Hs Hl].
  assert (Hsw : solidEdges isWhiteSpace uploadFailedNote = true)
    by (apply (solidEdges_weaken isWhiteSpace isEdgePunct whiteSpace_is_edge);
        exact Hs).
  destruct (keeps_solid_tail isWhiteSpace (transcript ++ [0x0A])
                             uploadFailedNote Hsw) as [x1 E1].
  change (dropWhileEnd isWhiteSpace
            (dropWhile isWhiteSpace ((transcript ++ [0x0A]) ++ uploadFailedNote)))
    with (trim ((transcript ++ [0x0A]) ++ uploadFailedNote)) in E1.
  rewrite <- app_assoc in E1.
  change ([0x0A] ++ uploadFailedNote) with (0x0A :: uploadFailedNote) in E1.
  assert (Hplain : plainText (transcript ++ 0x0A :: uploadFailedNote)).
  { unfold plainText. rewrite E1. split; intros E;
      apply (f_equal (@length N)) in E; rewrite length_app, Hl in E.
    - cbn [length] in E. lia.
    - replace (length (lit "/project")) with 8%nat in E
        by (vm_compute; reflexivity).
      lia. }
  rewrite (handle_plain _ _ _ _ Hplain Hst), Hw, E1.
  destruct (long_tail_is_no_answer x1 uploadFailedNote Hs) as [Hy Hn];
    [rewrite Hl; lia|].
  rewrite Hy, Hn. reflexivity.
Qed.

Lemma failed_upload_hides_the_answer_witness :
  TelegramWebhook.rawTextForConversation
    (TelegramWebhook.processVoiceMessage
       (Some (lit "voice/file_7.oga")) true None (Some (lit "कर दो")))
  = lit "कर दो" ++ [0x0A] ++ uploadFailedNote
  /\ TelegramWebhook.conversationStep
       {[ 7%Z := awaiting (lit "Pune") (lit "3") ]} (Some 7%Z) None
       (Some (TelegramWebhook.processVoiceMessage
                (Some (lit "voice/file_7.oga")) true None
                (Some (lit "कर दो"))))
     = ({[ 7%Z := awaiting (lit "Pune") (lit "3") ]},
        Some (ProjectConversation.replyOnly
                (Some ProjectConversation.repromptReply))).
Proof.
  destruct (failed_upload_hides_the_answer
              (lit "voice/file_7.oga") (lit "कर दो") None)
    as [_ H].
  - vm_compute. discriminate.
  - reflexivity.
  - vm_compute. discriminate.
  - destruct H as [Hraw Hstep]; [vm_compute; reflexivity|].
    split; [exact Hraw|].
    apply (Hstep None {[ 7%Z := awaiting (lit "Pune") (lit "3") ]} 7%Z
                 (awaiting (lit "Pune") (lit "3"))).
    + discriminate.
    + apply lookup_singleton_eq.
    + reflexivity.
Defined.

Lemma first_answer_recorded
      (store : gmap Z ProjectConversation.ConversationState)
      (chatId : Z) (t : jsstring) :
  plainText t ->
  store !! chatId = Some ProjectConversation.initialState ->
  ProjectConversation.handleProjectConversation store chatId (Some t)
  = (<[chatId := {| ProjectConversation.step := 1;
                    ProjectConversation.answers :=
                      {| ProjectConversation.ans_work_location := Some (trim t);
                         ProjectConversation.ans_rooms_count := None |};
                    ProjectConversation.waitingForAssignConfirm := false |}]>
       store,
     ProjectConversation.replyOnly
       (snd <$> ProjectConversation.PROJECT_FLOW !! 1%nat)).
Proof.
  intros Hp Hst. rewrite (handle_plain _ _ _ _ Hp Hst). reflexivity.
Qed.

Lemma placeholders_are_plain :
  Forall (fun p => plainText p /\ trim p = p
                   /\ TelegramWebhook.rawTextForConversation p = p)
         voicePlaceholders.
Proof.
  repeat constructor; vm_compute; solve [reflexivity | discriminate].
Qed.

Lemma failed_voice_text (filePath : option jsstring) (downloaded : bool)
      (s3Url transcript : option jsstring) :
  truthy filePath && downloaded && truthy transcript = false ->
  exists p,
    In p voicePlaceholders
    /\ TelegramWebhook.rawTextForConversation
         (TelegramWebhook.processVoiceMessage filePath downloaded s3Url
                                              transcript) = p.
Proof.
  intros H. unfold TelegramWebhook.processVoiceMessage.
  destruct (truthy filePath); cbn [negb andb] in H |- *.
  - destruct downloaded; cbn [negb andb] in H |- *.
    + rewrite H. destruct (truthy s3Url).
      * exists (lit "[Transcription unavailable]").
        split; [right; right; left; reflexivity|].
        change (lit "[Transcription unavailable]" ++ [0x0A] ++ lit "Audio: "
                ++ default [] s3Url)
          with (lit "[Transcription unavailable]"
                ++ 0x0A :: (lit "Audio: " ++ default [] s3Url)).
        rewrite rawText_of_stored_voice. vm_compute. reflexivity.
      * exists (lit "[Voice message – S3 upload failed]").
        split; [right; right; right; left; reflexivity|].
        vm_compute. reflexivity.
    + exists (lit "[Voice message – download failed]").
      split; [right; left; reflexivity|]. vm_compute. reflexivity.
  - exists (lit "[Voice message – getFile failed]").
    split; [left; reflexivity|]. vm_compute. reflexivity.
Qed.

(** X21. A voice message without a transcript (the file could not be
    fetched or downloaded, or the transcription gave nothing) reaches the
    step flow as one of four bracketed notices, and the flow takes the
    notice for what the user said: in a chat that has just been asked the
    first question it is recorded as the work location and the second
    question follows. *)
Theorem failed_voice_is_recorded_as_answer
        (filePath : option jsstring) (downloaded : bool)
        (s3Url transcript text : option jsstring)
        (store : gmap Z ProjectConversation.ConversationState) (chatId : Z) :
  truthy filePath && downloaded && truthy transcript = false ->
  chatId <> 0%Z ->
  store !! chatId = Some ProjectConversation.initialState ->
  exists p,
    In p voicePlaceholders
    /\ TelegramWebhook.rawTextForConversation
         (TelegramWebhook.processVoiceMessage filePath downloaded s3Url
                                              transcript) = p
    /\ TelegramWebhook.conversationStep
         store (Some chatId) text
         (Some (TelegramWebhook.processVoiceMessage filePath downloaded s3Url
                                                    transcript))
       = (<[chatId := {| ProjectConversation.step := 1;
                         ProjectConversation.answers :=
                           {| ProjectConversation.ans_work_location := Some p;
                              ProjectConversation.ans_rooms_count := None |};
                         ProjectConversation.waitingForAssignConfirm := false |}]>
            store,
          Some (ProjectConversation.replyOnly
                  (snd <$> ProjectConversation.PROJECT_FLOW !! 1%nat))).
Proof.
  intros H Hc Hst.
  destruct (failed_voice_text filePath downloaded s3Url transcript H)
    as (p & Hin & Hr).
  exists p. split; [exact Hin|]. split; [exact Hr|].
  pose proof placeholders_are_plain as HF.
  rewrite List.Forall_forall in HF.
  destruct (HF p Hin) as (Hp & Htrim & _).
  unfold TelegramWebhook.conversationStep. cbv zeta.
  destruct (Z.eqb_spec chatId 0) as [E|_]; [contradiction|].
  match goal with
  | |- context [default ?d (Some ?m)] => change (default d (Some m)) with m
  end.
  rewrite Hr, (first_answer_recorded _ _ _ Hp Hst), Htrim. reflexivity.
Qed.

Lemma failed_voice_is_recorded_as_answer_witness :
  exists p,
    In p voicePlaceholders
    /\ TelegramWebhook.rawTextForConversation
         (TelegramWebhook.processVoiceMessage
            (Some (lit "voice/file_7.oga")) true
            (Some (lit "https://bucket.s3.amazonaws.com/voice/7.ogg")) None)
       = p
    /\ TelegramWebhook.conversationStep
         {[ 7%Z := ProjectConversation.initialState ]} (Some 7%Z) None
         (Some (TelegramWebhook.processVoiceMessage
                  (Some (lit "voice/file_7.oga")) true
                  (Some (lit "https://bucket.s3.amazonaws.com/voice/7.ogg"))
                  None))
       = (<[7%Z := {| ProjectConversation.step := 1;
                      ProjectConversation.answers :=
                        {| ProjectConversation.ans_work_location := Some p;
                           ProjectConversation.ans_rooms_count := None |};
                      ProjectConversation.waitingForAssignConfirm := false |}]>
            {[ 7%Z := ProjectConversation.initialState ]},
          Some (ProjectConversation.replyOnly
                  (snd <$> ProjectConversation.PROJECT_FLOW !! 1%nat))).
Proof.
  apply (failed_voice_is_recorded_as_answer
           (Some (lit "voice/file_7.oga")) true
           (Some (lit "https://bucket.s3.amazonaws.com/voice/7.ogg")) None None
           {[ 7%Z := ProjectConversation.initialState ]} 7%Z).
  - reflexivity.
  - discriminate.
  - vm_compute. reflexivity.
Defined.

Lemma app_nonempty_l (a b : jsstring) : a <> [] -> a ++ b <> [].
Proof. destruct a; [congruence|discriminate]. Qed.

Lemma question_nonempty (n : nat) (r : jsstring) :
  snd <$> ProjectConversation.PROJECT_FLOW !! n = Some r -> r <> [].
Proof.
  destruct n as [|[|n]]; cbn [lookup list_lookup ProjectConversation.PROJECT_FLOW
                                fmap option_fmap option_map snd];
    intros H; try discriminate H; apply some_injective in H; subst r;
    vm_compute; discriminate.
Qed.

(** The step flow never replies with the empty string. *)
Lemma flow_reply_nonempty
      (store : gmap Z ProjectConversation.ConversationState)
      (chatId : Z) (rawText : option jsstring) (r : jsstring) :
  ProjectConversation.replyText
    (snd (ProjectConversation.handleProjectConversation store chatId rawText))
  = Some r ->
  r <> [].
Proof.
  destruct (text_cases rawText) as [He|[Hs|(t & -> & Hp)]].
  - rewrite (handle_empty _ _ _ He). discriminate.
  - rewrite (handle_start _ _ _ Hs). apply question_nonempty.
  - destruct (store !! chatId) as [st|] eqn:Hst.
    + rewrite (handle_plain _ _ _ _ Hp Hst). cbv zeta.
      destruct (ProjectConversation.waitingForAssignConfirm st).
      * destruct (ProjectConversation.isYes (trim t));
          [|destruct (ProjectConversation.isNo (trim t))];
          cbn [snd ProjectConversation.replyText ProjectConversation.replyOnly];
          intros H; apply some_injective in H; subst r;
          vm_compute; discriminate.
      * destruct (ProjectConversation.PROJECT_FLOW
                    !! ProjectConversation.step st);
          [destruct (_ <? _)%nat|];
          cbn [snd ProjectConversation.replyText ProjectConversation.replyOnly].
        -- apply question_nonempty.
        -- intros H. apply some_injective in H. subst r.
           unfold ProjectConversation.assignQuestion.
           do 2 apply app_nonempty_l. vm_compute. discriminate.
        -- discriminate.
    + rewrite (handle_unknown _ _ _ Hp Hst). discriminate.
Qed.

(** X22. For an update with a truthy chat id the webhook sends nothing
    exactly when the update has neither a voice message nor a text that is
    not empty; in that case the store is unchanged.  In every other case
    there is a reply: that of the step flow, or one of the two fixed
    acknowledgements. *)
Theorem webhook_silent_iff
        (store : gmap Z ProjectConversation.ConversationState)
        (chatId : Z) (text voiceText : option jsstring) :
  chatId <> 0%Z ->
  (snd (TelegramWebhook.POST store (Some chatId) text voiceText) = None
   <-> voiceText = None /\ default [] text = [])
  /\ (voiceText = None -> default [] text = [] ->
      fst (TelegramWebhook.POST store (Some chatId) text voiceText) = store).
Proof.
  intros Hc.
  assert (Hsent : forall raw hasVoice m,
             (hasVoice = true \/ m <> []) ->
             (let final :=
                TelegramWebhook.finalReplyText
                  (ProjectConversation.replyText
                     (snd (ProjectConversation.handleProjectConversation
                             store chatId raw)))
                  hasVoice m in
              if truthy final then final else None) <> None).
  { intros raw hasVoice m Hm. cbv zeta.
    pose proof (flow_reply_nonempty store chatId raw) as Hne.
    destruct (ProjectConversation.replyText _) as [r|].
    - specialize (Hne r eq_refl). destruct r; [congruence|].
      cbn [TelegramWebhook.finalReplyText truthy]. discriminate.
    - cbn [TelegramWebhook.finalReplyText].
      destruct hasVoice.
      + replace (truthy (Some (lit "Voice message received and stored.")))
          with true by (vm_compute; reflexivity).
        discriminate.
      + destruct Hm as [Hm|Hm]; [discriminate Hm|].
        destruct m; [congruence|].
        replace (truthy (Some (lit "Bot connected successfully.")))
          with true by (vm_compute; reflexivity).
        discriminate. }
  unfold TelegramWebhook.POST, TelegramWebhook.conversationStep.
  cbv zeta. destruct (Z.eqb_spec chatId 0) as [E|_]; [contradiction|].
  destruct voiceText as [v|].
  - split; [|discriminate]. split; [|intros [E _]; discriminate E].
    intros H. exfalso.
    specialize (Hsent (Some (TelegramWebhook.rawTextForConversation
                               (default (default [] text) (Some v))))
                      (bool_decide (is_Some (Some v)))
                      (default (default [] text) (Some v))
                      (or_introl eq_refl)).
    cbv zeta in Hsent.
    destruct (ProjectConversation.handleProjectConversation _ _ _) as [s' r].
    exact (Hsent H).
  - change (default (default [] text) None) with (default [] text).
    destruct (default [] text) as [|c m] eqn:Em.
    + rewrite handle_empty by (vm_compute; reflexivity).
      split; [|reflexivity]. split; [intros _; split; reflexivity|].
      reflexivity.
    + split; [|discriminate]. split; [|intros [_ E]; discriminate E].
      intros H. exfalso.
      assert (Hcm : c :: m <> []) by discriminate.
      specialize (Hsent (Some (TelegramWebhook.rawTextForConversation (c :: m)))
                        (bool_decide (is_Some (@None jsstring)))
                        (c :: m) (or_intror Hcm)).
      cbv zeta in Hsent.
      destruct (ProjectConversation.handleProjectConversation _ _ _) as [s' r].
      exact (Hsent H).
Qed.

Lemma webhook_silent_iff_witness :
  (snd (TelegramWebhook.POST
          {[ 7%Z := awaiting (lit "2BHK flat") (lit "do kamre") ]}
          (Some 7%Z) None None) = None
   <-> (None : option jsstring) = None /\ default [] (None : option jsstring) = [])
  /\ ((None : option jsstring) = None ->
      default [] (None : option jsstring) = [] ->
      fst (TelegramWebhook.POST
             {[ 7%Z := awaiting (lit "2BHK flat") (lit "do kamre") ]}
             (Some 7%Z) None None)
      = {[ 7%Z := awaiting (lit "2BHK flat") (lit "do kamre") ]}).
Proof.
  apply (webhook_silent_iff
           {[ 7%Z := awaiting (lit "2BHK flat") (lit "do kamre") ]}
           7%Z None None).
  discriminate.
Defined.

(** ** The two versions of the turn orchestrator *)

Lemma followups_without_quote (d : LeadAnalysis) (i : option LeadIntentResult) :
  isQuoteIntent i = false ->
  generateFollowupQuestions d i = generateFollowupQuestions d None.
Proof.
  intros H. unfold generateFollowupQuestions. rewrite H. reflexivity.
Qed.

(** What the earlier endpoint adds to the analysis is what the later
    orchestrator works out by itself. *)
Lemma earlier_respond_data (d : LeadAnalysis) :
  EarlierLeadAnalyzeRoute.respond (inl d)
  = {| EarlierLeadOrchestrator.success := true;
       EarlierLeadOrchestrator.data := Some d;
       EarlierLeadOrchestrator.missing :=
         match fst (generateFollowupQuestions d None) with
         | [] => None
         | _ :: _ => Some (fst (generateFollowupQuestions d None))
         end;
       EarlierLeadOrchestrator.followup_questions :=
         match snd (generateFollowupQuestions d None) with
         | [] => None
         | _ :: _ => Some (snd (generateFollowupQuestions d None))
         end;
       EarlierLeadOrchestrator.confirmation :=
         match fst (generateFollowupQuestions d None) with
         | [] => generateConfirmation d
         | _ :: _ => None
         end;
       EarlierLeadOrchestrator.error := None |}.
Proof.
  unfold EarlierLeadAnalyzeRoute.respond, generateFollowupQuestions,
    generateConfirmation, isQuoteIntent, confirmationOpening.
  cbv zeta. cbn [negb].
  match goal with
  | |- context [fst ?a] => set (acc := a)
  end.
  destruct (fst acc); reflexivity.
Qed.

Lemma sameIntent_not_quote (i : option LeadIntentResult)
      (i' : option EarlierLeadIntent.LeadIntentResult) :
  sameIntent i i' -> isQuoteIntent i = false.
Proof.
  destruct i as [[k h tp]|], i' as [[k' h' tp']|]; cbn; try tauto.
  intros [H _]. destruct k, k'; try discriminate H; reflexivity.
Qed.

Lemma intent_rules_agree (t : jsstring) (s : ConversationState)
      (a : LeadAnalyzeLikeResponse)
      (a' : EarlierLeadOrchestrator.LeadAnalyzeLikeResponse)
      (i : option LeadIntentResult)
      (i' : option EarlierLeadIntent.LeadIntentResult)
      (m : option MeasurementData) :
  sameIntent i i' ->
  unboundUpdate i s = false ->
  match intentRule {| text := t; state := s; analysis := a; intent := i;
                      measurements := m |},
        EarlierLeadOrchestrator.intentRule
          {| EarlierLeadOrchestrator.text := t;
             EarlierLeadOrchestrator.state := s;
             EarlierLeadOrchestrator.analysis := a';
             EarlierLeadOrchestrator.intent := i' |}
  with
  | Some o, Some o' =>
    o = say (EarlierLeadOrchestrator.reply o')
            (EarlierLeadOrchestrator.newState o')
  | None, None => True
  | _, _ => False
  end.
Proof.
  unfold sameIntent, unboundUpdate, intentRule,
    EarlierLeadOrchestrator.intentRule.
  cbn [intent state EarlierLeadOrchestrator.intent
       EarlierLeadOrchestrator.state].
  destruct i as [[k h tp]|], i' as [[k' h' tp']|]; try tauto.
  cbn [LeadIntent.intent EarlierLeadIntent.intent lead_hint
       EarlierLeadIntent.lead_hint].
  intros [Hk <-] Hu.
  destruct k, k'; try discriminate Hk; clear Hk;
    cbn [intent_eqb EarlierLeadIntent.intent_eqb orb andb negb] in Hu |- *;
    cbn [EarlierLeadOrchestrator.reply EarlierLeadOrchestrator.newState].
  - reflexivity.
  - exact I.
  - destruct (truthy (leadId s)); [|discriminate Hu]. exact I.
  - destruct (truthy (leadId s)); cbn [negb andb];
      cbn [EarlierLeadOrchestrator.reply EarlierLeadOrchestrator.newState].
    + reflexivity.
    + unfold whichProjectReply, EarlierLeadOrchestrator.whichProjectReply.
      cbn [LeadIntent.intent EarlierLeadIntent.intent lead_hint
           EarlierLeadIntent.lead_hint intent_eqb
           EarlierLeadIntent.intent_eqb].
      reflexivity.
  - reflexivity.
  - exact I.
Qed.

(** X23. The later orchestrator, which works out the missing fields, the
    questions and the recap by itself, replies as the earlier one did on the
    response of the earlier analyze endpoint: for the same message, state,
    outcome of the analyzer and classification of a kind that both versions
    know, the two turns give the same reply and the same state, except for
    an update request in an unbound conversation.  The later turn then makes
    no tool call and lists no dependency, and its missing map, when it has
    one, is that of the earlier endpoint. *)
Theorem versions_agree_on_shared_intents
        (t : jsstring) (s : ConversationState)
        (outcome : LeadAnalysis + jsstring)
        (i : option LeadIntentResult)
        (i' : option EarlierLeadIntent.LeadIntentResult)
        (m : option MeasurementData) :
  sameIntent i i' ->
  unboundUpdate i s = false ->
  reply (laterTurn t s outcome i m)
  = EarlierLeadOrchestrator.reply (earlierTurn t s outcome i')
  /\ newState (laterTurn t s outcome i m)
     = EarlierLeadOrchestrator.newState (earlierTurn t s outcome i')
  /\ toolCall (laterTurn t s outcome i m) = None
  /\ dependencies (laterTurn t s outcome i m) = None
  /\ (missing (laterTurn t s outcome i m) = None
      \/ missing (laterTurn t s outcome i m)
         = EarlierLeadOrchestrator.missing
             (EarlierLeadAnalyzeRoute.respond outcome)).
Proof.
  intros Hs Hu. pose proof (sameIntent_not_quote _ _ Hs) as Hq.
  unfold laterTurn, earlierTurn, runLeadOrchestrator,
    EarlierLeadOrchestrator.runLeadOrchestrator.
  pose proof (intent_rules_agree t s (LeadAnalyzeRoute.respond outcome)
                (EarlierLeadAnalyzeRoute.respond outcome) i i' m Hs Hu) as H0.
  destruct (intentRule _) as [o|]; destruct (EarlierLeadOrchestrator.intentRule _)
    as [o'|]; try contradiction.
  { subst o. cbn [orElse say reply newState toolCall dependencies missing].
    conjuncts; try reflexivity. left. reflexivity. }
  clear H0. cbn [orElse].
  unfold greetingRule, EarlierLeadOrchestrator.greetingRule.
  cbn [text state EarlierLeadOrchestrator.text EarlierLeadOrchestrator.state].
  destruct (detectGreeting (trim t)).
  { cbn [orElse say reply newState toolCall dependencies missing
         EarlierLeadOrchestrator.reply EarlierLeadOrchestrator.newState].
    conjuncts; try reflexivity. left. reflexivity. }
  cbn [orElse].
  unfold confirmationRule, EarlierLeadOrchestrator.confirmationRule.
  cbv zeta.
  cbn [text state EarlierLeadOrchestrator.text EarlierLeadOrchestrator.state].
  assert (Hrest :
    let o := afterConfirmation
               {| text := t; state := s;
                  analysis := LeadAnalyzeRoute.respond outcome;
                  intent := i; measurements := m |} in
    let x' := {| EarlierLeadOrchestrator.text := t;
                 EarlierLeadOrchestrator.state := s;
                 EarlierLeadOrchestrator.analysis :=
                   EarlierLeadAnalyzeRoute.respond outcome;
                 EarlierLeadOrchestrator.intent := i' |} in
    let o' := orElse (EarlierLeadOrchestrator.analysisFailedRule x')
              (orElse (EarlierLeadOrchestrator.missingRule x')
              (orElse (EarlierLeadOrchestrator.recapRule x')
              (EarlierLeadOrchestrator.closingRules x'))) in
    reply o = EarlierLeadOrchestrator.reply o'
    /\ newState o = EarlierLeadOrchestrator.newState o'
    /\ toolCall o = None /\ dependencies o = None
    /\ (missing o = None
        \/ missing o = EarlierLeadOrchestrator.missing
                         (EarlierLeadAnalyzeRoute.respond outcome))).
  { cbv zeta. unfold afterConfirmation.
    destruct outcome as [d|e].
    - rewrite earlier_respond_data.
      unfold analysisFailedRule, analysisRule, closingRules,
        EarlierLeadOrchestrator.analysisFailedRule,
        EarlierLeadOrchestrator.missingRule,
        EarlierLeadOrchestrator.recapRule,
        EarlierLeadOrchestrator.closingRules, LeadAnalyzeRoute.respond.
      cbv zeta.
      cbn [analysis success data error intent state negb orElse
           EarlierLeadOrchestrator.analysis EarlierLeadOrchestrator.success
           EarlierLeadOrchestrator.data EarlierLeadOrchestrator.error
           EarlierLeadOrchestrator.missing
           EarlierLeadOrchestrator.followup_questions
           EarlierLeadOrchestrator.confirmation
           EarlierLeadOrchestrator.state].
      rewrite (followups_without_quote d i Hq).
      destruct (generateFollowupQuestions d None) as [ms qs].
      cbn [fst snd].
      destruct ms as [|k ms].
      + cbn [List.map orElse].
        destruct (status_eqb (leadStatus s) LS_NEW);
          rewrite ?andb_true_r, ?andb_false_r;
          [destruct (truthy (generateConfirmation d))|];
          try destruct (lastIntentIs s CI_SCHEDULE_SITE_VISIT
                        && status_eqb (leadStatus s) LS_LEAD_CAPTURED);
          cbn [orElse say reply newState toolCall dependencies missing
               EarlierLeadOrchestrator.reply
               EarlierLeadOrchestrator.newState];
          conjuncts; try reflexivity; left; reflexivity.
      + cbn [List.map orElse reply newState toolCall dependencies missing
             EarlierLeadOrchestrator.reply EarlierLeadOrchestrator.newState].
        destruct qs; conjuncts; try reflexivity; right; reflexivity.
    - unfold analysisFailedRule, EarlierLeadOrchestrator.analysisFailedRule,
        LeadAnalyzeRoute.respond, EarlierLeadAnalyzeRoute.respond.
      cbn [analysis success data error state negb orElse say
           reply newState toolCall dependencies missing
           EarlierLeadOrchestrator.analysis EarlierLeadOrchestrator.success
           EarlierLeadOrchestrator.error EarlierLeadOrchestrator.state
           EarlierLeadOrchestrator.reply EarlierLeadOrchestrator.newState].
      conjuncts; try reflexivity. left. reflexivity. }
  cbv zeta in Hrest.
  destruct (lastIntentIs s CI_LEAD_CAPTURED && status_eqb (leadStatus s) LS_NEW);
    [|cbn [orElse]; exact Hrest].
  destruct (detectYes (trim t)).
  { cbn [orElse say reply newState toolCall dependencies missing
         EarlierLeadOrchestrator.reply EarlierLeadOrchestrator.newState].
    conjuncts; try reflexivity. left. reflexivity. }
  destruct (detectNo (trim t)).
  { cbn [orElse say reply newState toolCall dependencies missing
         EarlierLeadOrchestrator.reply EarlierLeadOrchestrator.newState].
    conjuncts; try reflexivity. left. reflexivity. }
  cbn [orElse]. exact Hrest.
Qed.

Lemma versions_agree_on_shared_intents_witness :
  reply (laterTurn (lit "Rahil ka HSR mein 2BHK repaint karna hai, kal se")
                   LeadTestPage.initialState (inl fullAnalysis)
                   (Some {| LeadIntent.intent := NEW_LEAD; lead_hint := None;
                            topic := None |})
                   None)
  = EarlierLeadOrchestrator.reply
      (earlierTurn (lit "Rahil ka HSR mein 2BHK repaint karna hai, kal se")
                   LeadTestPage.initialState (inl fullAnalysis)
                   (Some {| EarlierLeadIntent.intent := EarlierLeadIntent.NEW_LEAD;
                            EarlierLeadIntent.lead_hint := None;
                            EarlierLeadIntent.topic := None |}))
  /\ newState (laterTurn (lit "Rahil ka HSR mein 2BHK repaint karna hai, kal se")
                         LeadTestPage.initialState (inl fullAnalysis)
                         (Some {| LeadIntent.intent := NEW_LEAD;
                                  lead_hint := None; topic := None |})
                         None)
     = EarlierLeadOrchestrator.newState
         (earlierTurn (lit "Rahil ka HSR mein 2BHK repaint karna hai, kal se")
                      LeadTestPage.initialState (inl fullAnalysis)
                      (Some {| EarlierLeadIntent.intent :=
                                 EarlierLeadIntent.NEW_LEAD;
                               EarlierLeadIntent.lead_hint := None;
                               EarlierLeadIntent.topic := None |}))
  /\ toolCall (laterTurn (lit "Rahil ka HSR mein 2BHK repaint karna hai, kal se")
                         LeadTestPage.initialState (inl fullAnalysis)
                         (Some {| LeadIntent.intent := NEW_LEAD;
                                  lead_hint := None; topic := None |})
                         None) = None
  /\ dependencies
       (laterTurn (lit "Rahil ka HSR mein 2BHK repaint karna hai, kal se")
                  LeadTestPage.initialState (inl fullAnalysis)
                  (Some {| LeadIntent.intent := NEW_LEAD; lead_hint := None;
                           topic := None |})
                  None) = None
  /\ (missing
        (laterTurn (lit "Rahil ka HSR mein 2BHK repaint karna hai, kal se")
                   LeadTestPage.initialState (inl fullAnalysis)
                   (Some {| LeadIntent.intent := NEW_LEAD; lead_hint := None;
                            topic := None |})
                   None) = None
      \/ missing
           (laterTurn (lit "Rahil ka HSR mein 2BHK repaint karna hai, kal se")
                      LeadTestPage.initialState (inl fullAnalysis)
                      (Some {| LeadIntent.intent := NEW_LEAD; lead_hint := None;
                               topic := None |})
                      None)
         = EarlierLeadOrchestrator.missing
             (EarlierLeadAnalyzeRoute.respond (inl fullAnalysis))).
Proof.
  apply (versions_agree_on_shared_intents
           (lit "Rahil ka HSR mein 2BHK repaint karna hai, kal se")
           LeadTestPage.initialState (inl fullAnalysis)
           (Some {| LeadIntent.intent := NEW_LEAD; lead_hint := None;
                    topic := None |})
           (Some {| EarlierLeadIntent.intent := EarlierLeadIntent.NEW_LEAD;
                    EarlierLeadIntent.lead_hint := None;
                    EarlierLeadIntent.topic := None |})
           None).
  - split; reflexivity.
  - reflexivity.
Defined.

(** X24. The one request of a shared kind on which the two versions part:
    an update request in a conversation that is not bound to a project.
    Both versions ask which project is meant and set lastIntent to NEW, but
    the earlier question speaks of an estimate or update and the later one
    of an update, so the replies differ whatever the hint. *)
Theorem versions_differ_on_unbound_update
        (t : jsstring) (s : ConversationState)
        (outcome : LeadAnalysis + jsstring)
        (i : option LeadIntentResult)
        (i' : option EarlierLeadIntent.LeadIntentResult)
        (m : option MeasurementData) :
  sameIntent i i' ->
  unboundUpdate i s = true ->
  newState (laterTurn t s outcome i m) = withLastIntent s CI_NEW
  /\ EarlierLeadOrchestrator.newState (earlierTurn t s outcome i')
     = withLastIntent s CI_NEW
  /\ reply (laterTurn t s outcome i m)
     <> EarlierLeadOrchestrator.reply (earlierTurn t s outcome i').
Proof.
  unfold sameIntent, unboundUpdate, laterTurn, earlierTurn,
    runLeadOrchestrator, EarlierLeadOrchestrator.runLeadOrchestrator,
    intentRule, EarlierLeadOrchestrator.intentRule.
  cbn [intent state EarlierLeadOrchestrator.intent
       EarlierLeadOrchestrator.state].
  destruct i as [[k h tp]|], i' as [[k' h' tp']|]; try tauto;
    try discriminate.
  cbn [LeadIntent.intent EarlierLeadIntent.intent lead_hint
       EarlierLeadIntent.lead_hint].
  intros [Hk <-] Hu.
  destruct k; try discriminate Hu.
  destruct k'; try discriminate Hk. clear Hk.
  cbn [intent_eqb andb] in Hu.
  cbn [intent_eqb EarlierLeadIntent.intent_eqb orb andb]. rewrite Hu.
  cbn [orElse say reply newState EarlierLeadOrchestrator.reply
       EarlierLeadOrchestrator.newState].
  split; [reflexivity|]. split; [reflexivity|].
  unfold whichProjectReply, EarlierLeadOrchestrator.whichProjectReply.
  cbn [LeadIntent.intent EarlierLeadIntent.intent lead_hint
       EarlierLeadIntent.lead_hint intent_eqb EarlierLeadIntent.intent_eqb].
  intros E. apply app_inv_head in E. vm_compute in E. discriminate E.
Qed.

Lemma versions_differ_on_unbound_update_witness :
  newState (laterTurn (lit "HSR wale ghar ka colour change karna hai")
                      LeadTestPage.initialState
                      (inr (lit "Lead analysis request could not be processed."))
                      (Some {| LeadIntent.intent := UPDATE_EXISTING_LEAD;
                               lead_hint := Some (lit "HSR wala ghar");
                               topic := None |})
                      None)
  = withLastIntent LeadTestPage.initialState CI_NEW
  /\ EarlierLeadOrchestrator.newState
       (earlierTurn (lit "HSR wale ghar ka colour change karna hai")
                    LeadTestPage.initialState
                    (inr (lit "Lead analysis request could not be processed."))
                    (Some {| EarlierLeadIntent.intent :=
                               EarlierLeadIntent.UPDATE_EXISTING_LEAD;
                             EarlierLeadIntent.lead_hint :=
                               Some (lit "HSR wala ghar");
                             EarlierLeadIntent.topic := None |}))
     = withLastIntent LeadTestPage.initialState CI_NEW
  /\ reply (laterTurn (lit "HSR wale ghar ka colour change karna hai")
                      LeadTestPage.initialState
                      (inr (lit "Lead analysis request could not be processed."))
                      (Some {| LeadIntent.intent := UPDATE_EXISTING_LEAD;
                               lead_hint := Some (lit "HSR wala ghar");
                               topic := None |})
                      None)
     <> EarlierLeadOrchestrator.reply
          (earlierTurn (lit "HSR wale ghar ka colour change karna hai")
                       LeadTestPage.initialState
                       (inr (lit "Lead analysis request could not be processed."))
                       (Some {| EarlierLeadIntent.intent :=
                                  EarlierLeadIntent.UPDATE_EXISTING_LEAD;
                                EarlierLeadIntent.lead_hint :=
                                  Some (lit "HSR wala ghar");
                                EarlierLeadIntent.topic := None |})).
Proof.
  apply (versions_differ_on_unbound_update
           (lit "HSR wale ghar ka colour change karna hai")
           LeadTestPage.initialState
           (inr (lit "Lead analysis request could not be processed."))
           (Some {| LeadIntent.intent := UPDATE_EXISTING_LEAD;
                    lead_hint := Some (lit "HSR wala ghar"); topic := None |})
           (Some {| EarlierLeadIntent.intent :=
                      EarlierLeadIntent.UPDATE_EXISTING_LEAD;
                    EarlierLeadIntent.lead_hint := Some (lit "HSR wala ghar");
                    EarlierLeadIntent.topic := None |})
           None).
  - split; reflexivity.
  - reflexivity.
Defined.

(** ** Column names *)

Lemma columnNumber_app (w l : jsstring) (acc : Z) :
  fold_left (fun acc c => acc * 26 + (Z.of_N c - 64))%Z (w ++ l) acc
  = fold_left (fun acc c => acc * 26 + (Z.of_N c - 64))%Z l
      (fold_left (fun acc c => acc * 26 + (Z.of_N c - 64))%Z w acc).
Proof. apply fold_left_app. Qed.

(** The loop ends within its fuel, and what it puts before [letter] is the
    name of column [n + 1]. *)
Lemma columnLetterLoop_spec (fuel : nat) :
  forall (n : Z) (letter : jsstring),
    (0 <= n)%Z -> (Z.to_nat n < fuel)%nat ->
    exists w,
      SheetRecording.columnLetterLoop fuel n letter = Some (w ++ letter)
      /\ w <> [] /\ Forall isCapital w
      /\ columnNumber w = (n + 1)%Z.
Proof.
  induction fuel as [|fuel IH]; intros n letter Hn Hf; [lia|].
  cbn [SheetRecording.columnLetterLoop].
  destruct (Z.leb_spec 0 n) as [_|]; [|lia].
  rewrite Z.rem_mod_nonneg by lia.
  pose proof (Z.mod_pos_bound n 26 ltac:(lia)) as Hm.
  pose proof (Z.div_mod n 26 ltac:(lia)) as Hd.
  assert (Hc : isCapital (Z.to_N (n mod 26 + 65))) by (unfold isCapital; lia).
  destruct (Z.leb_spec 0 (n / 26 - 1)) as [Hq|Hq].
  - destruct (IH (n / 26 - 1)%Z (Z.to_N (n mod 26 + 65) :: letter) Hq
                 ltac:(lia)) as (w & E & Hw & Hcap & Hv).
    exists (w ++ [Z.to_N (n mod 26 + 65)]). rewrite E, <- app_assoc.
    split; [reflexivity|]. split; [destruct w; discriminate|].
    split; [apply Forall_app; split; [exact Hcap|constructor; [exact Hc|constructor]]|].
    unfold columnNumber in Hv |- *. rewrite columnNumber_app, Hv.
    cbn [fold_left]. rewrite Z2N.id by lia. lia.
  - exists [Z.to_N (n mod 26 + 65)].
    destruct fuel as [|fuel'];
      cbn [SheetRecording.columnLetterLoop];
      (destruct (Z.leb_spec 0 (n / 26 - 1)) as [|_]; [lia|]);
      (split; [reflexivity|]); (split; [discriminate|]);
      (split; [constructor; [exact Hc|constructor]|]);
      unfold columnNumber; cbn [fold_left]; rewrite Z2N.id by lia; lia.
Qed.

(** X25. [columnLetter] ends on every index.  For an index that is not
    negative it returns a word of capital letters, not empty, that names
    column [index + 1] in the numbering A = 1, ..., Z = 26, AA = 27, ...;
    hence two such indices with the same letters are equal.  (For a negative
    index the loop is not entered and the result is empty.) *)
Theorem columnLetter_names_the_column (index : Z) :
  (0 <= index)%Z ->
  (exists w,
      SheetRecording.columnLetter index = Some w
      /\ w <> [] /\ Forall isCapital w
      /\ columnNumber w = (index + 1)%Z)
  /\ (forall other, (0 <= other)%Z ->
        SheetRecording.columnLetter other = SheetRecording.columnLetter index ->
        other = index)
  /\ SheetRecording.columnLetter (- index - 1) = Some [].
Proof.
  intros Hi.
  assert (Hspec : forall n, (0 <= n)%Z ->
            exists w, SheetRecording.columnLetter n = Some w
                      /\ w <> [] /\ Forall isCapital w
                      /\ columnNumber w = (n + 1)%Z).
  { intros n Hn. unfold SheetRecording.columnLetter.
    destruct (columnLetterLoop_spec (S (Z.to_nat n)) n [] Hn ltac:(lia))
      as (w & E & H). exists w. rewrite app_nil_r in E. split; assumption. }
  split; [apply Hspec; exact Hi|]. split.
  - intros other Ho E.
    destruct (Hspec index Hi) as (w & Ew & _ & _ & Hv).
    destruct (Hspec other Ho) as (w' & Ew' & _ & _ & Hv').
    rewrite Ew, Ew' in E. apply some_injective in E. subst w'. lia.
  - unfold SheetRecording.columnLetter.
    cbn [SheetRecording.columnLetterLoop].
    destruct (Z.leb_spec 0 (- index - 1)); [lia|reflexivity].
Qed.

Lemma columnLetter_names_the_column_witness :
  (exists w,
      SheetRecording.columnLetter 27 = Some w
      /\ w <> [] /\ Forall isCapital w
      /\ columnNumber w = (27 + 1)%Z)
  /\ (forall other, (0 <= other)%Z ->
        SheetRecording.columnLetter other = SheetRecording.columnLetter 27 ->
        other = 27%Z)
  /\ SheetRecording.columnLetter (- 27 - 1) = Some [].
Proof.
  apply (columnLetter_names_the_column 27). lia.
Defined.

(** ** The phone number of the analyze endpoint *)

Lemma rmatch_oneOf {R} (c : N) (cs : list N) (s : jsstring)
      (cap : option jsstring) (k : jsstring -> option jsstring -> option R) :
  rmatch (LeadAnalyzeRoute.oneOf c cs) s cap k
  = match s with
    | x :: s' => if existsb (N.eqb x) (c :: cs) then k s' cap else None
    | [] => None
    end.
Proof.
  revert c. induction cs as [|c' cs IH]; intros c;
    cbn [LeadAnalyzeRoute.oneOf rmatch matchLit].
  - destruct s as [|x s']; [reflexivity|]. unfold unitMatches.
    cbn [existsb]. rewrite (N.eqb_sym c x), orb_false_r.
    destruct (x =? c)%N; reflexivity.
  - rewrite IH. destruct s as [|x s']; [reflexivity|]. unfold unitMatches.
    cbn [existsb]. rewrite (N.eqb_sym c x).
    destruct (x =? c)%N; cbn [orb]; [|reflexivity].
    destruct (k s' cap); [reflexivity|].
    destruct (_ || _); reflexivity.
Qed.

Lemma digit_units (x : N) :
  existsb (N.eqb x) [0x30; 0x31; 0x32; 0x33; 0x34; 0x35; 0x36; 0x37; 0x38; 0x39]
  = isDigit x.
Proof.
  unfold isDigit. cbn [existsb].
  destruct (N.leb_spec 0x30 x) as [Hl|Hl], (N.leb_spec x 0x39) as [Hu|Hu];
    cbn [andb];
    try (repeat match goal with
                | |- context [(x =? ?c)%N] =>
                  destruct (N.eqb_spec x c); [lia|]
                end; reflexivity).
  assert (Hx : (x = 0x30 \/ x = 0x31 \/ x = 0x32 \/ x = 0x33 \/ x = 0x34
                \/ x = 0x35 \/ x = 0x36 \/ x = 0x37 \/ x = 0x38 \/ x = 0x39)%N)
    by lia.
  repeat (destruct Hx as [->|Hx]; [reflexivity|]). subst x. reflexivity.
Qed.

Lemma first_digit_units (x : N) :
  existsb (N.eqb x) [0x36; 0x37; 0x38; 0x39] = isDigit x && (0x36 <=? x).
Proof.
  unfold isDigit. cbn [existsb].
  destruct (N.leb_spec 0x30 x) as [Hl|Hl], (N.leb_spec x 0x39) as [Hu|Hu],
           (N.leb_spec 0x36 x) as [Hf|Hf];
    cbn [andb];
    try (repeat match goal with
                | |- context [(x =? ?c)%N] =>
                  destruct (N.eqb_spec x c); [lia|]
                end; reflexivity).
  assert (Hx : (x = 0x36 \/ x = 0x37 \/ x = 0x38 \/ x = 0x39)%N) by lia.
  repeat (destruct Hx as [->|Hx]; [reflexivity|]). subst x. reflexivity.
Qed.

Lemma rmatch_digits {R} (n : nat) :
  forall (s : jsstring) (cap : option jsstring)
         (k : jsstring -> option jsstring -> option R),
    rmatch (LeadAnalyzeRoute.repeatRe n LeadAnalyzeRoute.digitRe) s cap k
    = if (n <=? length s)%nat && forallb isDigit (firstn n s)
      then k (skipn n s) cap else None.
Proof.
  induction n as [|n IH]; intros s cap k;
    cbn [LeadAnalyzeRoute.repeatRe rmatch matchLit].
  - reflexivity.
  - unfold LeadAnalyzeRoute.digitRe. rewrite rmatch_oneOf.
    destruct s as [|x s']; [reflexivity|]. rewrite digit_units, IH.
    cbn [length firstn skipn forallb Nat.leb].
    destruct (isDigit x); cbn [andb]; [reflexivity|].
    rewrite andb_false_r. reflexivity.
Qed.

Lemma rmatch_mobileRe {R} (s : jsstring) (cap : option jsstring)
      (k : jsstring -> option jsstring -> option R) :
  rmatch LeadAnalyzeRoute.mobileRe s cap k
  = if mobile (firstn 10 s) then k (skipn 10 s) cap else None.
Proof.
  unfold LeadAnalyzeRoute.mobileRe. cbn [rmatch]. rewrite rmatch_oneOf.
  destruct s as [|x s']; [reflexivity|].
  rewrite first_digit_units, rmatch_digits. unfold mobile.
  cbn [firstn length forallb skipn]. rewrite length_firstn.
  destruct (Nat.leb_spec 9 (length s')) as [H9|H9].
  - replace (S (Nat.min 9 (length s')) =? 10)%nat with true
      by (symmetry; apply Nat.eqb_eq; lia).
    destruct (isDigit x), (0x36 <=? x)%N,
             (forallb isDigit (firstn 9 s')); reflexivity.
  - replace (S (Nat.min 9 (length s')) =? 10)%nat with false
      by (symmetry; apply Nat.eqb_neq; lia).
    destruct (isDigit x), (0x36 <=? x)%N; reflexivity.
Qed.

Lemma nondigit_start_not_mobile (x : N) (r : jsstring) :
  isDigit x = false -> mobile (firstn 10 (x :: r)) = false.
Proof.
  intros H. unfold mobile. cbn [firstn forallb]. rewrite H.
  rewrite andb_false_r. reflexivity.
Qed.

Lemma separator_is_no_digit (x : N) :
  existsb (N.eqb x) (0x2D :: LeadAnalyzeRoute.whiteSpaceUnits) = true ->
  isDigit x = false.
Proof.
  intros H. apply existsb_exists in H. destruct H as (c & Hc & E).
  apply N.eqb_eq in E. subst c.
  assert (HF : forallb (fun c => negb (isDigit c))
                       (0x2D :: LeadAnalyzeRoute.whiteSpaceUnits) = true)
    by (vm_compute; reflexivity).
  rewrite forallb_forall in HF. specialize (HF _ Hc).
  destruct (isDigit x); [discriminate HF|reflexivity].
Qed.

Lemma filter_digits (d : jsstring) :
  forallb isDigit d = true -> List.filter isDigit d = d.
Proof.
  induction d as [|c d IH]; [reflexivity|]. cbn [forallb List.filter].
  intros H. apply andb_true_iff in H. destruct H as [Hc Hd].
  rewrite Hc, (IH Hd). reflexivity.
Qed.

Lemma mobile_parts (d : jsstring) :
  mobile d = true -> length d = 10%nat /\ forallb isDigit d = true.
Proof.
  unfold mobile. intros H. apply andb_true_iff in H. destruct H as [H _].
  apply andb_true_iff in H. destruct H as [Hl Hd].
  apply Nat.eqb_eq in Hl. split; assumption.
Qed.

(** A match of the pattern at the start of [s]: an optional prefix whose
    digits are 91, then the ten digits. *)
Lemma phoneRe_at (s : jsstring) (cap : option jsstring) :
  rmatch LeadAnalyzeRoute.phoneRe s None (fun _ c => Some c) = Some cap ->
  exists p d rest,
    cap = Some (p ++ d) /\ s = p ++ d ++ rest /\ mobile d = true
    /\ (p = [] \/ List.filter isDigit p = lit "91").
Proof.
  unfold LeadAnalyzeRoute.phoneRe. cbn [rmatch].
  assert (Hplain : forall u,
             (if mobile (firstn 10 u)
              then Some (Some (firstn (length s - length (skipn 10 u)) s))
              else None) = Some cap ->
             forall p, s = p ++ u ->
             (p = [] \/ List.filter isDigit p = lit "91") ->
             exists p d rest,
               cap = Some (p ++ d) /\ s = p ++ d ++ rest /\ mobile d = true
               /\ (p = [] \/ List.filter isDigit p = lit "91")).
  { intros u H p Hs Hp. destruct (mobile (firstn 10 u)) eqn:Hm; [|discriminate H].
    apply some_injective in H. subst cap.
    exists p, (firstn 10 u), (skipn 10 u).
    rewrite firstn_skipn. split; [|split; [exact Hs|split; assumption]].
    f_equal. rewrite Hs.
    rewrite <- (firstn_skipn 10 u) at 1 3. rewrite app_assoc.
    apply firstn_consumed. }
  destruct (matchLit false (lit "+91") s) as [s1|] eqn:EL.
  - apply matchLit_exact in EL. rewrite rmatch_oneOf.
    assert (Hplus : mobile (firstn 10 s) = false).
    { rewrite EL. replace (lit "+91") with [0x2B; 0x39; 0x31]
        by (vm_compute; reflexivity).
      apply nondigit_start_not_mobile. reflexivity. }
    assert (H91 : List.filter isDigit (lit "+91") = lit "91")
      by (vm_compute; reflexivity).
    rewrite !rmatch_mobileRe, Hplus.
    destruct s1 as [|x s2].
    + replace (mobile (firstn 10 [])) with false by reflexivity. discriminate.
    + destruct (existsb (N.eqb x) (0x2D :: LeadAnalyzeRoute.whiteSpaceUnits))
        eqn:Hsep.
      * pose proof (separator_is_no_digit x Hsep) as Hx.
        rewrite rmatch_mobileRe, (nondigit_start_not_mobile x s2 Hx).
        destruct (mobile (firstn 10 s2)) eqn:Hm; [|discriminate].
        intros H. apply (Hplain s2 ltac:(rewrite Hm; exact H) (lit "+91" ++ [x])).
        -- rewrite EL, <- app_assoc. reflexivity.
        -- right. rewrite List.filter_app, H91. cbn [List.filter].
           rewrite Hx. apply app_nil_r.
      * destruct (mobile (firstn 10 (x :: s2))) eqn:Hm; [|discriminate].
        intros H. apply (Hplain (x :: s2) ltac:(rewrite Hm; exact H) (lit "+91")).
        -- exact EL.
        -- right. exact H91.
  - rewrite rmatch_mobileRe. intros H.
    apply (Hplain s H []); [reflexivity|left; reflexivity].
Qed.

Lemma phoneRe_matches (d rest : jsstring) :
  mobile d = true ->
  exists cap,
    rmatch LeadAnalyzeRoute.phoneRe (d ++ rest) None (fun _ c => Some c)
    = Some cap.
Proof.
  intros Hm. destruct (mobile_parts d Hm) as [Hl Hd].
  unfold LeadAnalyzeRoute.phoneRe. cbn [rmatch].
  destruct d as [|c d']; [discriminate Hl|].
  cbn [forallb] in Hd. apply andb_true_iff in Hd. destruct Hd as [Hc _].
  assert (EL : matchLit false (lit "+91") ((c :: d') ++ rest) = None).
  { replace (lit "+91") with [0x2B; 0x39; 0x31] by (vm_compute; reflexivity).
    cbn [app matchLit]. unfold unitMatches.
    destruct (N.eqb_spec 0x2B c) as [<-|_]; [discriminate Hc|reflexivity]. }
  rewrite EL, rmatch_mobileRe.
  rewrite firstn_app, firstn_all2 by lia.
  replace (10 - length (c :: d'))%nat with 0%nat by lia.
  cbn [firstn]. rewrite app_nil_r, Hm. eexists. reflexivity.
Qed.

(** Whenever the pattern matches, [detectPhone] returns a number: its last
    [return null] is never reached. *)
Lemma detectPhone_of_match (text : jsstring) (cap : option jsstring) :
  exec LeadAnalyzeRoute.phoneRe text = Some cap ->
  exists pre d post,
    text = pre ++ d ++ post /\ mobile d = true
    /\ LeadAnalyzeRoute.detectPhone text = Some (lit "+91" ++ d).
Proof.
  intros He. unfold LeadAnalyzeRoute.detectPhone. rewrite He.
  apply exec_sound in He. destruct He as (pre0 & t & Ht & Hr).
  apply phoneRe_at in Hr. destruct Hr as (p & d & rest & -> & -> & Hm & Hp).
  destruct (mobile_parts d Hm) as [Hl Hd].
  exists (pre0 ++ p), d, rest. split; [rewrite Ht, <- app_assoc; reflexivity|].
  split; [exact Hm|]. cbv zeta. cbn [orEmpty].
  rewrite List.filter_app, (filter_digits d Hd).
  destruct Hp as [->|Hp].
  - cbn [List.filter app]. rewrite Hl. reflexivity.
  - rewrite Hp.
    replace (lit "91") with [0x39; 0x31] by (vm_compute; reflexivity).
    cbn [app length]. rewrite Hl. cbn [Nat.eqb andb startsWith].
    rewrite !N.eqb_refl. cbn [andb].
    replace (lit "+") with [0x2B] by (vm_compute; reflexivity).
    replace (lit "+91") with [0x2B; 0x39; 0x31] by (vm_compute; reflexivity).
    destruct d; reflexivity.
Qed.

(** X26. [detectPhone] finds a number exactly when the text contains ten
    consecutive digits of which the first is 6 to 9, and the number it
    returns is [+91] followed by such ten digits of the text, whether or
    not the text has the prefix [+91] before them: the function never
    returns null once the pattern has matched. *)
Theorem phone_is_ten_digits_of_the_text (text : jsstring) :
  (forall r, LeadAnalyzeRoute.detectPhone text = Some r ->
             exists pre d post,
               text = pre ++ d ++ post /\ mobile d = true
               /\ r = lit "+91" ++ d)
  /\ (LeadAnalyzeRoute.detectPhone text = None
      <-> forall pre d post, text = pre ++ d ++ post -> mobile d = false).
Proof.
  split.
  - intros r Hr.
    destruct (exec LeadAnalyzeRoute.phoneRe text) as [cap|] eqn:He.
    + destruct (detectPhone_of_match text cap He) as (pre & d & post & Ht & Hm & Hd).
      exists pre, d, post. rewrite Hd in Hr. apply some_injective in Hr.
      split; [exact Ht|]. split; [exact Hm|]. symmetry. exact Hr.
    + unfold LeadAnalyzeRoute.detectPhone in Hr. rewrite He in Hr.
      discriminate Hr.
  - split.
    + intros Hn pre d post Ht. destruct (mobile d) eqn:Hm; [|reflexivity].
      destruct (phoneRe_matches d post Hm) as [cap Hc].
      destruct (exec_complete _ pre _ _ Hc) as [cap' He].
      rewrite <- Ht in He.
      destruct (detectPhone_of_match text cap' He) as (? & d' & ? & ? & ? & Hd).
      rewrite Hd in Hn. discriminate Hn.
    + intros Hall.
      destruct (exec LeadAnalyzeRoute.phoneRe text) as [cap|] eqn:He.
      * destruct (detectPhone_of_match text cap He)
          as (pre & d & post & Ht & Hm & _).
        rewrite (Hall pre d post Ht) in Hm. discriminate Hm.
      * unfold LeadAnalyzeRoute.detectPhone. rewrite He. reflexivity.
Qed.
